(** * llm-chat-app-template: the retrieval-augmented chat worker

    A shallow embedding of [src/index.ts] (the Worker, its helpers and the
    [SessionDurableObject]) together with the properties of the
    specification that are about it.

    Conventions of the embedding:
    - a JavaScript string is the list of its UTF-16 code units ([jsstring]);
    - a [Uint8Array] is a list of bytes, each an [N] below 256;
    - values of type [any]/[unknown] (request bodies, stored values, vector
      metadata) are [jsval]s;
    - a [throw] is the [Throw] outcome of the [result] type, [try]/[catch]
      is [try_catch];
    - the Durable Object storage, the vector index and the clock are the
      fields of an explicit [World] threaded through the handlers;
    - in [SessionDurableObject] and [Worker] an awaited call to the storage
      of the Durable Object or to its stub completes; [UnreliableSession]
      and [UnreliableWorker] are the same functions with calls that the
      platform may reject. *)

From Stdlib Require Import NArith ZArith Lia Bool List Ascii String DecimalString Sorted.
From stdpp Require Import base option list gmap strings.
Import ListNotations.

Set Warnings "-register-all,-abstract-large-number".

Local Open Scope N_scope.
Local Open Scope nat_scope.
Local Open Scope list_scope.

(** ** JavaScript strings *)

Module JS.

(** A string is its sequence of UTF-16 code units. *)
Abbreviation jsstring := (list N) (only parsing).

(** String literals of the source (all of them are ASCII). *)
Definition lit (s : string) : jsstring :=
  map N_of_ascii (list_ascii_of_string s).

(** [a === b] on two strings. *)
Fixpoint str_eqb (a b : jsstring) : bool :=
  match a, b with
  | [], [] => true
  | x :: a', y :: b' => N.eqb x y && str_eqb a' b'
  | _, _ => false
  end.

Definition NL : N := 10%N.

(** The code units removed by [String.prototype.trim]: the ECMAScript
    WhiteSpace and LineTerminator productions. *)
Definition is_ws (c : N) : bool :=
  (N.eqb c 9 || N.eqb c 10 || N.eqb c 11 || N.eqb c 12 || N.eqb c 13
   || N.eqb c 32 || N.eqb c 160 || N.eqb c 5760
   || (N.leb 8192 c && N.leb c 8202)
   || N.eqb c 8232 || N.eqb c 8233 || N.eqb c 8239 || N.eqb c 8287
   || N.eqb c 12288 || N.eqb c 65279)%N.

Fixpoint trimStart (s : jsstring) : jsstring :=
  match s with
  | [] => []
  | c :: rest => if is_ws c then trimStart rest else s
  end.

Fixpoint trimEnd (s : jsstring) : jsstring :=
  match s with
  | [] => []
  | c :: rest =>
      match trimEnd rest with
      | [] => if is_ws c then [] else [c]
      | kept => c :: kept
      end
  end.

(** [s.trim()] *)
Definition trim (s : jsstring) : jsstring := trimEnd (trimStart s).

(** [s.slice(from, to)] for [0 <= from <= to]; [to] may exceed the length. *)
Definition slice (s : jsstring) (from to : nat) : jsstring :=
  take (to - from) (drop from s).

(** A string is truthy when it is not empty. *)
Definition nonempty (s : jsstring) : bool :=
  match s with [] => false | _ => true end.

(** [s.startsWith(p)] *)
Fixpoint startsWith (s p : jsstring) : bool :=
  match p, s with
  | [], _ => true
  | x :: p', y :: s' => N.eqb x y && startsWith s' p'
  | _ :: _, [] => false
  end.

(** [s.endsWith(p)] *)
Definition endsWith (s p : jsstring) : bool := startsWith (rev s) (rev p).

(** [s.includes(p)] *)
Fixpoint includes (s p : jsstring) : bool :=
  startsWith s p ||
  match s with
  | [] => false
  | _ :: s' => includes s' p
  end.

(** [parts.join(sep)] *)
Fixpoint join (sep : jsstring) (parts : list jsstring) : jsstring :=
  match parts with
  | [] => []
  | [p] => p
  | p :: rest => p ++ sep ++ join sep rest
  end.

(** [String(n)] for a non-negative integer, as in a template literal. *)
Definition nat_to_string (n : nat) : jsstring :=
  lit (NilZero.string_of_uint (Nat.to_uint n)).

(** [text.replace(/\n{3,}/g, "\n\n")]: every maximal run of three or more
    newlines becomes exactly two; [run] counts the newlines of the run
    being read. *)
Fixpoint collapse_newlines (run : nat) (s : jsstring) : jsstring :=
  match s with
  | [] => repeat NL (Nat.min run 2)
  | c :: rest =>
      if N.eqb c NL then collapse_newlines (S run) rest
      else repeat NL (Nat.min run 2) ++ c :: collapse_newlines 0 rest
  end.

(** [text.replace(/\r\n/g, "\n")] *)
Fixpoint crlf_to_lf (s : jsstring) : jsstring :=
  match s with
  | [] => []
  | c :: rest =>
      match rest with
      | d :: rest' =>
          if N.eqb c 13 && N.eqb d 10 then NL :: crlf_to_lf rest'
          else c :: crlf_to_lf rest
      | [] => [c]
      end
  end.

End JS.
Import JS.

(** ** Constants of [index.ts] *)

Definition DEFAULT_MODEL_ID : jsstring := lit "@cf/meta/llama-3.3-70b-instruct-fp8-fast".
Definition EMBEDDING_MODEL_ID : jsstring := lit "@cf/baai/bge-base-en-v1.5".
Definition PDF_EXTRACT_MODEL_ID : jsstring := lit "@cf/pdf/extract-text".
Definition OCR_MODEL_ID : jsstring := lit "@cf/unum/uform-gen2-qwen-500m".
Definition SYSTEM_PROMPT : jsstring :=
  lit "You are a helpful, friendly assistant. Provide concise and accurate responses.".
Definition MAX_HISTORY : nat := 20.
Definition MAX_CONTEXT_CHUNKS : nat := 4.
Definition EMBEDDING_MAX_CHARS : nat := 2048.
Definition DOCUMENT_MAX_CHARS : nat := 50000.
Definition CHUNK_SIZE : nat := 800.
Definition CHUNK_OVERLAP : nat := 150.
Definition MAX_DOC_CHUNKS : nat := 60.

(** ** The chunker *)

Module Chunker.

(** [text.replace(/\n{3,}/g, "\n\n").trim()], the first line of
    [chunkText]. *)
Definition normalize (text : jsstring) : jsstring :=
  trim (collapse_newlines 0 text).

(** The [while] loop of [chunkText].  Every iteration either leaves the
    loop or advances [index] by [step >= 1], so [fuel] bounds the number of
    iterations; [chunkText] supplies the length of the text, which is
    always enough ([chunk_loop_fuel]). *)
Fixpoint chunk_loop (fuel : nat) (normalized : jsstring)
    (chunkSize step index : nat) (chunks : list jsstring) : list jsstring :=
  match fuel with
  | 0 => chunks
  | S fuel' =>
      if (index <? length normalized) && (length chunks <? MAX_DOC_CHUNKS)
      then
        let piece := trim (slice normalized index (index + chunkSize)) in
        let chunks' :=
          if 0 <? length piece then chunks ++ [piece] else chunks in
        if length normalized <=? index + chunkSize then chunks'
        else chunk_loop fuel' normalized chunkSize step (index + step) chunks'
      else chunks
  end.

Definition chunkText_with (text : jsstring) (chunkSize overlap : nat)
    : list jsstring :=
  let normalized := normalize text in
  if negb (nonempty normalized) then []
  else
    let step := Nat.max 1 (chunkSize - overlap) in
    chunk_loop (length normalized) normalized chunkSize step 0 [].

(** [chunkText(text)] with the default [chunkSize] and [overlap]. *)
Definition chunkText (text : jsstring) : list jsstring :=
  chunkText_with text CHUNK_SIZE CHUNK_OVERLAP.

(** Position [p] of [whole] lies inside an occurrence of some chunk. *)
Definition covered (whole : jsstring) (chunks : list jsstring) (p : nat)
    : Prop :=
  exists before chunk after,
    In chunk chunks /\ whole = before ++ chunk ++ after /\
    length before <= p < length before + length chunk.

(** The farthest position sixty windows can reach. *)
Definition chunk_reach : nat :=
  (MAX_DOC_CHUNKS - 1) * (CHUNK_SIZE - CHUNK_OVERLAP) + CHUNK_SIZE.

End Chunker.


(** ** JavaScript values, the runtime and the bindings *)

(** The part of the JavaScript runtime that the worker uses and that is
    kept abstract: IEEE-754 numbers and their printing, Unicode case
    mapping, regular-expression matching, JSON parsing, UTF-8 decoding, the
    clock and the source of fresh identifiers. *)
Class Platform := {
  number : Type;
  (** the number equal to a non-negative integer *)
  number_of_nat : nat -> number;
  (** [!!n]: false for [0], [-0] and [NaN] *)
  number_truthy : number -> bool;
  (** [JSON.stringify(n)]: decimal digits, or [null] when not finite *)
  JSON_stringify_number : number -> jsstring;
  (** [`${n + 1}`] *)
  number_plus1_string : number -> jsstring;
  (** [s.toLowerCase()] *)
  toLowerCase : jsstring -> jsstring;
  (** [/No such model/i.test(s)] *)
  no_such_model_test : jsstring -> bool;
  (** [new Date().toISOString()] at the k-th reading of the clock *)
  Date_toISOString : nat -> jsstring;
  (** [crypto.randomUUID()] at its k-th call *)
  randomUUID : nat -> jsstring;
  (** [decoder.decode(value, { stream: true })]: from the bytes carried
      over and the new bytes, the text decoded and the bytes carried on *)
  TextDecoder_decode : list N -> list N -> jsstring * list N
}.

Section Values.
Context {P : Platform}.

(** A value of type [any] or [unknown]: what [JSON.parse] can return,
    together with [undefined].  An object is the list of its properties in
    insertion order. *)
Inductive jsval : Type :=
  | JUndefined
  | JNull
  | JBool (b : bool)
  | JNum (n : number)
  | JStr (s : jsstring)
  | JArr (items : list jsval)
  | JObj (props : list (jsstring * jsval)).

(** [!!v] *)
Definition truthy (v : jsval) : bool :=
  match v with
  | JUndefined | JNull => false
  | JBool b => b
  | JNum n => number_truthy n
  | JStr s => nonempty s
  | JArr _ | JObj _ => true
  end.

Fixpoint lookup_prop (props : list (jsstring * jsval)) (key : jsstring)
    : jsval :=
  match props with
  | [] => JUndefined
  | (k, v) :: rest => if str_eqb k key then v else lookup_prop rest key
  end.

(** [v?.key] for the property names of this program; none of them is a
    built-in property of strings, arrays, numbers or booleans, so only
    objects have them. *)
Definition get (v : jsval) (key : string) : jsval :=
  match v with
  | JObj props => lookup_prop props (lit key)
  | _ => JUndefined
  end.

(** [typeof v === "string" ? v : undefined] *)
Definition as_string (v : jsval) : option jsstring :=
  match v with JStr s => Some s | _ => None end.

(** [typeof v === "number" ? v : undefined] *)
Definition as_number (v : jsval) : option number :=
  match v with JNum n => Some n | _ => None end.

(** [Array.isArray(v) ? v : undefined] *)
Definition as_array (v : jsval) : option (list jsval) :=
  match v with JArr l => Some l | _ => None end.

Definition of_option_string (o : option jsstring) : jsval :=
  match o with Some s => JStr s | None => JUndefined end.

(** [typeof v === "string" && v.trim() ? v.trim() : undefined] *)
Definition trimmed_string (v : jsval) : option jsstring :=
  match v with
  | JStr s => if nonempty (trim s) then Some (trim s) else None
  | _ => None
  end.

(** *** JSON text *)

Definition hex_digit (d : N) : N :=
  if N.ltb d 10 then (48 + d)%N else (87 + d)%N.

(** [QuoteJSONString]: the two-character escapes, [\uXXXX] for the other
    control characters and for lone surrogates, everything else as it
    is. *)
Definition unicode_escape (c : N) : jsstring :=
  [92; 117; hex_digit (c / 4096); hex_digit ((c / 256) mod 16);
   hex_digit ((c / 16) mod 16); hex_digit (c mod 16)]%N.

Definition is_high_surrogate (c : N) : bool := (N.leb 55296 c && N.leb c 56319)%N.
Definition is_low_surrogate (c : N) : bool := (N.leb 56320 c && N.leb c 57343)%N.

Fixpoint quote_units (s : jsstring) : jsstring :=
  match s with
  | [] => []
  | c :: rest =>
      if N.eqb c 8 then lit "\b" ++ quote_units rest
      else if N.eqb c 9 then lit "\t" ++ quote_units rest
      else if N.eqb c 10 then lit "\n" ++ quote_units rest
      else if N.eqb c 12 then lit "\f" ++ quote_units rest
      else if N.eqb c 13 then lit "\r" ++ quote_units rest
      else if N.eqb c 34 then [92; 34]%N ++ quote_units rest
      else if N.eqb c 92 then [92; 92]%N ++ quote_units rest
      else if N.ltb c 32 then unicode_escape c ++ quote_units rest
      else if is_high_surrogate c then
        match rest with
        | d :: rest' =>
            if is_low_surrogate d then c :: d :: quote_units rest'
            else unicode_escape c ++ quote_units rest
        | [] => unicode_escape c
        end
      else if is_low_surrogate c then unicode_escape c ++ quote_units rest
      else c :: quote_units rest
  end.

(** [JSON.stringify(s)] for a string [s] *)
Definition JSON_stringify_string (s : jsstring) : jsstring :=
  [34%N] ++ quote_units s ++ [34%N].

(** [JSON.stringify(v)]; [None] stands for [undefined].  A property whose
    value is [undefined] is left out, an [undefined] array element is
    written [null]. *)
Fixpoint JSON_stringify (v : jsval) : option jsstring :=
  match v with
  | JUndefined => None
  | JNull => Some (lit "null")
  | JBool true => Some (lit "true")
  | JBool false => Some (lit "false")
  | JNum n => Some (JSON_stringify_number n)
  | JStr s => Some (JSON_stringify_string s)
  | JArr items =>
      let texts :=
        (fix each (l : list jsval) : list jsstring :=
           match l with
           | [] => []
           | x :: l' =>
               match JSON_stringify x with
               | Some t => t
               | None => lit "null"
               end :: each l'
           end) items in
      Some (lit "[" ++ join (lit ",") texts ++ lit "]")
  | JObj props =>
      let texts :=
        (fix each (l : list (jsstring * jsval)) : list jsstring :=
           match l with
           | [] => []
           | (k, x) :: l' =>
               match JSON_stringify x with
               | Some t => (JSON_stringify_string k ++ lit ":" ++ t) :: each l'
               | None => each l'
               end
           end) props in
      Some (lit "{" ++ join (lit ",") texts ++ lit "}")
  end.

(** [new TextEncoder().encode(s)]: UTF-8, a lone surrogate becoming
    U+FFFD. *)
Definition utf8_of_code_point (cp : N) : list N :=
  (if N.ltb cp 128 then [cp]
   else if N.ltb cp 2048 then [192 + cp / 64; 128 + cp mod 64]
   else if N.ltb cp 65536 then
     [224 + cp / 4096; 128 + (cp / 64) mod 64; 128 + cp mod 64]
   else
     [240 + cp / 262144; 128 + (cp / 4096) mod 64;
      128 + (cp / 64) mod 64; 128 + cp mod 64])%N.

Fixpoint TextEncoder_encode (s : jsstring) : list N :=
  match s with
  | [] => []
  | c :: rest =>
      if is_high_surrogate c then
        match rest with
        | d :: rest' =>
            if is_low_surrogate d then
              utf8_of_code_point
                (65536 + (c - 55296) * 1024 + (d - 56320))%N
              ++ TextEncoder_encode rest'
            else utf8_of_code_point 65533 ++ TextEncoder_encode rest
        | [] => utf8_of_code_point 65533
        end
      else if is_low_surrogate c then
        utf8_of_code_point 65533 ++ TextEncoder_encode rest
      else utf8_of_code_point c ++ TextEncoder_encode rest
  end.

(** *** Exceptions *)

(** What a [catch] clause can receive: an [Error] with its message, or
    something else. *)
Inductive exn : Type :=
  | ErrorObject (message : jsstring)
  | ThrownValue.

Inductive result (A : Type) : Type :=
  | Ok (a : A)
  | Throw (e : exn).
Global Arguments Ok {A} a.
Global Arguments Throw {A} e.

(** [try { body } catch { handler }] on a computation without state *)
Definition try_catch {A} (body : result A) (handler : exn -> result A)
    : result A :=
  match body with
  | Ok a => Ok a
  | Throw e => handler e
  end.

Definition rbind {A B} (r : result A) (k : A -> result B) : result B :=
  match r with
  | Ok a => k a
  | Throw e => Throw e
  end.

(** An [async] function over a state [S]: it returns or throws, and leaves
    a state behind either way. *)
Definition M (S A : Type) : Type := S -> result A * S.

Definition ret {S A} (a : A) : M S A := fun s => (Ok a, s).
Definition throw {S A} (e : exn) : M S A := fun s => (Throw e, s).
Definition bind {S A B} (m : M S A) (k : A -> M S B) : M S B :=
  fun s =>
    match m s with
    | (Ok a, s') => k a s'
    | (Throw e, s') => (Throw e, s')
    end.
Definition lift {S A} (r : result A) : M S A := fun s => (r, s).
Definition gets {S A} (f : S -> A) : M S A := fun s => (Ok (f s), s).
Definition modify {S} (f : S -> S) : M S unit := fun s => (Ok tt, f s).

(** [try { body } catch (error) { handler(error) }] *)
Definition catch {S A} (body : M S A) (handler : exn -> M S A) : M S A :=
  fun s =>
    match body s with
    | (Ok a, s') => (Ok a, s')
    | (Throw e, s') => handler e s'
    end.

End Values.

Declare Scope js_scope.
Delimit Scope js_scope with js.
Notation "x <- c ;; k" := (bind c (fun x => k))
  (at level 100, c at next level, right associativity) : js_scope.
Notation "c ;;; k" := (bind c (fun _ => k))
  (at level 100, right associativity) : js_scope.

Local Open Scope js_scope.

(** ** Requests, responses and streams *)

Section Http.
Context {P : Platform}.

(** A [ReadableStream<Uint8Array>]: the chunks it delivers, and whether it
    then closes or fails ([reader.read()] rejects). *)
Inductive stream_end : Type := Closed | Errored.

Record ReadableStream : Type := {
  chunks : list (list N);
  ending : stream_end
}.

(** All the bytes a reader receives from the stream. *)
Definition stream_bytes (s : ReadableStream) : list N := concat (chunks s).

(** [stream.tee()]: both branches deliver what the source delivers. *)
Definition tee (s : ReadableStream) : ReadableStream * ReadableStream :=
  (s, s).

(** An uploaded [File]: [file_text] is what [file.text()] resolves to and
    [file_bytes] the content of [file.arrayBuffer()]. *)
Record File : Type := {
  file_name : jsstring;
  file_type : jsstring;
  file_text : jsstring;
  file_bytes : list N
}.

Inductive FormEntry : Type :=
  | FormString (s : jsstring)
  | FormFile (f : File).

(** The three fields of the form that the upload handler reads with
    [formData.get]; [None] is [null]. *)
Record FormData : Type := {
  form_title : option FormEntry;
  form_text : option FormEntry;
  form_file : option FormEntry
}.

(** A [Request], reduced to what the handlers read from it.
    [request_json] is [None] when [request.json()] rejects. *)
Record Request : Type := {
  method : jsstring;
  pathname : jsstring;
  query_sessionId : option jsstring;
  header_content_type : option jsstring;
  header_x_source_type : option jsstring;
  request_json : option jsval;
  request_formData : result FormData
}.

(** A response body.  [JsonBody v] is the text [JSON.stringify(v)]. *)
Inductive Body : Type :=
  | NoBody
  | TextBody (text : jsstring)
  | JsonBody (v : jsval)
  | StreamBody (s : ReadableStream).

Record Response : Type := {
  status : nat;
  statusText : jsstring;
  headers : list (jsstring * jsstring);
  body : Body
}.

Definition JSON_HEADERS : list (jsstring * jsstring) :=
  [(lit "content-type", lit "application/json")].

(** [response.ok] *)
Definition ok (r : Response) : bool := (200 <=? status r) && (status r <=? 299).

(** The statuses of a response that has no body. *)
Definition null_body_status (code : nat) : bool :=
  (code =? 101) || (code =? 103) || (code =? 204) || (code =? 205) || (code =? 304).

(** A status text is a reason phrase of HTTP: tabs, spaces, visible
    ASCII characters and the bytes from 128 to 255. *)
Definition reason_phrase (text : jsstring) : bool :=
  forallb
    (fun c => (N.eqb c 9 || N.eqb c 32 || (N.leb 33 c && N.leb c 126)
               || (N.leb 128 c && N.leb c 255))%N)
    text.

(** [new Response(stream, { headers, status, statusText })] returns a
    response.  Otherwise the constructor throws: a [RangeError] for a
    status outside 200..599, a [TypeError] for a status text that is not a
    reason phrase and for a stream given with a null-body status. *)
Definition Response_accepts (code : nat) (text : jsstring) : bool :=
  (200 <=? code) && (code <=? 599) && negb (null_body_status code)
  && reason_phrase text.

(** The text of a body that is not a stream. *)
Definition body_text (b : Body) : jsstring :=
  match b with
  | NoBody => []
  | TextBody t => t
  | JsonBody v => match JSON_stringify v with Some t => t | None => [] end
  | StreamBody _ => []
  end.

(** [await response.json()].  The worker only parses bodies that the
    Durable Object produced with [JSON.stringify]; parsing returns the
    value that was written (a property written as [undefined] is absent
    afterwards, and reads as [undefined] all the same). *)
Definition response_json (r : Response) : result jsval :=
  match body r with
  | JsonBody v => Ok v
  | _ => Throw (ErrorObject (lit "Unexpected end of JSON input"))
  end.

(** [safeJson(request)] *)
Definition safeJson (request : Request) : jsval :=
  match request_json request with
  | Some v => v
  | None => JNull
  end.

(** [jsonResponse(body, status)] *)
Definition jsonResponse (payload : jsval) (code : nat) : Response :=
  {| status := code; statusText := []; headers := JSON_HEADERS;
     body := JsonBody payload |}.

(** [{ error: message }] *)
Definition error_payload (message : jsstring) : jsval :=
  JObj [(lit "error", JStr message)].

(** [new Response(text, { status })] *)
Definition textResponse (text : string) (code : nat) : Response :=
  {| status := code; statusText := []; headers := []; body := TextBody (lit text) |}.

(** A [ChatMessage] object [{ role, content }]. *)
Definition ChatMessage (role : string) (content : jsstring) : jsval :=
  JObj [(lit "role", JStr (lit role)); (lit "content", JStr content)].

(** [list.slice(-n)] *)
Definition slice_last {A} (n : nat) (l : list A) : list A :=
  drop (length l - n) l.

(** The request that [stub.fetch("https://session" + path, { method,
    headers: JSON_HEADERS, body: JSON.stringify(payload) })] delivers to
    the Durable Object. *)
Definition inner_request (meth path : string) (payload : option jsval) : Request :=
  {| method := lit meth; pathname := lit path; query_sessionId := None;
     header_content_type := Some (lit "application/json");
     header_x_source_type := None; request_json := payload;
     request_formData := Throw ThrownValue |}.

End Http.

(** ** The session Durable Object *)

Module SessionDurableObject.
Section Defs.
Context {P : Platform}.

Definition SESSION_STORAGE_KEY : string := "session".

(** The object's [state.storage], and the number of clock readings taken
    so far. *)
Record State : Type := {
  storage : gmap string jsval;
  clock : nat
}.

Record StoredSessionRecord : Type := {
  messages : list jsval;
  modelId : option jsstring;
  createdAt : jsval;
  updatedAt : jsval
}.

(** The record as the object that is stored and serialised. *)
Definition record_value (session : StoredSessionRecord) : jsval :=
  JObj [(lit "messages", JArr (messages session));
        (lit "modelId", of_option_string (modelId session));
        (lit "createdAt", createdAt session);
        (lit "updatedAt", updatedAt session)].

(** [await this.state.storage.get(key)] *)
Definition storage_get (key : string) : M State jsval :=
  gets (fun st => match storage st !! key with Some v => v | None => JUndefined end).

(** [await this.state.storage.put(key, value)] *)
Definition storage_put (key : string) (value : jsval) : M State unit :=
  modify (fun st => {| storage := <[key := value]> (storage st); clock := clock st |}).

(** [await this.state.storage.delete(key)] *)
Definition storage_delete (key : string) : M State unit :=
  modify (fun st => {| storage := delete key (storage st); clock := clock st |}).

(** [new Date().toISOString()] *)
Definition new_Date_toISOString : M State jsstring :=
  fun st => (Ok (Date_toISOString (clock st)),
             {| storage := storage st; clock := S (clock st) |}).

(** [v ?? null] *)
Definition or_null (v : jsval) : jsval :=
  match v with JUndefined => JNull | _ => v end.

(** The second half of [getSessionRecord]: the record that a stored
    value stands for. *)
Definition interpret_stored (stored : jsval) : M State StoredSessionRecord :=
  if negb (truthy stored) then
    created <- new_Date_toISOString ;;
    updated <- new_Date_toISOString ;;
    ret {| messages := []; modelId := None;
           createdAt := JStr created; updatedAt := JStr updated |}
  else
    match stored with
    | JArr items =>
        created <- new_Date_toISOString ;;
        updated <- new_Date_toISOString ;;
        ret {| messages := items; modelId := None;
               createdAt := JStr created; updatedAt := JStr updated |}
    | _ =>
        ret {| messages :=
                 match get stored "messages" with JArr l => l | _ => [] end;
               modelId :=
                 match get stored "modelId" with
                 | JStr s => Some (trim s)
                 | _ => None
                 end;
               createdAt := get stored "createdAt";
               updatedAt := get stored "updatedAt" |}
    end.

Definition getSessionRecord : M State StoredSessionRecord :=
  stored0 <- storage_get SESSION_STORAGE_KEY ;;
  let stored0 := or_null stored0 in
  stored <-
    (if negb (truthy stored0) then
       legacy <- storage_get "messages" ;;
       let legacyMessages := or_null legacy in
       if truthy legacyMessages then
         storage_delete "messages" ;;; ret legacyMessages
       else ret stored0
     else ret stored0) ;;
  interpret_stored stored.

Definition persistMessage (message : jsval) (newModelId : option jsstring)
    : M State unit :=
  session <- getSessionRecord ;;
  let pushed := messages session ++ [message] in
  let kept := slice_last MAX_HISTORY pushed in
  let model :=
    match newModelId with
    | Some m => if nonempty m then Some m else modelId session
    | None => modelId session
    end in
  now <- new_Date_toISOString ;;
  let created :=
    if negb (truthy (createdAt session)) then JStr now
    else createdAt session in
  storage_put SESSION_STORAGE_KEY
    (record_value {| messages := kept; modelId := model;
                     createdAt := created; updatedAt := JStr now |}).

(** The test that guards [persistMessage] in [fetch], negated: the
    message is an object whose role is ["assistant"] or ["user"] and whose
    content is a string. *)
Definition valid_message (message : jsval) : bool :=
  truthy message
  && (match get message "role" with
      | JStr r => str_eqb r (lit "assistant") || str_eqb r (lit "user")
      | _ => false
      end)
  && (match get message "content" with JStr _ => true | _ => false end).

Definition invalid_message_response : Response :=
  jsonResponse (error_payload (lit "Invalid message payload")) 400.

Definition fetch (request : Request) : M State Response :=
  if str_eqb (method request) (lit "GET")
     && str_eqb (pathname request) (lit "/messages") then
    session <- getSessionRecord ;;
    ret {| status := 200; statusText := []; headers := JSON_HEADERS;
           body := JsonBody (record_value session) |}
  else if str_eqb (method request) (lit "POST")
          && str_eqb (pathname request) (lit "/messages") then
    let body := safeJson request in
    let message := get body "message" in
    let newModelId := trimmed_string (get body "modelId") in
    if negb (valid_message message) then ret invalid_message_response
    else
      persistMessage message newModelId ;;;
      ret {| status := 204; statusText := []; headers := []; body := NoBody |}
  else ret (textResponse "Not found" 404).

(** The messages a read of the object would report, without performing
    the read. *)
Definition stored_messages (st : State) : list jsval :=
  match fst (getSessionRecord st) with
  | Ok session => messages session
  | Throw _ => []
  end.

(** The state after a sequence of appends, each a message with the model
    id sent along. *)
Definition persist_all (appends : list (jsval * option jsstring)) (st : State)
    : State :=
  fold_left (fun st a => snd (persistMessage (fst a) (snd a) st)) appends st.

(** The state and the last response after a sequence of requests. *)
Definition serve (requests : list Request) (st : State) : State :=
  fold_left (fun st request => snd (fetch request st)) requests st.

(** A Durable Object that has never been written. *)
Definition fresh (reads : nat) : State := {| storage := ∅; clock := reads |}.

(** The message a request appends, when it is a [POST /messages] that
    passes the test of [fetch]. *)
Definition accepted_message (request : Request) : option jsval :=
  if str_eqb (method request) (lit "POST")
     && str_eqb (pathname request) (lit "/messages")
     && valid_message (get (safeJson request) "message")
  then Some (get (safeJson request) "message")
  else None.

(** The messages appended by a sequence of requests, in order. *)
Definition accepted (requests : list Request) : list jsval :=
  omap accepted_message requests.

(** The role of a message is the given string. *)
Definition has_role (role : string) (message : jsval) : Prop :=
  get message "role" = JStr (lit role).

(** [GET /messages] and [POST /messages] as the worker sends them. *)
Definition read_request : Request := inner_request "GET" "/messages" None.

Definition append_request (payload : jsval) : Request :=
  inner_request "POST" "/messages" (Some payload).

End Defs.
End SessionDurableObject.

(** ** The worker *)

Module Worker.
Section Defs.
Context {P : Platform}.

Record ContextSnippet : Type := {
  title : option jsstring;
  text : jsstring;
  index : option number;
  score : option number
}.

Record EmbeddingItem : Type := {
  embedding : option (list number)
}.

(** [EmbeddingResponse]: [data] may be absent; an entry may be [null],
    and its [embedding] absent or not an array ([None]). *)
Record EmbeddingResponse : Type := {
  data : option (list (option EmbeddingItem))
}.

(** [VectorizeQueryResponse]: the matches are inspected with [typeof]
    tests only, so each is an arbitrary value. *)
Record VectorizeQueryResponse : Type := {
  matches : option (list jsval)
}.

Record VectorMetadata : Type := {
  md_text : jsstring;
  md_title : jsstring;
  md_docId : jsstring;
  md_chunkIndex : nat;
  md_uploadedAt : jsstring;
  md_sourceType : jsstring;
  md_originalFileName : option jsstring
}.

Record VectorRecord : Type := {
  id : jsstring;
  vector : list number;
  metadata : VectorMetadata
}.

(** The raw response of the chat model ([returnRawResponse: true]). *)
Record RawResponse : Type := {
  raw_body : option ReadableStream;
  raw_headers : list (jsstring * jsstring);
  raw_status : nat;
  raw_statusText : jsstring
}.

(** The bindings of [Env], one entry per use the worker makes of them.
    Each call returns or throws as the capability decides. *)
Record Env : Type := {
  AI_run_embedding : list jsstring -> result (option EmbeddingResponse);
  AI_run_chat : jsstring -> list jsval -> result RawResponse;
  AI_run_pdf : list N -> result jsval;
  AI_run_ocr : list N -> option jsstring -> bool -> result jsval;
  VECTORIZE_query : list number -> nat -> result (option VectorizeQueryResponse);
  VECTORIZE_upsert : list VectorRecord -> result unit;
  ASSETS_fetch : Request -> result Response
}.

(** Everything the handlers read and write outside their arguments: the
    storage of the Durable Object of every session name, the calls made
    to [VECTORIZE.upsert], and how often the clock and the identifier
    source were used. *)
Record World : Type := {
  sessions : gmap jsstring (gmap string jsval);
  upsert_calls : list (list VectorRecord);
  clock_reads : nat;
  uuid_calls : nat
}.

Definition session_storage (w : World) (name : jsstring) : gmap string jsval :=
  match sessions w !! name with Some st => st | None => ∅ end.

(** [new Date().toISOString()] *)
Definition new_Date_toISOString : M World jsstring :=
  fun w => (Ok (Date_toISOString (clock_reads w)),
            {| sessions := sessions w; upsert_calls := upsert_calls w;
               clock_reads := S (clock_reads w); uuid_calls := uuid_calls w |}).

(** [crypto.randomUUID()] *)
Definition crypto_randomUUID : M World jsstring :=
  fun w => (Ok (randomUUID (uuid_calls w)),
            {| sessions := sessions w; upsert_calls := upsert_calls w;
               clock_reads := clock_reads w; uuid_calls := S (uuid_calls w) |}).

(** [await env.VECTORIZE.upsert(records)] *)
Definition vectorize_upsert (env : Env) (records : list VectorRecord)
    : M World unit :=
  fun w => (VECTORIZE_upsert env records,
            {| sessions := sessions w;
               upsert_calls := upsert_calls w ++ [records];
               clock_reads := clock_reads w; uuid_calls := uuid_calls w |}).

(** The Durable Object of a session as the worker would find it. *)
Definition session_state (w : World) (name : jsstring) : SessionDurableObject.State :=
  {| SessionDurableObject.storage := session_storage w name;
     SessionDurableObject.clock := clock_reads w |}.

(** The world once the Durable Object of a session has moved to [st]. *)
Definition commit (w : World) (name : jsstring) (st : SessionDurableObject.State)
    : World :=
  {| sessions := <[name := SessionDurableObject.storage st]> (sessions w);
     upsert_calls := upsert_calls w;
     clock_reads := SessionDurableObject.clock st;
     uuid_calls := uuid_calls w |}.

(** [await stub.fetch(request)] where
    [stub = env.SESSIONS.get(env.SESSIONS.idFromName(name))]: the request
    is served by the Durable Object of that name. *)
Definition stub_fetch (name : jsstring) (request : Request) : M World Response :=
  fun w =>
    let '(r, st') := SessionDurableObject.fetch request (session_state w name) in
    (r, commit w name st').

Definition appendMessage (stub : jsstring) (message : jsval) (model : jsstring)
    : M World unit :=
  response <- stub_fetch stub
    (inner_request "POST" "/messages"
       (Some (JObj [(lit "message", message); (lit "modelId", JStr model)]))) ;;
  if negb (ok response) then
    throw (ErrorObject (lit "Failed to store message: " ++ nat_to_string (status response)))
  else ret tt.

(** The record returned by [fetchSessionHistory]. *)
Record History : Type := {
  h_messages : list jsval;
  h_modelId : option jsstring;
  h_createdAt : jsval;
  h_updatedAt : jsval
}.

Definition history_value (h : History) : jsval :=
  JObj [(lit "messages", JArr (h_messages h));
        (lit "modelId", of_option_string (h_modelId h));
        (lit "createdAt", h_createdAt h);
        (lit "updatedAt", h_updatedAt h)].

Definition fetchSessionHistory (stub : jsstring) : M World History :=
  response <- stub_fetch stub (inner_request "GET" "/messages" None) ;;
  if negb (ok response) then
    throw (ErrorObject (lit "Failed to read session history: " ++ nat_to_string (status response)))
  else
    data <- lift (response_json response) ;;
    let messages := match get data "messages" with JArr l => l | _ => [] end in
    ret {| h_messages := slice_last MAX_HISTORY messages;
           h_modelId := as_string (get data "modelId");
           h_createdAt := get data "createdAt";
           h_updatedAt := get data "updatedAt" |}.

Definition selectModelId (requestedModelId : jsval)
    (storedModelId : option jsstring) (fallbackModelId : jsstring) : jsstring :=
  match trimmed_string requestedModelId with
  | Some requested => requested
  | None =>
      match trimmed_string (of_option_string storedModelId) with
      | Some stored => stored
      | None => fallbackModelId
      end
  end.

(** *** Embeddings *)

Definition truncate (limit : nat) (s : jsstring) : jsstring :=
  if limit <? length s then slice s 0 limit else s.

Definition embedText (env : Env) (text : jsstring) : result (option (list number)) :=
  let truncated := truncate EMBEDDING_MAX_CHARS text in
  try_catch
    (rbind (AI_run_embedding env [truncated]) (fun result =>
       (* result?.data?.[0]?.embedding *)
       let found :=
         match result with
         | Some r =>
             match data r with
             | Some (Some item :: _) => embedding item
             | _ => None
             end
         | None => None
         end in
       Ok found))
    (fun _ => Ok None).

Record DocumentMetadata : Type := {
  doc_title : jsstring;
  doc_sourceType : jsstring;
  doc_originalFileName : option jsstring
}.

(** The body of [truncatedChunks.forEach((chunk, index) => ...)]. *)
Fixpoint forEach_chunk (embeddingData : list (option EmbeddingItem))
    (docId : jsstring) (meta : DocumentMetadata)
    (chunks : list jsstring) (index : nat) (upserts : list VectorRecord)
    : M World (list VectorRecord) :=
  match chunks with
  | [] => ret upserts
  | chunk :: rest =>
      let found :=
        match embeddingData !! index with
        | Some (Some item) => embedding item
        | _ => None
        end in
      match found with
      | Some (x :: v) =>
          uploadedAt <- new_Date_toISOString ;;
          forEach_chunk embeddingData docId meta rest (S index)
            (upserts ++
             [{| id := docId ++ lit "#" ++ nat_to_string index;
                 vector := x :: v;
                 metadata :=
                   {| md_text := chunk; md_title := doc_title meta;
                      md_docId := docId; md_chunkIndex := index;
                      md_uploadedAt := uploadedAt;
                      md_sourceType := doc_sourceType meta;
                      md_originalFileName := doc_originalFileName meta |} |}])
      | _ =>
          (* console.warn: the chunk is skipped *)
          forEach_chunk embeddingData docId meta rest (S index) upserts
      end
  end.

Definition count_mismatch_message (got expected : nat) : jsstring :=
  lit "Embedding response length " ++ nat_to_string got
  ++ lit " did not match chunk count " ++ nat_to_string expected.

(** [embeddings?.data ?? []] *)
Definition embedding_data (embeddings : option EmbeddingResponse)
    : list (option EmbeddingItem) :=
  match embeddings with
  | Some r => match data r with Some d => d | None => [] end
  | None => []
  end.

Definition generateEmbeddingsForChunks (env : Env) (chunks : list jsstring)
    (maxChunkLength : nat) (docId : jsstring) (meta : DocumentMetadata)
    : M World (list VectorRecord) :=
  let truncatedChunks := map (truncate maxChunkLength) chunks in
  embeddings <- lift (AI_run_embedding env truncatedChunks) ;;
  let embeddingData := embedding_data embeddings in
  if negb (length embeddingData =? length truncatedChunks) then
    throw (ErrorObject
             (count_mismatch_message (length embeddingData) (length truncatedChunks)))
  else
    upserts <- forEach_chunk embeddingData docId meta truncatedChunks 0 [] ;;
    if length upserts =? 0 then
      throw (ErrorObject
               (lit "Embedding model " ++ EMBEDDING_MODEL_ID
                ++ lit " returned no vectors for provided content."))
    else ret upserts.

(** *** Retrieval *)

(** The [for (const match of matches)] loop of [buildRetrievalContext]. *)
Fixpoint collect_contexts (matches : list jsval) (contexts : list ContextSnippet)
    : list ContextSnippet :=
  match matches with
  | [] => contexts
  | m :: rest =>
      if negb (truthy m) then collect_contexts rest contexts
      else
        let metadata := get m "metadata" in
        let snippet :=
          match get metadata "text" with JStr t => trim t | _ => [] end in
        if negb (nonempty snippet) then collect_contexts rest contexts
        else
          let contexts' :=
            contexts ++
            [{| title := trimmed_string (get metadata "title");
                text := snippet;
                index := as_number (get metadata "chunkIndex");
                score := as_number (get m "score") |}] in
          if MAX_CONTEXT_CHUNKS <=? length contexts' then contexts'
          else collect_contexts rest contexts'
  end.

(** One entry of the context block; [position] is the index in
    [contexts]. *)
Definition render_context (context : ContextSnippet) (position : nat) : jsstring :=
  let headerParts :=
    [lit "Context " ++ nat_to_string (position + 1)]
    ++ match title context with
       | Some t => if nonempty t then [lit "from " ++ [34%N] ++ t ++ [34%N]] else []
       | None => []
       end
    ++ match index context with
       | Some n => [lit "(chunk " ++ number_plus1_string n ++ lit ")"]
       | None => []
       end in
  join (lit " ") headerParts ++ lit ":" ++ [NL] ++ text context.

Definition context_instruction : jsstring :=
  lit "Use the reference material below to answer the user. If none of it is relevant, answer based on your general knowledge."
  ++ [NL; NL].

Definition no_context : list jsval * list ContextSnippet := ([], []).

(** [queryResult?.matches ?? []] *)
Definition query_matches (queryResult : option VectorizeQueryResponse) : list jsval :=
  match queryResult with
  | Some r => match matches r with Some l => l | None => [] end
  | None => []
  end.

Definition buildRetrievalContext (env : Env) (question : jsstring)
    : result (list jsval * list ContextSnippet) :=
  let trimmed := trim question in
  if negb (nonempty trimmed) then Ok no_context
  else
    try_catch
      (rbind (embedText env trimmed) (fun embedding =>
         match embedding with
         | None => Ok no_context
         | Some vector =>
             rbind (VECTORIZE_query env vector MAX_CONTEXT_CHUNKS) (fun queryResult =>
               let contexts := collect_contexts (query_matches queryResult) [] in
               if length contexts =? 0 then Ok no_context
               else
                 let contextBlock :=
                   join [NL; NL] (imap (fun i c => render_context c i) contexts) in
                 Ok ([ChatMessage "system" (context_instruction ++ contextBlock)],
                     contexts))
         end))
      (fun _ => Ok no_context).

(** *** The response stream *)

(** [JSON.stringify] of one entry of the [context] array: the properties
    that are [undefined] are left out. *)
Definition json_key (name : string) : jsstring :=
  [34%N] ++ lit name ++ [34%N] ++ lit ":".

Definition snippet_json (s : ContextSnippet) : jsstring :=
  let props :=
    match title s with
    | Some t => [json_key "title" ++ JSON_stringify_string t]
    | None => []
    end
    ++ [json_key "text" ++ JSON_stringify_string (text s)]
    ++ match index s with
       | Some n => [json_key "index" ++ JSON_stringify_number n]
       | None => []
       end
    ++ match score s with
       | Some n => [json_key "score" ++ JSON_stringify_number n]
       | None => []
       end in
  lit "{" ++ join (lit ",") props ++ lit "}".

(** [JSON.stringify({ context: snippets.map(...) })] *)
Definition context_payload (snippets : list ContextSnippet) : jsstring :=
  lit "{" ++ json_key "context" ++ lit "["
  ++ join (lit ",") (map snippet_json snippets) ++ lit "]}".

(** The framing line: [encoder.encode(`${payload}\n`)]. *)
Definition context_frame (snippets : list ContextSnippet) : list N :=
  TextEncoder_encode (context_payload snippets ++ [NL]).

(** [if (value)]: a [Uint8Array] is an object, hence truthy even when
    empty. *)
Definition chunk_truthy (value : list N) : bool := true.

(** The [while (true)] loop in [start(controller)]: every chunk read from
    [source] is enqueued on [queue] until the source is done. *)
Fixpoint pump (source : list (list N)) (queue : list (list N)) : list (list N) :=
  match source with
  | [] => queue
  | value :: rest =>
      pump rest (if chunk_truthy value then queue ++ [value] else queue)
  end.

Definition prependContextStream (stream : ReadableStream)
    (snippets : list ContextSnippet) : ReadableStream :=
  match snippets with
  | [] => stream
  | _ :: _ =>
      (* a failed read is caught and logged; [finally] closes the
         controller in either case *)
      {| chunks := pump (chunks stream) [context_frame snippets];
         ending := Closed |}
  end.

(** *** Recording the assistant's reply *)

(** [JSON.parse(text)]; [None] when it throws. *)
Class JsonParser : Type := {
  JSON_parse : jsstring -> option jsval
}.
Context {J : JsonParser}.

(** [buffered.split("\n")] followed by [lines.pop()]: the complete lines
    and the unfinished last one. *)
Fixpoint split_lines (s : jsstring) : list jsstring * jsstring :=
  match s with
  | [] => ([], [])
  | c :: rest =>
      let '(lines, last) := split_lines rest in
      if N.eqb c NL then ([] :: lines, last)
      else
        match lines with
        | [] => ([], c :: last)
        | l :: lines' => ((c :: l) :: lines', last)
        end
  end.

(** What one line adds to [fullResponse]: [parsed.response] when the
    line parses and has a string there, nothing otherwise (a failure is
    caught and logged). *)
Definition response_fragment (line : jsstring) : jsstring :=
  match JSON_parse line with
  | Some parsed =>
      match get parsed "response" with
      | JStr fragment => fragment
      | _ => []
      end
  | None => []
  end.

Definition consume_lines (lines : list jsstring) (fullResponse : jsstring) : jsstring :=
  fold_left
    (fun acc line =>
       let trimmed := trim line in
       if negb (nonempty trimmed) then acc
       else acc ++ response_fragment trimmed)
    lines fullResponse.

(** The [while (true)] loop of [captureAssistantResponse]; [carry] is the
    state of the streaming decoder. *)
Fixpoint capture_loop (source : list (list N)) (carry : list N)
    (buffered fullResponse : jsstring) : jsstring * jsstring :=
  match source with
  | [] => (buffered, fullResponse)
  | value :: rest =>
      let '(decoded, carry') := TextDecoder_decode carry value in
      let '(lines, buffered') := split_lines (buffered ++ decoded) in
      capture_loop rest carry' buffered' (consume_lines lines fullResponse)
  end.

Definition captureAssistantResponse (stream : ReadableStream)
    (stub : jsstring) (model : jsstring) : M World unit :=
  let '(buffered, collected) := capture_loop (chunks stream) [] [] [] in
  let fullResponse :=
    match ending stream with
    | Closed =>
        if nonempty buffered then collected ++ response_fragment buffered
        else collected
    | Errored => collected
    end in
  if negb (nonempty fullResponse) then ret tt
  else appendMessage stub (ChatMessage "assistant" fullResponse) model.

(** *** Text extraction *)

Record ExtractedDocument : Type := {
  ex_text : jsstring;
  ex_sourceType : jsstring;
  ex_originalName : option jsstring
}.

Definition is_no_such_model (error : exn) : bool :=
  match error with
  | ErrorObject message => no_such_model_test message
  | ThrownValue => false
  end.

Definition string_items (v : jsval) : list jsstring :=
  match v with JStr t => [t] | _ => [] end.

Definition extractTextFromPdf (file : File) (env : Env) : result jsstring :=
  try_catch
    (rbind (AI_run_pdf env (file_bytes file)) (fun result =>
       let segments :=
         string_items (get result "text")
         ++ match get result "pages" with
            | JArr pages => flat_map (fun page => string_items (get page "text")) pages
            | _ => []
            end in
       let combined := trim (join [NL; NL] segments) in
       if nonempty combined then Ok combined
       else Throw (ErrorObject (lit "PDF extraction returned empty content"))))
    (fun error =>
       if is_no_such_model error then
         Throw (ErrorObject
                  (lit "PDF extraction requires enabling @cf/pdf/extract-text in Workers AI."))
       else Throw (ErrorObject (lit "Unable to extract text from the PDF file."))).

Definition ocr_prompt : jsstring :=
  lit "Extract the textual content from this image. If there is no readable text, reply with a short description.".

(** [a ?? b] *)
Definition nullish_or (a b : jsval) : jsval :=
  match a with JUndefined | JNull => b | _ => a end.

Definition extractTextFromImage (file : File) (env : Env) : result jsstring :=
  try_catch
    (let llava := includes OCR_MODEL_ID (lit "llava") in
     rbind (AI_run_ocr env (file_bytes file)
              (if llava then Some ocr_prompt else None) (negb llava))
       (fun result =>
       let textCandidates :=
         match result with
         | JStr t => [t]
         | _ =>
             if truthy result then
               string_items (get result "text")
               ++ string_items (nullish_or (get result "description") (get result "caption"))
               ++ string_items (get result "output")
               ++ string_items (get (get result "data") "text")
             else []
         end in
       let combined :=
         join [NL] (List.filter (fun t => nonempty t) (map trim textCandidates)) in
       if nonempty combined then Ok combined
       else Throw (ErrorObject (lit "Image model returned empty content"))))
    (fun error =>
       if is_no_such_model error then
         Throw (ErrorObject
                  (lit "Image-to-text model " ++ OCR_MODEL_ID
                   ++ lit " is not available on this account. Choose another model from Workers AI Models or adjust the config."))
       else
         Throw (ErrorObject
                  (lit "Unable to extract text from the image with the selected model."))).

(** The three tests of [extractTextFromUpload], on the lower-cased name
    and MIME type. *)
Definition is_text_like (lowerName mime : jsstring) : bool :=
  startsWith mime (lit "text/")
  || endsWith lowerName (lit ".txt")
  || endsWith lowerName (lit ".md")
  || endsWith lowerName (lit ".json")
  || endsWith lowerName (lit ".csv").

Definition is_pdf (lowerName mime : jsstring) : bool :=
  str_eqb mime (lit "application/pdf") || endsWith lowerName (lit ".pdf").

Definition is_image (mime : jsstring) : bool :=
  startsWith mime (lit "image/").

Definition unsupported_message (lowerName mime : jsstring) : jsstring :=
  lit "Unsupported file type " ++ [34%N]
  ++ (if nonempty mime then mime else lowerName) ++ [34%N].

Definition extractTextFromUpload (file : File) (env : Env) : result ExtractedDocument :=
  let name := file_name file in
  let lowerName := toLowerCase name in
  let mime := toLowerCase (file_type file) in
  if is_text_like lowerName mime then
    Ok {| ex_text := file_text file; ex_sourceType := lit "text-file";
          ex_originalName := Some name |}
  else if is_pdf lowerName mime then
    rbind (extractTextFromPdf file env) (fun rawText =>
      Ok {| ex_text := rawText; ex_sourceType := lit "pdf";
            ex_originalName := Some name |})
  else if is_image mime then
    rbind (extractTextFromImage file env) (fun rawText =>
      Ok {| ex_text := rawText; ex_sourceType := lit "image";
            ex_originalName := Some name |})
  else Throw (ErrorObject (unsupported_message lowerName mime)).

(** *** [POST /api/docs] *)

(** [handleDocumentUpload] from the point where the title, the raw text,
    the source type and the file name are known (the statements after the
    [if (contentType.includes(...)) ... else ...]). *)
Definition indexDocument (request : Request) (env : Env)
    (docTitle rawText sourceType0 : jsstring) (originalFileName : option jsstring)
    : M World Response :=
  let sourceType :=
    match header_x_source_type request with
    | Some h => h
    | None => sourceType0
    end in
  let cleaned := trim (crlf_to_lf rawText) in
  if negb (nonempty cleaned) then
    ret (jsonResponse (error_payload (lit "Document content is required")) 400)
  else
    let limited := truncate DOCUMENT_MAX_CHARS cleaned in
    let chunks :=
      List.filter (fun chunk => 0 <? length chunk) (map trim (Chunker.chunkText limited)) in
    if length chunks =? 0 then
      ret (jsonResponse (error_payload (lit "No textual content found to index")) 400)
    else
      docId <- crypto_randomUUID ;;
      upserts <- generateEmbeddingsForChunks env chunks EMBEDDING_MAX_CHARS docId
                   {| doc_title := docTitle; doc_sourceType := sourceType;
                      doc_originalFileName := originalFileName |} ;;
      vectorize_upsert env upserts ;;;
      ret (jsonResponse
             (JObj [(lit "docId", JStr docId);
                    (lit "title", JStr docTitle);
                    (lit "chunks", JNum (number_of_nat (length upserts)));
                    (lit "sourceType", JStr sourceType)])
             200).

(** The [catch] clause of [handleDocumentUpload]. *)
Definition upload_failure (error : exn) : M World Response :=
  let message :=
    match error with
    | ErrorObject m => if nonempty m then m else lit "Failed to index document"
    | ThrownValue => lit "Failed to index document"
    end in
  ret (jsonResponse (error_payload message) 500).

(** [typeof field === "string" && field.trim()] *)
Definition filled_string (field : option FormEntry) : option jsstring :=
  match field with
  | Some (FormString s) => if nonempty (trim s) then Some s else None
  | _ => None
  end.

Definition handleDocumentUpload (request : Request) (env : Env) : M World Response :=
  catch
    (let contentType :=
       match header_content_type request with Some c => c | None => [] end in
     let title0 := lit "Untitled document" in
     if includes contentType (lit "multipart/form-data") then
       formData <- lift (request_formData request) ;;
       let title1 :=
         match filled_string (form_title formData) with
         | Some t => trim t
         | None => title0
         end in
       let rawText1 :=
         match filled_string (form_text formData) with
         | Some t => t
         | None => []
         end in
       match form_file formData with
       | Some (FormFile fileField) =>
           extraction <- lift (extractTextFromUpload fileField env) ;;
           let originalFileName :=
             match ex_originalName extraction with
             | Some n => n
             | None => file_name fileField
             end in
           let title2 :=
             if nonempty originalFileName then originalFileName else title1 in
           let combinedContent :=
             join [NL; NL]
               (List.filter (fun value => nonempty (trim value))
                  [ex_text extraction; rawText1]) in
           indexDocument request env title2 combinedContent
             (ex_sourceType extraction) (Some originalFileName)
       | _ => indexDocument request env title1 rawText1 (lit "manual") None
       end
     else
       let body := safeJson request in
       if negb (truthy body) then
         ret (jsonResponse (error_payload (lit "Invalid document payload")) 400)
       else
         let title1 :=
           match trimmed_string (get body "title") with
           | Some t => t
           | None => title0
           end in
         let rawText1 :=
           match get body "text" with
           | JStr t => if nonempty (trim t) then t else []
           | _ => []
           end in
         indexDocument request env title1 rawText1 (lit "manual") None)
    upload_failure.

(** *** [POST /api/chat] *)

(** The promises handed to [ctx.waitUntil]. *)
Definition ExecutionContext : Type := list (M World unit).

Definition string_field (body : jsval) (name : string) : jsstring :=
  match get body name with JStr s => trim s | _ => [] end.

(** The answer of the [catch] clause of [handleChatRequest]. *)
Definition chat_failure : Response :=
  {| status := 500; statusText := [];
     headers := [(lit "content-type", lit "application/json")];
     body := JsonBody (error_payload (lit "Failed to process request")) |}.

Definition empty_model_response : Response :=
  jsonResponse (error_payload (lit "Model returned empty response")) 500.

Definition handleChatRequest (request : Request) (env : Env)
    : M World (Response * ExecutionContext) :=
  catch
    (let body := safeJson request in
     if negb (truthy body) then
       ret (jsonResponse (error_payload (lit "Invalid JSON payload")) 400, [])
     else
       let sessionId := string_field body "sessionId" in
       let message := string_field body "message" in
       if negb (nonempty sessionId) then
         ret (jsonResponse (error_payload (lit "Missing sessionId")) 400, [])
       else if negb (nonempty message) then
         ret (jsonResponse (error_payload (lit "Message content is required")) 400, [])
       else
         let stub := sessionId in
         historyRecord <- fetchSessionHistory stub ;;
         let sessionModelId :=
           selectModelId (get body "modelId") (h_modelId historyRecord)
             DEFAULT_MODEL_ID in
         let userMessage := ChatMessage "user" message in
         appendMessage stub userMessage sessionModelId ;;;
         retrieved <- lift (buildRetrievalContext env message) ;;
         let '(promptMessages, snippets) := retrieved in
         let messages :=
           [ChatMessage "system" SYSTEM_PROMPT] ++ promptMessages
           ++ h_messages historyRecord ++ [userMessage] in
         response <- lift (AI_run_chat env sessionModelId messages) ;;
         match raw_body response with
         | None => ret (empty_model_response, [])
         | Some modelStream =>
             let '(clientStream, storageStream) := tee modelStream in
             (* ctx.waitUntil(...) *)
             let ctx := [captureAssistantResponse storageStream stub sessionModelId] in
             let outboundStream := prependContextStream clientStream snippets in
             if Response_accepts (raw_status response) (raw_statusText response) then
               ret ({| status := raw_status response;
                       statusText := raw_statusText response;
                       headers := raw_headers response;
                       body := StreamBody outboundStream |}, ctx)
             else
               (* [new Response] throws: the [catch] clause answers, and
                  the promise handed to [ctx.waitUntil] stays registered *)
               ret (chat_failure, ctx)
         end)
    (fun _ => ret (chat_failure, [])).

(** *** The router *)

Definition fetch (request : Request) (env : Env)
    : M World (Response * ExecutionContext) :=
  let path := pathname request in
  if str_eqb path (lit "/") || negb (startsWith path (lit "/api/")) then
    response <- lift (ASSETS_fetch env request) ;;
    ret (response, [])
  else if str_eqb path (lit "/api/history") then
    if negb (str_eqb (method request) (lit "GET")) then
      ret (textResponse "Method not allowed" 405, [])
    else
      match query_sessionId request with
      | Some sessionId =>
          if negb (nonempty sessionId) then
            ret (jsonResponse (error_payload (lit "Missing sessionId")) 400, [])
          else
            catch
              (history <- fetchSessionHistory sessionId ;;
               ret (jsonResponse (history_value history) 200, []))
              (fun _ =>
                 ret (jsonResponse (error_payload (lit "Unable to load history")) 500, []))
      | None => ret (jsonResponse (error_payload (lit "Missing sessionId")) 400, [])
      end
  else if str_eqb path (lit "/api/docs") then
    if str_eqb (method request) (lit "POST") then
      response <- handleDocumentUpload request env ;;
      ret (response, [])
    else ret (textResponse "Method not allowed" 405, [])
  else if str_eqb path (lit "/api/chat") then
    if str_eqb (method request) (lit "POST") then handleChatRequest request env
    else ret (textResponse "Method not allowed" 405, [])
  else ret (textResponse "Not found" 404, []).

(** Running a computation from a world: its outcome and the world it
    leaves. *)
Definition run {A} (m : M World A) (w : World) : result A * World := m w.

(** The background work registered with [ctx.waitUntil], run to its
    end; a rejection there is not observed by anyone. *)
Fixpoint drain (ctx : ExecutionContext) (w : World) : World :=
  match ctx with
  | [] => w
  | task :: rest => drain rest (snd (task w))
  end.

(** *** Notions used to state the properties *)

(** The messages a read of the session would report. *)
Definition session_messages (w : World) (name : jsstring) : list jsval :=
  SessionDurableObject.stored_messages (session_state w name).

(** The model id a read of the session would report. *)
Definition session_modelId (w : World) (name : jsstring) : option jsstring :=
  match fst (SessionDurableObject.getSessionRecord (session_state w name)) with
  | Ok session => SessionDurableObject.modelId session
  | Throw _ => None
  end.

(** The text [captureAssistantResponse] collects from a stream: its
    [fullResponse] when the reading is over. *)
Definition recorded_reply (stream : ReadableStream) : jsstring :=
  let '(buffered, collected) := capture_loop (chunks stream) [] [] [] in
  match ending stream with
  | Closed =>
      if nonempty buffered then collected ++ response_fragment buffered
      else collected
  | Errored => collected
  end.

(** [GET /api/history?sessionId=...] *)
Definition history_request (sessionId : jsstring) : Request :=
  {| method := lit "GET"; pathname := lit "/api/history";
     query_sessionId := Some sessionId;
     header_content_type := None; header_x_source_type := None;
     request_json := None; request_formData := Throw ThrownValue |}.

(** [POST /api/chat] with a JSON body. *)
Definition chat_request (payload : jsval) : Request :=
  {| method := lit "POST"; pathname := lit "/api/chat";
     query_sessionId := None;
     header_content_type := Some (lit "application/json");
     header_x_source_type := None;
     request_json := Some payload; request_formData := Throw ThrownValue |}.

(** [POST /api/docs] with a JSON body. *)
Definition json_upload (payload : jsval) : Request :=
  {| method := lit "POST"; pathname := lit "/api/docs";
     query_sessionId := None;
     header_content_type := Some (lit "application/json");
     header_x_source_type := None;
     request_json := Some payload; request_formData := Throw ThrownValue |}.

(** The text of the body a handler answered with. *)
Definition payload_text (r : result (Response * ExecutionContext)) : jsstring :=
  match r with
  | Ok (response, _) => body_text (body response)
  | Throw _ => []
  end.

(** A whole chat turn: the handler, then the background work it
    registered. *)
Definition chat_turn (request : Request) (env : Env) (w : World)
    : result (Response * ExecutionContext) * World :=
  let '(r, w1) := handleChatRequest request env w in
  (r, match r with Ok (_, ctx) => drain ctx w1 | Throw _ => w1 end).





(** No newline among the bytes or code units. *)
Definition one_line (t : list N) : bool :=
  forallb (fun c => negb (N.eqb c NL)) t.


(** The embedding of the chunk at position [i] is a non-empty array. *)
Definition has_embedding (embeddingData : list (option EmbeddingItem)) (i : nat) : bool :=
  match embeddingData !! i with
  | Some (Some item) =>
      match embedding item with Some (_ :: _) => true | _ => false end
  | _ => false
  end.

Definition chunk_indices (upserts : list VectorRecord) : list nat :=
  map (fun r => md_chunkIndex (metadata r)) upserts.

(** A match from which [buildRetrievalContext] takes a snippet. *)
Definition usable_match (m : jsval) : bool :=
  truthy m
  && match get (get m "metadata") "text" with
     | JStr t => nonempty (trim t)
     | _ => false
     end.

(** The chunks [handleDocumentUpload] derives from the raw text of a
    document. *)
Definition document_chunks (rawText : jsstring) : list jsstring :=
  List.filter (fun chunk => 0 <? length chunk)
    (map trim (Chunker.chunkText (truncate DOCUMENT_MAX_CHARS (trim (crlf_to_lf rawText))))).

End Defs.
End Worker.

(** ** The session path when the platform rejects a call

    In the two modules above an awaited call to the storage of the
    Durable Object or to its stub completes.  Here each of these calls may
    reject, as a schedule decides.  The functions are those of the source
    once more, written with the calls that may reject; a run in which no
    call is rejected is a run of the functions above. *)

(** What the platform does with the awaited calls to come, in order:
    [None] lets a call complete, [Some e] rejects it with [e].  The calls
    beyond the end of the list complete. *)
Definition Schedule : Type := list (option exn).

(** A step that is not a call to the platform. *)
Definition locally {S A : Type} (step : M S A) : M (S * Schedule) A :=
  fun state =>
    let '(r, s') := step (fst state) in (r, (s', snd state)).

(** [await call]: the platform rejects the call, or lets it run. *)
Definition await {S A : Type} (call : M (S * Schedule) A) : M (S * Schedule) A :=
  fun state =>
    match snd state with
    | Some e :: rest => (Throw e, (fst state, rest))
    | None :: rest => call (fst state, rest)
    | [] => call (fst state, [])
    end.

Definition attempt {S A : Type} (call : M S A) : M (S * Schedule) A :=
  await (locally call).

(** A run under a schedule keeps to [reliable]: either no call is
    rejected and the run is the one of [reliable], leaving a part of the
    schedule, or the run throws a rejection of the schedule, and the state
    it leaves is related by [R] to the one it started from. *)
Definition follows {S A : Type} (R : S -> S -> Prop)
    (faulty : M (S * Schedule) A) (reliable : M S A) : Prop :=
  forall (s : S) (pending : Schedule),
    (exists rest,
       faulty (s, pending) = (fst (reliable s), (snd (reliable s), rest)) /\
       incl rest pending) \/
    (exists e s' rest,
       faulty (s, pending) = (Throw e, (s', rest)) /\
       In (Some e) pending /\ R s s').

(** A computation that makes no call to the platform. *)
Definition quiet {S A : Type} (k : M (S * Schedule) A) (k0 : M S A) : Prop :=
  forall (s : S) (pending : Schedule),
    k (s, pending) = (fst (k0 s), (snd (k0 s), pending)).

Module UnreliableSession.
Section Defs.
Context {P : Platform}.
Import SessionDurableObject.

(** [await this.state.storage.get(key)] *)
Definition storage_get (key : string) : M (State * Schedule) jsval :=
  attempt (SessionDurableObject.storage_get key).

(** [await this.state.storage.put(key, value)] *)
Definition storage_put (key : string) (value : jsval) : M (State * Schedule) unit :=
  attempt (SessionDurableObject.storage_put key value).

(** [await this.state.storage.delete(key)] *)
Definition storage_delete (key : string) : M (State * Schedule) unit :=
  attempt (SessionDurableObject.storage_delete key).

Definition getSessionRecord : M (State * Schedule) StoredSessionRecord :=
  stored0 <- storage_get SESSION_STORAGE_KEY ;;
  let stored0 := or_null stored0 in
  stored <-
    (if negb (truthy stored0) then
       legacy <- storage_get "messages" ;;
       let legacyMessages := or_null legacy in
       if truthy legacyMessages then
         storage_delete "messages" ;;; ret legacyMessages
       else ret stored0
     else ret stored0) ;;
  locally (interpret_stored stored).

Definition persistMessage (message : jsval) (newModelId : option jsstring)
    : M (State * Schedule) unit :=
  session <- getSessionRecord ;;
  let pushed := messages session ++ [message] in
  let kept := slice_last MAX_HISTORY pushed in
  let model :=
    match newModelId with
    | Some m => if nonempty m then Some m else modelId session
    | None => modelId session
    end in
  now <- locally new_Date_toISOString ;;
  let created :=
    if negb (truthy (createdAt session)) then JStr now
    else createdAt session in
  storage_put SESSION_STORAGE_KEY
    (record_value {| messages := kept; modelId := model;
                     createdAt := created; updatedAt := JStr now |}).

(** [fetch] has no [try]: a rejected storage call rejects the request. *)
Definition fetch (request : Request) : M (State * Schedule) Response :=
  if str_eqb (method request) (lit "GET")
     && str_eqb (pathname request) (lit "/messages") then
    session <- getSessionRecord ;;
    ret {| status := 200; statusText := []; headers := JSON_HEADERS;
           body := JsonBody (record_value session) |}
  else if str_eqb (method request) (lit "POST")
          && str_eqb (pathname request) (lit "/messages") then
    let body := safeJson request in
    let message := get body "message" in
    let newModelId := trimmed_string (get body "modelId") in
    if negb (valid_message message) then ret invalid_message_response
    else
      persistMessage message newModelId ;;;
      ret {| status := 204; statusText := []; headers := []; body := NoBody |}
  else ret (textResponse "Not found" 404).

(** The request reads or writes the storage: it is [GET /messages], or a
    [POST /messages] with a message that passes the test. *)
Definition uses_storage (request : Request) : bool :=
  (str_eqb (method request) (lit "GET")
   && str_eqb (pathname request) (lit "/messages"))
  || match accepted_message request with Some _ => true | None => false end.

(** The record under the session key is the same in both states. *)
Definition record_kept (st st' : State) : Prop :=
  storage st' !! SESSION_STORAGE_KEY = storage st !! SESSION_STORAGE_KEY.

End Defs.
End UnreliableSession.

Module UnreliableWorker.
Section Defs.
Context {P : Platform} {J : Worker.JsonParser}.
Import Worker.

(** [await stub.fetch(request)]: the call itself may be rejected; when it
    is delivered, the object serves it, and what the object throws is the
    rejection of the call.  What the object wrote before it threw stays
    written. *)
Definition stub_fetch (name : jsstring) (request : Request)
    : M (World * Schedule) Response :=
  await (fun state =>
    let '(r, (st', rest)) :=
      UnreliableSession.fetch request (session_state (fst state) name, snd state) in
    (r, (commit (fst state) name st', rest))).

Definition appendMessage (stub : jsstring) (message : jsval) (model : jsstring)
    : M (World * Schedule) unit :=
  response <- stub_fetch stub
    (inner_request "POST" "/messages"
       (Some (JObj [(lit "message", message); (lit "modelId", JStr model)]))) ;;
  if negb (ok response) then
    throw (ErrorObject (lit "Failed to store message: " ++ nat_to_string (status response)))
  else ret tt.

Definition fetchSessionHistory (stub : jsstring) : M (World * Schedule) History :=
  response <- stub_fetch stub (inner_request "GET" "/messages" None) ;;
  if negb (ok response) then
    throw (ErrorObject (lit "Failed to read session history: " ++ nat_to_string (status response)))
  else
    data <- lift (response_json response) ;;
    let messages := match get data "messages" with JArr l => l | _ => [] end in
    ret {| h_messages := slice_last MAX_HISTORY messages;
           h_modelId := as_string (get data "modelId");
           h_createdAt := get data "createdAt";
           h_updatedAt := get data "updatedAt" |}.

(** The [await appendMessage(...)] that ends the function stands after
    its [try]: what it throws leaves the function. *)
Definition captureAssistantResponse (stream : ReadableStream)
    (stub : jsstring) (model : jsstring) : M (World * Schedule) unit :=
  let '(buffered, collected) := capture_loop (chunks stream) [] [] [] in
  let fullResponse :=
    match ending stream with
    | Closed =>
        if nonempty buffered then collected ++ response_fragment buffered
        else collected
    | Errored => collected
    end in
  if negb (nonempty fullResponse) then ret tt
  else appendMessage stub (ChatMessage "assistant" fullResponse) model.

(** The promises handed to [ctx.waitUntil]. *)
Definition ExecutionContext : Type := list (M (World * Schedule) unit).

Definition handleChatRequest (request : Request) (env : Env)
    : M (World * Schedule) (Response * ExecutionContext) :=
  catch
    (let body := safeJson request in
     if negb (truthy body) then
       ret (jsonResponse (error_payload (lit "Invalid JSON payload")) 400, [])
     else
       let sessionId := string_field body "sessionId" in
       let message := string_field body "message" in
       if negb (nonempty sessionId) then
         ret (jsonResponse (error_payload (lit "Missing sessionId")) 400, [])
       else if negb (nonempty message) then
         ret (jsonResponse (error_payload (lit "Message content is required")) 400, [])
       else
         let stub := sessionId in
         historyRecord <- fetchSessionHistory stub ;;
         let sessionModelId :=
           selectModelId (get body "modelId") (h_modelId historyRecord)
             DEFAULT_MODEL_ID in
         let userMessage := ChatMessage "user" message in
         appendMessage stub userMessage sessionModelId ;;;
         retrieved <- lift (buildRetrievalContext env message) ;;
         let '(promptMessages, snippets) := retrieved in
         let messages :=
           [ChatMessage "system" SYSTEM_PROMPT] ++ promptMessages
           ++ h_messages historyRecord ++ [userMessage] in
         response <- lift (AI_run_chat env sessionModelId messages) ;;
         match raw_body response with
         | None => ret (empty_model_response, [])
         | Some modelStream =>
             let '(clientStream, storageStream) := tee modelStream in
             (* ctx.waitUntil(...) *)
             let ctx := [captureAssistantResponse storageStream stub sessionModelId] in
             let outboundStream := prependContextStream clientStream snippets in
             if Response_accepts (raw_status response) (raw_statusText response) then
               ret ({| status := raw_status response;
                       statusText := raw_statusText response;
                       headers := raw_headers response;
                       body := StreamBody outboundStream |}, ctx)
             else
               (* [new Response] throws: the [catch] clause answers, and
                  the promise handed to [ctx.waitUntil] stays registered *)
               ret (chat_failure, ctx)
         end)
    (fun _ => ret (chat_failure, [])).

Definition fetch (request : Request) (env : Env)
    : M (World * Schedule) (Response * ExecutionContext) :=
  let path := pathname request in
  if str_eqb path (lit "/") || negb (startsWith path (lit "/api/")) then
    response <- lift (ASSETS_fetch env request) ;;
    ret (response, [])
  else if str_eqb path (lit "/api/history") then
    if negb (str_eqb (method request) (lit "GET")) then
      ret (textResponse "Method not allowed" 405, [])
    else
      match query_sessionId request with
      | Some sessionId =>
          if negb (nonempty sessionId) then
            ret (jsonResponse (error_payload (lit "Missing sessionId")) 400, [])
          else
            catch
              (history <- fetchSessionHistory sessionId ;;
               ret (jsonResponse (history_value history) 200, []))
              (fun _ =>
                 ret (jsonResponse (error_payload (lit "Unable to load history")) 500, []))
      | None => ret (jsonResponse (error_payload (lit "Missing sessionId")) 400, [])
      end
  else if str_eqb path (lit "/api/docs") then
    if str_eqb (method request) (lit "POST") then
      response <- locally (handleDocumentUpload request env) ;;
      ret (response, [])
    else ret (textResponse "Method not allowed" 405, [])
  else if str_eqb path (lit "/api/chat") then
    if str_eqb (method request) (lit "POST") then handleChatRequest request env
    else ret (textResponse "Method not allowed" 405, [])
  else ret (textResponse "Not found" 404, []).

(** What a run on the session [name] leaves alone when it fails: the
    record of the session, the other sessions, the vector index and the
    identifier source. *)
Definition session_kept (name : jsstring) (w w' : World) : Prop :=
  session_storage w' name !! SessionDurableObject.SESSION_STORAGE_KEY
  = session_storage w name !! SessionDurableObject.SESSION_STORAGE_KEY /\
  upsert_calls w' = upsert_calls w /\
  uuid_calls w' = uuid_calls w /\
  (forall other, other <> name ->
     session_storage w' other = session_storage w other).

End Defs.
End UnreliableWorker.

(** ** A concrete runtime and concrete inputs

    Used to run the handlers on explicit requests.  Numbers are integers
    here, lower-casing and decoding cover ASCII, and the clock advances by
    one millisecond at each reading. *)

Module Example.

Definition ascii_lower (c : N) : N :=
  if (N.leb 65 c && N.leb c 90)%N then (c + 32)%N else c.

Definition Z_to_string (z : Z) : jsstring :=
  if (z <? 0)%Z then lit "-" ++ nat_to_string (Z.to_nat (- z))
  else nat_to_string (Z.to_nat z).

Definition platform : Platform := {|
  number := Z;
  number_of_nat := Z.of_nat;
  number_truthy := fun z => negb (z =? 0)%Z;
  JSON_stringify_number := Z_to_string;
  number_plus1_string := fun z => Z_to_string (z + 1);
  toLowerCase := map ascii_lower;
  no_such_model_test := fun s => includes (map ascii_lower s) (lit "no such model");
  Date_toISOString := fun k => lit "2024-01-01T00:00:00.00" ++ nat_to_string k ++ lit "Z";
  randomUUID := fun k => lit "doc-" ++ nat_to_string k;
  TextDecoder_decode := fun carry value => (carry ++ value, [])
|}.

(** The parser is not needed to run the examples: no line parses. *)
Definition parser : @Worker.JsonParser platform :=
  @Worker.Build_JsonParser platform (fun _ => None).

(** A deployment whose embedding model answers every text with a
    one-dimensional vector, whose index is empty and whose chat model
    streams one fragment. *)
Definition model_stream : ReadableStream :=
  {| chunks := [TextEncoder_encode (lit "{")]; ending := Closed |}.

Definition item (v : list Z) : option (@Worker.EmbeddingItem platform) :=
  Some (@Worker.Build_EmbeddingItem platform (Some v)).

Definition embedding_response (items : list (option (@Worker.EmbeddingItem platform)))
    : option (@Worker.EmbeddingResponse platform) :=
  Some (@Worker.Build_EmbeddingResponse platform (Some items)).

Definition env : @Worker.Env platform := {|
  Worker.AI_run_embedding := fun texts =>
    Ok (embedding_response (map (fun _ => item [1%Z]) texts));
  Worker.AI_run_chat := fun _ _ =>
    Ok {| Worker.raw_body := Some model_stream; Worker.raw_headers := [];
          Worker.raw_status := 200; Worker.raw_statusText := lit "OK" |};
  Worker.AI_run_pdf := fun _ => Throw ThrownValue;
  Worker.AI_run_ocr := fun _ _ _ => Throw ThrownValue;
  Worker.VECTORIZE_query := fun _ _ =>
    Ok (Some (@Worker.Build_VectorizeQueryResponse platform (Some [])));
  Worker.VECTORIZE_upsert := fun _ => Ok tt;
  Worker.ASSETS_fetch := fun _ => Ok (textResponse "asset" 200)
|}.

(** The same deployment with an embedding model that returns an empty
    vector for the first text of a batch. *)
Definition env_first_embedding_empty : @Worker.Env platform := {|
  Worker.AI_run_embedding := fun texts =>
    Ok (embedding_response
          (imap (fun i _ => item (if i =? 0 then [] else [1%Z])) texts));
  Worker.AI_run_chat := Worker.AI_run_chat env;
  Worker.AI_run_pdf := Worker.AI_run_pdf env;
  Worker.AI_run_ocr := Worker.AI_run_ocr env;
  Worker.VECTORIZE_query := Worker.VECTORIZE_query env;
  Worker.VECTORIZE_upsert := Worker.VECTORIZE_upsert env;
  Worker.ASSETS_fetch := Worker.ASSETS_fetch env
|}.

(** The same deployment with the embedding model out of service. *)
Definition env_embedding_down : @Worker.Env platform := {|
  Worker.AI_run_embedding := fun _ => Throw (ErrorObject (lit "model unavailable"));
  Worker.AI_run_chat := Worker.AI_run_chat env;
  Worker.AI_run_pdf := Worker.AI_run_pdf env;
  Worker.AI_run_ocr := Worker.AI_run_ocr env;
  Worker.VECTORIZE_query := Worker.VECTORIZE_query env;
  Worker.VECTORIZE_upsert := Worker.VECTORIZE_upsert env;
  Worker.ASSETS_fetch := Worker.ASSETS_fetch env
|}.

(** A snippet as retrieval returns it: first chunk of the document
    [notes], with its score. *)
Definition sample_snippet : @Worker.ContextSnippet platform :=
  @Worker.Build_ContextSnippet platform
    (Some (lit "notes")) (lit "alpha") (Some 0%Z) (Some 1%Z).

Definition empty_world : @Worker.World platform :=
  {| Worker.sessions := ∅; Worker.upsert_calls := [];
     Worker.clock_reads := 0; Worker.uuid_calls := 0 |}.

(** An executable uploaded through the multipart form. *)
Definition exe_file : File :=
  {| file_name := lit "Setup.EXE"; file_type := lit "application/x-msdownload";
     file_text := lit "MZ"; file_bytes := [77; 90]%N |}.

Definition exe_upload : @Request platform :=
  {| method := lit "POST"; pathname := lit "/api/docs"; query_sessionId := None;
     header_content_type := Some (lit "multipart/form-data; boundary=x");
     header_x_source_type := None; request_json := None;
     request_formData :=
       Ok {| form_title := None; form_text := None;
             form_file := Some (FormFile exe_file) |} |}.

(** A document of a thousand characters, which makes two chunks. *)
Definition notes_upload : @Request platform :=
  Worker.json_upload
    (JObj [(lit "title", JStr (lit "notes"));
           (lit "text", JStr (repeat 97%N 1000))]).

(** [GET /api/history?sessionId=s1] *)
Definition history_request : @Request platform := Worker.history_request (lit "s1").

(** A text of [chunk_reach + 1] characters: the letter [a] repeated, then
    one [b]. *)
Definition long_text : jsstring :=
  repeat 97%N Chunker.chunk_reach ++ [98%N].

(** The line the chat model of the example streams. *)
Definition hello_value : @jsval platform :=
  JObj [(lit "response", JStr (lit "Hello"))].

Definition hello_line : jsstring :=
  match JSON_stringify hello_value with Some t => t | None => [] end.

Definition hello_stream : ReadableStream :=
  {| chunks := [TextEncoder_encode (hello_line ++ [NL])]; ending := Closed |}.

Definition hello_parser : @Worker.JsonParser platform :=
  @Worker.Build_JsonParser platform
    (fun line => if str_eqb line hello_line then Some hello_value else None).

Definition hello_env : @Worker.Env platform := {|
  Worker.AI_run_embedding := Worker.AI_run_embedding env;
  Worker.AI_run_chat := fun _ _ =>
    Ok {| Worker.raw_body := Some hello_stream; Worker.raw_headers := [];
          Worker.raw_status := 200; Worker.raw_statusText := lit "OK" |};
  Worker.AI_run_pdf := Worker.AI_run_pdf env;
  Worker.AI_run_ocr := Worker.AI_run_ocr env;
  Worker.VECTORIZE_query := Worker.VECTORIZE_query env;
  Worker.VECTORIZE_upsert := Worker.VECTORIZE_upsert env;
  Worker.ASSETS_fetch := Worker.ASSETS_fetch env
|}.

(** Twenty-five earlier messages, numbered. *)
Definition old_messages : list (@jsval platform) :=
  map (fun k => ChatMessage "user" (lit "message " ++ nat_to_string k)) (seq 1 25).

(** Session [s1] as an earlier version left it: its messages are a bare
    array under the key ["messages"]. *)
Definition legacy_world : @Worker.World platform :=
  {| Worker.sessions := {[ lit "s1" := {[ "messages" := JArr old_messages ]} ]};
     Worker.upsert_calls := []; Worker.clock_reads := 0; Worker.uuid_calls := 0 |}.

(** Session [s1] holding the same messages in the current shape: a
    record under the session key. *)
Definition stored_world : @Worker.World platform :=
  {| Worker.sessions :=
       {[ lit "s1" :=
            {[ "session" :=
                 SessionDurableObject.record_value
                   {| SessionDurableObject.messages := old_messages;
                      SessionDurableObject.modelId := Some DEFAULT_MODEL_ID;
                      SessionDurableObject.createdAt :=
                        JStr (@Date_toISOString platform 0);
                      SessionDurableObject.updatedAt :=
                        JStr (@Date_toISOString platform 1) |} ]} ]};
     Worker.upsert_calls := []; Worker.clock_reads := 2; Worker.uuid_calls := 0 |}.

(** [POST /api/chat] with [{ sessionId: "s1", message: "hi" }] *)
Definition hi_request : @Request platform :=
  Worker.chat_request
    (JObj [(lit "sessionId", JStr (lit "s1")); (lit "message", JStr (lit "hi"))]).

(** Two letters kept apart by nine hundred spaces. *)
Definition spaced_text : jsstring := [97%N] ++ repeat 32%N 900 ++ [98%N].

(** The word [ab] and a blank, fifteen thousand times: 45000 characters. *)
Definition words_text : jsstring :=
  concat (repeat [97%N; 98%N; 32%N] 15000).

(** A Durable Object left by an earlier version: a bare array under the
    key ["messages"]. *)
Definition legacy_state : @SessionDurableObject.State platform :=
  {| SessionDurableObject.storage :=
       {[ "messages" := JArr [ChatMessage (P := platform) "user" (lit "hello")] ]};
     SessionDurableObject.clock := 0 |}.

End Example.

(** ** Further notions and examples

    Used to state the properties of the parts of the worker that follow
    the session history, the chunker and the upload. *)

(** No run of three or more newlines in [s], [run] newlines having just
    been read. *)
Fixpoint short_newline_runs (run : nat) (s : jsstring) : bool :=
  match s with
  | [] => true
  | c :: rest =>
      if N.eqb c NL then (run <? 2) && short_newline_runs (S run) rest
      else short_newline_runs 0 rest
  end.

(** The messages of the errors that text extraction lets out. *)
Definition pdf_needs_model_message : jsstring :=
  lit "PDF extraction requires enabling @cf/pdf/extract-text in Workers AI.".

Definition pdf_failed_message : jsstring :=
  lit "Unable to extract text from the PDF file.".

Definition image_needs_model_message : jsstring :=
  lit "Image-to-text model " ++ OCR_MODEL_ID
  ++ lit " is not available on this account. Choose another model from Workers AI Models or adjust the config.".

Definition image_failed_message : jsstring :=
  lit "Unable to extract text from the image with the selected model.".

Section Notions.
Context {P : Platform}.
Import Worker.

(** The streaming decoder decodes a chunk delivered in two parts as it
    decodes the chunk delivered whole. *)
Definition decoder_streams : Prop :=
  forall carry a b : list N,
    TextDecoder_decode carry (a ++ b) =
    let '(t1, c1) := TextDecoder_decode carry a in
    let '(t2, c2) := TextDecoder_decode c1 b in
    (t1 ++ t2, c2).

(** The snippet [buildRetrievalContext] pushes for a match. *)
Definition snippet_of_match (m : jsval) : ContextSnippet :=
  let metadata := get m "metadata" in
  {| title := trimmed_string (get metadata "title");
     text := match get metadata "text" with JStr t => trim t | _ => [] end;
     index := as_number (get metadata "chunkIndex");
     score := as_number (get m "score") |}.

(** The record [r] pairs the chunk at its index with the embedding the
    model returned at that index, under the id and the metadata of the
    document. *)
Definition record_matches (embeddingData : list (option EmbeddingItem))
    (chunks : list jsstring) (docId : jsstring) (meta : DocumentMetadata)
    (r : VectorRecord) : Prop :=
  let i := md_chunkIndex (metadata r) in
  chunks !! i = Some (md_text (metadata r)) /\
  (exists item,
     embeddingData !! i = Some (Some item) /\ embedding item = Some (vector r)) /\
  vector r <> [] /\
  id r = docId ++ lit "#" ++ nat_to_string i /\
  md_docId (metadata r) = docId /\
  md_title (metadata r) = doc_title meta /\
  md_sourceType (metadata r) = doc_sourceType meta /\
  md_originalFileName (metadata r) = doc_originalFileName meta.

(** The message of the error thrown when no chunk has an embedding. *)
Definition no_vectors_message : jsstring :=
  lit "Embedding model " ++ EMBEDDING_MODEL_ID
  ++ lit " returned no vectors for provided content.".

(** The world after [count] readings of the clock. *)
Definition after_clock_reads (w : World) (count : nat) : World :=
  {| sessions := sessions w; upsert_calls := upsert_calls w;
     clock_reads := clock_reads w + count; uuid_calls := uuid_calls w |}.

(** The metadata object of a record, as [generateEmbeddingsForChunks]
    writes it. *)
Definition metadata_value (m : VectorMetadata) : jsval :=
  JObj [(lit "text", JStr (md_text m));
        (lit "title", JStr (md_title m));
        (lit "docId", JStr (md_docId m));
        (lit "chunkIndex", JNum (number_of_nat (md_chunkIndex m)));
        (lit "uploadedAt", JStr (md_uploadedAt m));
        (lit "sourceType", JStr (md_sourceType m));
        (lit "originalFileName", of_option_string (md_originalFileName m))].

(** The match ([VectorizeMatch] of [types.ts]) by which the index
    returns a stored record, with the metadata it was stored with. *)
Definition match_of_record (found : VectorRecord * option number) : jsval :=
  JObj [(lit "id", JStr (id (fst found)));
        (lit "score", match snd found with Some s => JNum s | None => JUndefined end);
        (lit "metadata", metadata_value (metadata (fst found)))].

(** The snippet that stands for a stored record. *)
Definition snippet_of_record (found : VectorRecord * option number) : ContextSnippet :=
  {| title := trimmed_string (JStr (md_title (metadata (fst found))));
     text := md_text (metadata (fst found));
     index := Some (number_of_nat (md_chunkIndex (metadata (fst found))));
     score := snd found |}.

End Notions.

Module Scenario.
Import Example.

(** What a call to the platform is rejected with when the store is out
    of reach. *)
Definition outage : exn := ErrorObject (lit "Network connection lost.").

(** A match as the vector index returns it for the first chunk of
    [notes], its text padded with blanks. *)
Definition sample_match : @jsval platform :=
  @JObj platform
       [(lit "id", JStr (lit "doc-0#0"));
        (lit "score", JNum (P := platform) 1%Z);
        (lit "metadata",
         JObj [(lit "text", JStr (lit " alpha "));
               (lit "title", JStr (lit "notes"));
               (lit "chunkIndex", JNum (P := platform) 0%Z)])].

(** The deployment of [env] with an index that answers every query with
    a null entry, a match without text and six copies of [sample_match]. *)
Definition env_with_matches : @Worker.Env platform := {|
  Worker.AI_run_embedding := Worker.AI_run_embedding env;
  Worker.AI_run_chat := Worker.AI_run_chat env;
  Worker.AI_run_pdf := Worker.AI_run_pdf env;
  Worker.AI_run_ocr := Worker.AI_run_ocr env;
  Worker.VECTORIZE_query := fun _ _ =>
    Ok (Some (@Worker.Build_VectorizeQueryResponse platform
                (Some ([JNull; JObj [(lit "id", JStr (lit "doc-1#0"))]]
                       ++ repeat sample_match 6))));
  Worker.VECTORIZE_upsert := Worker.VECTORIZE_upsert env;
  Worker.ASSETS_fetch := Worker.ASSETS_fetch env
|}.

(** The deployment of [env] with the chat model out of service. *)
Definition env_chat_down : @Worker.Env platform := {|
  Worker.AI_run_embedding := Worker.AI_run_embedding env;
  Worker.AI_run_chat := fun _ _ => Throw (ErrorObject (lit "model unavailable"));
  Worker.AI_run_pdf := Worker.AI_run_pdf env;
  Worker.AI_run_ocr := Worker.AI_run_ocr env;
  Worker.VECTORIZE_query := Worker.VECTORIZE_query env;
  Worker.VECTORIZE_upsert := Worker.VECTORIZE_upsert env;
  Worker.ASSETS_fetch := Worker.ASSETS_fetch env
|}.

(** The deployment of [env] without the PDF model. *)
Definition env_pdf_missing : @Worker.Env platform := {|
  Worker.AI_run_embedding := Worker.AI_run_embedding env;
  Worker.AI_run_chat := Worker.AI_run_chat env;
  Worker.AI_run_pdf := fun _ =>
    Throw (ErrorObject (lit "5007: No such model @cf/pdf/extract-text"));
  Worker.AI_run_ocr := Worker.AI_run_ocr env;
  Worker.VECTORIZE_query := Worker.VECTORIZE_query env;
  Worker.VECTORIZE_upsert := Worker.VECTORIZE_upsert env;
  Worker.ASSETS_fetch := Worker.ASSETS_fetch env
|}.

(** A PDF file. *)
Definition pdf_file : File :=
  {| file_name := lit "paper.pdf"; file_type := lit "application/pdf";
     file_text := []; file_bytes := [37; 80; 68; 70]%N |}.

(** [PUT /api/chat] *)
Definition put_chat : @Request platform :=
  {| method := lit "PUT"; pathname := lit "/api/chat"; query_sessionId := None;
     header_content_type := None; header_x_source_type := None;
     request_json := None; request_formData := Throw ThrownValue |}.

(** [POST /api/chat] with [{ sessionId: "  ", message: "hi" }] *)
Definition blank_session_request : @Request platform :=
  Worker.chat_request
    (JObj [(lit "sessionId", JStr (lit "  ")); (lit "message", JStr (lit "hi"))]).

(** The records that the upload of [notes] hands to the vector index. *)
Definition notes_records : list (@Worker.VectorRecord platform) :=
  concat (Worker.upsert_calls
            (snd (Worker.handleDocumentUpload notes_upload env empty_world))).

(** A record found by a query, with score 1. *)
Definition with_score (r : @Worker.VectorRecord platform)
    : @Worker.VectorRecord platform * option (@number platform) :=
  (r, Some 1%Z).

(** The deployment of [env] once [notes] is indexed: every query is
    answered with the records of [notes], each with score 1. *)
Definition env_indexed : @Worker.Env platform := {|
  Worker.AI_run_embedding := Worker.AI_run_embedding env;
  Worker.AI_run_chat := Worker.AI_run_chat env;
  Worker.AI_run_pdf := Worker.AI_run_pdf env;
  Worker.AI_run_ocr := Worker.AI_run_ocr env;
  Worker.VECTORIZE_query := fun _ _ =>
    Ok (Some (@Worker.Build_VectorizeQueryResponse platform
                (Some (map match_of_record (map with_score notes_records)))));
  Worker.VECTORIZE_upsert := Worker.VECTORIZE_upsert env;
  Worker.ASSETS_fetch := Worker.ASSETS_fetch env
|}.

End Scenario.

(** * Properties *)

(** ** Strings *)

Section StringFacts.

Lemma str_eqb_eq (a b : jsstring) : str_eqb a b = true <-> a = b.
Proof.
  revert b; induction a as [|x a IH]; intros [|y b]; simpl; split;
    try discriminate; try reflexivity.
  - intros H. apply andb_true_iff in H as [Hx Hab].
    apply N.eqb_eq in Hx. apply IH in Hab. congruence.
  - intros [= -> ->]. rewrite N.eqb_refl. simpl. now apply IH.
Qed.

Lemma str_eqb_refl (a : jsstring) : str_eqb a a = true.
Proof. now apply str_eqb_eq. Qed.

Lemma trimStart_split (s : jsstring) :
  exists pre, s = pre ++ trimStart s /\ forallb is_ws pre = true.
Proof.
  induction s as [|c s [pre [Hs Hpre]]]; simpl.
  - exists []. auto.
  - destruct (is_ws c) eqn:Hc.
    + exists (c :: pre). simpl. rewrite Hc, Hpre.
      split; [f_equal; exact Hs|reflexivity].
    + exists []. auto.
Qed.

Lemma trimEnd_split (s : jsstring) :
  exists post, s = trimEnd s ++ post /\ forallb is_ws post = true.
Proof.
  induction s as [|c s [post [Hs Hpost]]]; simpl.
  - exists []. auto.
  - destruct (trimEnd s) as [|k kept] eqn:Hkept.
    + simpl in Hs. subst post. destruct (is_ws c) eqn:Hc.
      * exists (c :: s). simpl. rewrite Hc, Hpost. auto.
      * exists s. auto.
    + exists post. split; [|assumption]. simpl. now rewrite Hs at 1.
Qed.

(** Trimming removes a run of white space at each end and nothing
    else. *)
Lemma trim_split (s : jsstring) :
  exists pre post,
    s = pre ++ trim s ++ post /\
    forallb is_ws pre = true /\ forallb is_ws post = true.
Proof.
  destruct (trimStart_split s) as [pre [Hs Hpre]].
  destruct (trimEnd_split (trimStart s)) as [post [Ht Hpost]].
  exists pre, post. unfold trim. rewrite <- Ht. auto.
Qed.

(** What lies between two characters that are not white space, the two
    included, survives the trimming of the string. *)
Lemma trim_keeps (s : jsstring) (a q b : nat) (ca cb : N) :
  s !! a = Some ca -> is_ws ca = false ->
  s !! b = Some cb -> is_ws cb = false ->
  a <= q <= b ->
  exists pre post,
    s = pre ++ trim s ++ post /\
    length pre <= q < length pre + length (trim s).
Proof.
  intros Ha Hca Hb Hcb Hq.
  destruct (trim_split s) as (pre & post & Hs & Hpre & Hpost).
  exists pre, post. split; [assumption|].
  rewrite forallb_forall in Hpre, Hpost.
  assert (Hlen : b < length s) by (eapply lookup_lt_Some; eassumption).
  rewrite Hs in Ha, Hb.
  assert (Hlow : length pre <= a).
  { destruct (Nat.lt_ge_cases a (length pre)) as [Hlt|Hge]; [|assumption].
    rewrite lookup_app_l in Ha by assumption.
    apply list_elem_of_lookup_2, list_elem_of_In, Hpre in Ha. congruence. }
  assert (Hhigh : b < length pre + length (trim s)).
  { destruct (Nat.lt_ge_cases b (length pre + length (trim s))) as [|Hge];
      [assumption|exfalso].
    rewrite lookup_app_r in Hb by lia.
    rewrite lookup_app_r in Hb by lia.
    apply list_elem_of_lookup_2, list_elem_of_In, Hpost in Hb. congruence. }
  lia.
Qed.

End StringFacts.

(** ** The chunker *)

Section ChunkerFacts.
Import Chunker.

Lemma chunk_loop_step (fuel : nat) (n : jsstring) (size step i : nat)
    (chunks : list jsstring) :
  chunk_loop (S fuel) n size step i chunks =
  if (i <? length n) && (length chunks <? MAX_DOC_CHUNKS) then
    let piece := trim (slice n i (i + size)) in
    let chunks' := if 0 <? length piece then chunks ++ [piece] else chunks in
    if length n <=? i + size then chunks'
    else chunk_loop fuel n size step (i + step) chunks'
  else chunks.
Proof. reflexivity. Qed.

(** The loop only ever appends to the chunks it already has. *)
Lemma chunk_loop_extends (fuel : nat) (n : jsstring) (size step i : nat)
    (chunks : list jsstring) :
  exists more, chunk_loop fuel n size step i chunks = chunks ++ more.
Proof.
  revert i chunks; induction fuel as [|fuel IH]; intros i chunks.
  - exists []. simpl. now rewrite app_nil_r.
  - rewrite chunk_loop_step.
    destruct ((i <? length n) && (length chunks <? MAX_DOC_CHUNKS));
      [|exists []; now rewrite app_nil_r].
    cbv zeta.
    set (piece := trim (slice n i (i + size))).
    destruct (0 <? length piece).
    + destruct (length n <=? i + size).
      * now exists [piece].
      * destruct (IH (i + step) (chunks ++ [piece])) as [more ->].
        exists (piece :: more). now rewrite <- app_assoc.
    + destruct (length n <=? i + size).
      * exists []. now rewrite app_nil_r.
      * apply IH.
Qed.

(** The text supplies enough fuel: with [step >= 1] the loop has left by
    the time the fuel is used up. *)
Lemma chunk_loop_fuel (fuel extra : nat) (n : jsstring) (size step i : nat)
    (chunks : list jsstring) :
  1 <= step -> length n <= i + fuel ->
  chunk_loop (fuel + extra) n size step i chunks =
  chunk_loop fuel n size step i chunks.
Proof.
  intros Hstep. revert i chunks; induction fuel as [|fuel IH]; intros i chunks Hfuel.
  - destruct extra as [|extra]; [reflexivity|].
    cbn [Nat.add]. rewrite chunk_loop_step.
    replace (i <? length n) with false; [reflexivity|].
    symmetry. apply Nat.ltb_ge. lia.
  - cbn [Nat.add]. rewrite !chunk_loop_step.
    destruct ((i <? length n) && (length chunks <? MAX_DOC_CHUNKS)); [|reflexivity].
    cbv zeta. destruct (length n <=? i + size); [reflexivity|].
    apply IH. lia.
Qed.

(** A window of the text, cut out of it. *)
Lemma slice_split (n : jsstring) (i size : nat) :
  n = take i n ++ slice n i (i + size) ++ drop (i + size) n.
Proof.
  unfold slice. replace (i + size - i) with size by lia.
  rewrite <- (take_drop i n) at 1. f_equal.
  rewrite <- (take_drop size (drop i n)) at 1. f_equal.
  now rewrite drop_drop.
Qed.

(** The window that starts at [i] yields a chunk around position [p]
    when [p] lies between two characters of the window that are not white
    space (or is one of them). *)
Lemma window_covers (n : jsstring) (i size a p b : nat) (ca cb : N) :
  n !! a = Some ca -> is_ws ca = false ->
  n !! b = Some cb -> is_ws cb = false ->
  i <= a -> a <= p <= b -> b < i + size ->
  let piece := trim (slice n i (i + size)) in
  (0 <? length piece) = true /\
  exists before after,
    n = before ++ piece ++ after /\
    length before <= p < length before + length piece.
Proof.
  intros Ha Hca Hb Hcb Hi Hp Hwin piece.
  assert (Hlen : b < length n) by (eapply lookup_lt_Some; eassumption).
  assert (Hqa : slice n i (i + size) !! (a - i) = Some ca).
  { unfold slice. rewrite lookup_take_lt by lia.
    rewrite lookup_drop. replace (i + (a - i)) with a by lia. assumption. }
  assert (Hqb : slice n i (i + size) !! (b - i) = Some cb).
  { unfold slice. rewrite lookup_take_lt by lia.
    rewrite lookup_drop. replace (i + (b - i)) with b by lia. assumption. }
  destruct (trim_keeps _ (a - i) (p - i) (b - i) _ _ Hqa Hca Hqb Hcb ltac:(lia))
    as (pre & post & Hs & Hin).
  fold piece in Hs, Hin. split.
  - apply Nat.ltb_lt. lia.
  - exists (take i n ++ pre), (post ++ drop (i + size) n). split.
    + rewrite (slice_split n i size) at 1. rewrite Hs.
      now rewrite <- !app_assoc.
    + rewrite length_app, length_take. lia.
Qed.

(** If the window that covers [p] is at most [j] steps away and the cap
    on the number of chunks leaves room for [j] more, the loop produces a
    chunk around [p]. *)
Lemma chunk_loop_covers (n : jsstring) (size step : nat) (p : nat) (c : N) :
  1 <= step -> step <= size ->
  n !! p = Some c -> is_ws c = false ->
  forall j fuel i chunks,
    i <= p -> p < i + j * step + size ->
    length chunks + j < MAX_DOC_CHUNKS ->
    length n <= i + fuel ->
    covered n (chunk_loop fuel n size step i chunks) p.
Proof.
  intros Hstep Hsize Hp Hc.
  assert (Hlen : p < length n) by (eapply lookup_lt_Some; eassumption).
  induction j as [|j IH]; intros fuel i chunks Hi Hreach Hcap Hfuel;
    (destruct fuel as [|fuel]; [lia|]); rewrite chunk_loop_step;
    (replace (i <? length n) with true by (symmetry; apply Nat.ltb_lt; lia));
    (replace (length chunks <? MAX_DOC_CHUNKS) with true
       by (symmetry; apply Nat.ltb_lt; lia));
    cbn [andb]; cbv zeta.
  - destruct (window_covers n i size p p p c c Hp Hc Hp Hc ltac:(lia) ltac:(lia) ltac:(lia))
      as [Hne (before & after & Hn & Hin)].
    rewrite Hne.
    assert (Hall : exists more,
      (if length n <=? i + size
       then chunks ++ [trim (slice n i (i + size))]
       else chunk_loop fuel n size step (i + step)
              (chunks ++ [trim (slice n i (i + size))]))
      = (chunks ++ [trim (slice n i (i + size))]) ++ more).
    { destruct (length n <=? i + size).
      - exists []. now rewrite app_nil_r.
      - apply chunk_loop_extends. }
    destruct Hall as [more ->].
    exists before, (trim (slice n i (i + size))), after.
    split; [|split; assumption].
    apply in_or_app. left. apply in_or_app. right. now left.
  - destruct (Nat.lt_ge_cases p (i + size)) as [Hin|Hout].
    + destruct (window_covers n i size p p p c c Hp Hc Hp Hc ltac:(lia) ltac:(lia) ltac:(lia))
        as [Hne (before & after & Hn & Hin')].
      rewrite Hne.
      assert (Hall : exists more,
        (if length n <=? i + size
         then chunks ++ [trim (slice n i (i + size))]
         else chunk_loop fuel n size step (i + step)
                (chunks ++ [trim (slice n i (i + size))]))
        = (chunks ++ [trim (slice n i (i + size))]) ++ more).
      { destruct (length n <=? i + size).
        - exists []. now rewrite app_nil_r.
        - apply chunk_loop_extends. }
      destruct Hall as [more ->].
      exists before, (trim (slice n i (i + size))), after.
      split; [|split; assumption].
      apply in_or_app. left. apply in_or_app. right. now left.
    + replace (length n <=? i + size) with false
        by (symmetry; apply Nat.leb_gt; lia).
      apply IH; try lia.
      destruct (0 <? length (trim (slice n i (i + size))));
        [rewrite length_app; simpl|]; lia.
Qed.

(** The same for a position between two characters, not white space, of
    the window that starts [j] steps further on: the loop produces the
    chunk of that window, or leaves earlier with a chunk that reaches the
    end of the text. *)
Lemma chunk_loop_covers_window (n : jsstring) (size step : nat) (a p b : nat)
    (ca cb : N) :
  1 <= step ->
  n !! a = Some ca -> is_ws ca = false ->
  n !! b = Some cb -> is_ws cb = false ->
  a <= p <= b ->
  forall j fuel i chunks,
    i + j * step <= a -> b < i + j * step + size ->
    length chunks + j < MAX_DOC_CHUNKS ->
    length n <= i + fuel ->
    covered n (chunk_loop fuel n size step i chunks) p.
Proof.
  intros Hstep Ha Hca Hb Hcb Hp.
  assert (Hlen : b < length n) by (eapply lookup_lt_Some; eassumption).
  assert (Hhere : forall fuel i chunks,
    i <= a -> b < i + size ->
    covered n
      (if length n <=? i + size
       then chunks ++ [trim (slice n i (i + size))]
       else chunk_loop fuel n size step (i + step)
              (chunks ++ [trim (slice n i (i + size))])) p /\
    (0 <? length (trim (slice n i (i + size)))) = true).
  { intros fuel i chunks Hi Hwin.
    destruct (window_covers n i size a p b ca cb Ha Hca Hb Hcb Hi Hp Hwin)
      as [Hne (before & after & Hn & Hin)].
    split; [|exact Hne].
    assert (Hall : exists more,
      (if length n <=? i + size
       then chunks ++ [trim (slice n i (i + size))]
       else chunk_loop fuel n size step (i + step)
              (chunks ++ [trim (slice n i (i + size))]))
      = (chunks ++ [trim (slice n i (i + size))]) ++ more).
    { destruct (length n <=? i + size).
      - exists []. now rewrite app_nil_r.
      - apply chunk_loop_extends. }
    destruct Hall as [more ->].
    exists before, (trim (slice n i (i + size))), after.
    split; [|split; assumption].
    apply in_or_app. left. apply in_or_app. right. now left. }
  induction j as [|j IH]; intros fuel i chunks Hi Hreach Hcap Hfuel;
    (destruct fuel as [|fuel]; [lia|]); rewrite chunk_loop_step;
    (replace (i <? length n) with true by (symmetry; apply Nat.ltb_lt; lia));
    (replace (length chunks <? MAX_DOC_CHUNKS) with true
       by (symmetry; apply Nat.ltb_lt; lia));
    cbn [andb]; cbv zeta.
  - destruct (Hhere fuel i chunks ltac:(lia) ltac:(lia)) as [Hcov Hne].
    rewrite Hne. exact Hcov.
  - destruct (length n <=? i + size) eqn:Hlast.
    + apply Nat.leb_le in Hlast.
      destruct (Hhere fuel i chunks ltac:(lia) ltac:(lia)) as [Hcov Hne].
      rewrite Hne. apply Nat.leb_le in Hlast. now rewrite Hlast in Hcov.
    + apply IH; try lia.
      destruct (0 <? length (trim (slice n i (i + size))));
        [rewrite length_app; simpl|]; lia.
Qed.

End ChunkerFacts.

Section ChunkerClaims.
Import Chunker.

Lemma chunk_reach_value :
  chunk_reach = 59 * (CHUNK_SIZE - CHUNK_OVERLAP) + CHUNK_SIZE.
Proof. reflexivity. Qed.

(** C4, as amended.  Sixty windows of 800 characters, one every 650,
    reach the first [chunk_reach] = 59 * 650 + 800 = 39150 characters of
    the normalized text, whatever its length.  Every character before that
    position that is not white space lies inside a chunk of [chunkText]:
    the chunk occurs in the normalized text around that position.  So does
    every position that lies, in one of the sixty windows, between two
    characters that are not white space: white space is lost only where it
    stands at an end of every window that holds it. *)
Theorem chunkText_covers_within_reach (text : jsstring) :
  (forall (p : nat) (c : N),
     p < chunk_reach ->
     normalize text !! p = Some c -> is_ws c = false ->
     covered (normalize text) (chunkText text) p) /\
  (forall (j a p b : nat) (ca cb : N),
     j < MAX_DOC_CHUNKS ->
     j * (CHUNK_SIZE - CHUNK_OVERLAP) <= a -> a <= p -> p <= b ->
     b < j * (CHUNK_SIZE - CHUNK_OVERLAP) + CHUNK_SIZE ->
     normalize text !! a = Some ca -> is_ws ca = false ->
     normalize text !! b = Some cb -> is_ws cb = false ->
     covered (normalize text) (chunkText text) p).
Proof.
  split.
  - intros p c Hreach Hp Hc.
    assert (Hlen : p < length (normalize text))
      by (eapply lookup_lt_Some; eassumption).
    unfold chunkText, chunkText_with.
    destruct (normalize text) as [|x n] eqn:Hn; [simpl in Hlen; lia|].
    cbn [nonempty negb]. cbv zeta.
    rewrite chunk_reach_value in Hreach.
    eapply chunk_loop_covers with (j := 59) (c := c);
      [| | exact Hp | exact Hc | | | |];
      unfold MAX_DOC_CHUNKS, CHUNK_SIZE, CHUNK_OVERLAP in *;
      cbn [length]; lia.
  - intros j a p b ca cb Hj Hstart Hap Hpb Hend Ha Hca Hb Hcb.
    assert (Hlen : b < length (normalize text))
      by (eapply lookup_lt_Some; eassumption).
    unfold chunkText, chunkText_with.
    destruct (normalize text) as [|x n] eqn:Hn; [simpl in Hlen; lia|].
    cbn [nonempty negb]. cbv zeta.
    replace (Nat.max 1 (CHUNK_SIZE - CHUNK_OVERLAP))
      with (CHUNK_SIZE - CHUNK_OVERLAP) by reflexivity.
    eapply chunk_loop_covers_window with (j := j) (a := a) (b := b);
      [| exact Ha | exact Hca | exact Hb | exact Hcb | | | | |];
      unfold MAX_DOC_CHUNKS, CHUNK_SIZE, CHUNK_OVERLAP in *;
      cbn [length]; lia.
Qed.

(** The theorem applies to a text longer than the sixty windows reach,
    [ab ] repeated fifteen thousand times: the blank at position 39002
    stands between the [b] before it and the [a] after it in the last
    window, which starts at 38350, and lies in a chunk; so does the [b] at
    position 39001. *)
Lemma chunkText_covers_within_reach_witness :
  chunk_reach < length (normalize Example.words_text) /\
  normalize Example.words_text !! 39002 = Some 32%N /\
  covered (normalize Example.words_text) (chunkText Example.words_text) 39002 /\
  covered (normalize Example.words_text) (chunkText Example.words_text) 39001.
Proof.
  split; [apply Nat.ltb_lt; vm_compute; reflexivity|].
  split; [vm_compute; reflexivity|].
  split.
  - apply (proj2 (chunkText_covers_within_reach Example.words_text)
             59 39001 39002 39003 98%N 97%N).
    + unfold MAX_DOC_CHUNKS. lia.
    + apply Nat.leb_le. vm_compute. reflexivity.
    + apply Nat.leb_le. vm_compute. reflexivity.
    + apply Nat.leb_le. vm_compute. reflexivity.
    + apply Nat.ltb_lt. vm_compute. reflexivity.
    + vm_compute. reflexivity.
    + reflexivity.
    + vm_compute. reflexivity.
    + reflexivity.
  - apply (proj1 (chunkText_covers_within_reach Example.words_text) 39001 98%N).
    + apply Nat.ltb_lt. vm_compute. reflexivity.
    + vm_compute. reflexivity.
    + reflexivity.
Defined.

(** C4 as stated fails: a document of [chunk_reach + 1] = 39151
    characters is under the size cap, and its last character, the only
    [b], is in no chunk. *)
Lemma chunkText_drops_text_beyond_reach :
  length Example.long_text <= DOCUMENT_MAX_CHARS /\
  normalize Example.long_text !! chunk_reach = Some 98%N /\
  ~ covered (normalize Example.long_text) (chunkText Example.long_text) chunk_reach.
Proof.
  split; [|split].
  - apply Nat.leb_le. vm_compute. reflexivity.
  - vm_compute. reflexivity.
  - intros (before & chunk & after & Hin & Hn & Hp).
    assert (Hb : normalize Example.long_text !! chunk_reach = Some 98%N)
      by (vm_compute; reflexivity).
    rewrite Hn in Hb.
    rewrite lookup_app_r in Hb by lia.
    rewrite lookup_app_l in Hb by lia.
    apply list_elem_of_lookup_2, list_elem_of_In in Hb.
    assert (Hnone : forallb (forallb (fun c => negb (N.eqb c 98)))
                      (chunkText Example.long_text) = true)
      by (vm_compute; reflexivity).
    rewrite forallb_forall in Hnone. specialize (Hnone _ Hin).
    rewrite forallb_forall in Hnone. specialize (Hnone _ Hb).
    discriminate.
Qed.

(** White space at the ends of a window is not kept: of a text made of
    an [a], nine hundred spaces and a [b], the chunks are the two
    letters, and the spaces are in no chunk. *)
Lemma chunkText_trims_blank_runs :
  chunkText Example.spaced_text = [[97%N]; [98%N]] /\
  normalize Example.spaced_text !! 1 = Some 32%N /\
  ~ covered (normalize Example.spaced_text) (chunkText Example.spaced_text) 1.
Proof.
  split; [vm_compute; reflexivity|]. split; [reflexivity|].
  intros (before & chunk & after & Hin & Hn & Hp).
  assert (Hb : normalize Example.spaced_text !! 1 = Some 32%N) by reflexivity.
  rewrite Hn in Hb.
  rewrite lookup_app_r in Hb by lia.
  rewrite lookup_app_l in Hb by lia.
  apply list_elem_of_lookup_2, list_elem_of_In in Hb.
  assert (Hnone : forallb (forallb (fun c => negb (N.eqb c 32)))
                    (chunkText Example.spaced_text) = true)
    by (vm_compute; reflexivity).
  rewrite forallb_forall in Hnone. specialize (Hnone _ Hin).
  rewrite forallb_forall in Hnone. specialize (Hnone _ Hb).
  discriminate.
Qed.

End ChunkerClaims.

(** ** The session Durable Object *)

Section SessionFacts.
Context {P : Platform}.
Import SessionDurableObject.

Lemma slice_last_length {A} (n : nat) (l : list A) :
  length (slice_last n l) = Nat.min n (length l).
Proof. unfold slice_last. rewrite length_drop. lia. Qed.

Lemma slice_last_short {A} (n : nat) (l : list A) :
  length l <= n -> slice_last n l = l.
Proof.
  intros H. unfold slice_last. replace (length l - n) with 0 by lia. reflexivity.
Qed.

(** What precedes the last [n] entries does not matter. *)
Lemma slice_last_prefix {A} (n : nat) (a b : list A) :
  n <= length b -> slice_last n (a ++ b) = slice_last n b.
Proof.
  intros H. unfold slice_last. rewrite length_app.
  replace (length a + length b - n) with (length a + (length b - n)) by lia.
  rewrite <- drop_drop. now rewrite drop_app_length.
Qed.

(** Appending to the last [n] and keeping the last [n] is keeping the
    last [n] of everything. *)
Lemma slice_last_app {A} (n : nat) (l more : list A) :
  more <> [] ->
  slice_last n (slice_last n l ++ more) = slice_last n (l ++ more).
Proof.
  intros Hmore.
  assert (0 < length more) by (destruct more; [congruence|simpl; lia]).
  destruct (Nat.le_gt_cases (length l) n) as [Hle|Hgt].
  - now rewrite (slice_last_short n l).
  - assert (E : l ++ more = take (length l - n) l ++ (slice_last n l ++ more)).
    { unfold slice_last. now rewrite app_assoc, take_drop. }
    rewrite E. symmetry. apply slice_last_prefix.
    rewrite length_app, slice_last_length. lia.
Qed.

Lemma slice_last_suffix {A} (n : nat) (l : list A) :
  exists dropped, l = dropped ++ slice_last n l.
Proof. exists (take (length l - n) l). unfold slice_last. now rewrite take_drop. Qed.

Lemma truthy_record (r : StoredSessionRecord) : truthy (record_value r) = true.
Proof. reflexivity. Qed.

Lemma interpret_stored_total (stored : jsval) (st : State) :
  exists session st', interpret_stored stored st = (Ok session, st').
Proof.
  unfold interpret_stored.
  destruct (truthy stored); cbn; [|eauto].
  destruct stored; cbn; eauto.
Qed.

(** Reading never fails. *)
Lemma getSessionRecord_total (st : State) :
  exists session st', getSessionRecord st = (Ok session, st').
Proof.
  unfold getSessionRecord, bind, storage_get, storage_delete, gets, modify, ret.
  destruct (truthy (or_null _)); cbn.
  - apply interpret_stored_total.
  - destruct (truthy (or_null _)); cbn; apply interpret_stored_total.
Qed.

(** A session stored in the current shape is read back as it is, and the
    read changes nothing. *)
Lemma getSessionRecord_current (st : State) (r : StoredSessionRecord) :
  storage st !! SESSION_STORAGE_KEY = Some (record_value r) ->
  getSessionRecord st =
  (Ok {| messages := messages r;
         modelId := trim <$> modelId r;
         createdAt := createdAt r;
         updatedAt := updatedAt r |}, st).
Proof.
  intros H.
  unfold getSessionRecord, bind, storage_get, gets, ret. rewrite H. cbn.
  destruct (modelId r); reflexivity.
Qed.

Lemma persistMessage_ok (message : jsval) (model : option jsstring) (st : State) :
  fst (persistMessage message model st) = Ok tt.
Proof.
  unfold persistMessage, bind.
  destruct (getSessionRecord_total st) as (session & st1 & ->).
  reflexivity.
Qed.

(** One append: the stored list becomes the last [MAX_HISTORY] entries
    of the previous list followed by the new message. *)
Lemma persistMessage_messages (message : jsval) (model : option jsstring)
    (st : State) :
  stored_messages (snd (persistMessage message model st)) =
  slice_last MAX_HISTORY (stored_messages st ++ [message]).
Proof.
  unfold stored_messages at 2.
  unfold persistMessage, bind.
  destruct (getSessionRecord_total st) as (session & st1 & ->).
  cbn [fst snd new_Date_toISOString storage_put modify].
  unfold stored_messages.
  erewrite getSessionRecord_current;
    [|cbn [storage]; apply lookup_insert_eq].
  reflexivity.
Qed.

Lemma persist_all_snoc (appends : list (jsval * option jsstring))
    (a : jsval * option jsstring) (st : State) :
  persist_all (appends ++ [a]) st =
  snd (persistMessage (fst a) (snd a) (persist_all appends st)).
Proof. unfold persist_all. now rewrite fold_left_app. Qed.

(** Any non-empty sequence of appends leaves the last [MAX_HISTORY]
    entries of the previous list followed by the appended messages. *)
Lemma persist_all_messages (appends : list (jsval * option jsstring)) (st : State) :
  appends <> [] ->
  stored_messages (persist_all appends st) =
  slice_last MAX_HISTORY (stored_messages st ++ map fst appends).
Proof.
  induction appends as [|a appends IH] using rev_ind; [congruence|]. intros _.
  rewrite persist_all_snoc, persistMessage_messages, map_app. cbn [map].
  destruct appends as [|b appends].
  - reflexivity.
  - rewrite IH by discriminate.
    rewrite slice_last_app by discriminate.
    now rewrite <- app_assoc.
Qed.

(** A Durable Object that was never written reports no messages. *)
Lemma stored_messages_fresh (reads : nat) : stored_messages (fresh reads) = [].
Proof. reflexivity. Qed.

End SessionFacts.

Section SessionReads.
Context {P : Platform}.
Import SessionDurableObject.

Lemma interpret_stored_storage (v : jsval) (st : State) :
  storage (snd (interpret_stored v st)) = storage st.
Proof.
  unfold interpret_stored.
  destruct (truthy v); cbn; [destruct v|]; reflexivity.
Qed.

(** What is read from a stored value does not depend on the clock,
    except for the time stamps. *)
Lemma interpret_stored_fields (v : jsval) (st1 st2 : State) :
  exists s1 s2 st1' st2',
    interpret_stored v st1 = (Ok s1, st1') /\
    interpret_stored v st2 = (Ok s2, st2') /\
    messages s1 = messages s2 /\ modelId s1 = modelId s2.
Proof.
  unfold interpret_stored.
  destruct (truthy v); cbn; [destruct v|]; cbn; do 4 eexists; eauto.
Qed.

(** A stored value in the current shape is read without consulting the
    clock. *)
Lemma interpret_stored_current (v : jsval) (st1 st2 : State) :
  truthy v = true -> as_array v = None ->
  fst (interpret_stored v st1) = fst (interpret_stored v st2) /\
  snd (interpret_stored v st1) = st1.
Proof.
  intros Ht Ha. unfold interpret_stored. rewrite Ht. cbn.
  destruct v; try discriminate; auto.
Qed.

(** Without an array waiting under the legacy key, a read interprets
    what is stored under the session key and writes nothing. *)
Lemma getSessionRecord_no_legacy (st : State) :
  storage st !! "messages" = None ->
  getSessionRecord st =
  interpret_stored
    (or_null match storage st !! SESSION_STORAGE_KEY with
             | Some v => v
             | None => JUndefined
             end) st.
Proof.
  intros H. unfold getSessionRecord, bind, storage_get, gets, ret. cbn.
  destruct (truthy (or_null _)); cbn; [reflexivity|].
  rewrite H. reflexivity.
Qed.

Lemma getSessionRecord_storage (st : State) :
  storage st !! "messages" = None ->
  storage (snd (getSessionRecord st)) = storage st.
Proof.
  intros H. rewrite getSessionRecord_no_legacy by assumption.
  apply interpret_stored_storage.
Qed.

(** After a read, nothing is left under the legacy key and the session
    key is as before: either the read wrote nothing, or it removed the
    legacy entry. *)
Lemma getSessionRecord_after (st : State) :
  storage (snd (getSessionRecord st)) = storage st \/
  (storage (snd (getSessionRecord st)) = delete "messages" (storage st) /\
   truthy (or_null match storage st !! SESSION_STORAGE_KEY with
                   | Some v => v
                   | None => JUndefined
                   end) = false).
Proof.
  unfold getSessionRecord, bind, storage_get, storage_delete, gets, modify, ret.
  cbn.
  remember (or_null match storage st !! SESSION_STORAGE_KEY with
                    | Some v => v | None => JUndefined end) as current.
  destruct (truthy current); cbn.
  - left. apply interpret_stored_storage.
  - remember (or_null match storage st !! "messages" with
                      | Some v => v | None => JUndefined end) as legacy.
    destruct (truthy legacy); cbn.
    + right. split; [|reflexivity]. now rewrite interpret_stored_storage.
    + left. apply interpret_stored_storage.
Qed.

(** The messages reported depend on the storage only. *)
Lemma stored_messages_storage (st1 st2 : State) :
  storage st1 = storage st2 -> stored_messages st1 = stored_messages st2.
Proof.
  destruct st1 as [store c1], st2 as [store2 c2]. cbn [storage]. intros <-.
  unfold stored_messages, getSessionRecord, bind, storage_get,
    storage_delete, gets, modify, ret.
  cbn.
  remember (or_null match store !! SESSION_STORAGE_KEY with
                    | Some v => v | None => JUndefined end) as current.
  assert (Hread : forall v a b,
    match fst (interpret_stored v a) with Ok s => messages s | Throw _ => [] end =
    match fst (interpret_stored v b) with Ok s => messages s | Throw _ => [] end).
  { intros v a b.
    destruct (interpret_stored_fields v a b)
      as (s1 & s2 & a' & b' & -> & -> & Hm & _).
    exact Hm. }
  destruct (truthy current); cbn; [apply Hread|].
  remember (or_null match store !! "messages" with
                    | Some v => v | None => JUndefined end) as legacy.
  destruct (truthy legacy); cbn; apply Hread.
Qed.

(** A read either keeps the reported messages or, when it removed a
    legacy array, leaves none. *)
Lemma stored_messages_after_read (st : State) :
  stored_messages (snd (getSessionRecord st)) = stored_messages st \/
  stored_messages (snd (getSessionRecord st)) = [].
Proof.
  destruct (getSessionRecord_after st) as [Hsame|[Hdel Hfalsy]].
  - left. now apply stored_messages_storage.
  - right. unfold stored_messages at 1.
    rewrite getSessionRecord_no_legacy
      by (rewrite Hdel; apply lookup_delete_eq).
    rewrite Hdel, lookup_delete_ne by discriminate.
    unfold interpret_stored. rewrite Hfalsy. reflexivity.
Qed.

End SessionReads.

Section SessionAppend.
Context {P : Platform}.
Import SessionDurableObject.

Lemma get_needs_object (v : jsval) (key : string) (s : jsstring) :
  get v key = JStr s -> truthy v = true.
Proof. destruct v; cbn; intros H; try discriminate; reflexivity. Qed.

(** The test of the append endpoint, spelled out. *)
Lemma valid_message_spec (message : jsval) :
  valid_message message = true <->
  (has_role "assistant" message \/ has_role "user" message) /\
  exists content, get message "content" = JStr content.
Proof.
  unfold valid_message, has_role. split.
  - intros H. apply andb_true_iff in H as [H Hcontent].
    apply andb_true_iff in H as [_ Hrole].
    destruct (get message "role") as [| | | |r| |]; try discriminate.
    destruct (get message "content") as [| | | |c| |]; try discriminate.
    split; [|eauto].
    apply orb_true_iff in Hrole as [Hr|Hr]; apply str_eqb_eq in Hr; subst; auto.
  - intros [Hrole [content Hcontent]].
    rewrite Hcontent.
    destruct Hrole as [Hr|Hr]; rewrite (get_needs_object _ _ _ Hr), Hr;
      reflexivity.
Qed.

Lemma system_message_invalid (message : jsval) :
  has_role "system" message -> valid_message message = false.
Proof.
  unfold has_role, valid_message. intros ->.
  now rewrite andb_false_r.
Qed.

Lemma valid_message_not_system (message : jsval) :
  valid_message message = true -> ~ has_role "system" message.
Proof.
  intros Hv Hs. apply system_message_invalid in Hs. congruence.
Qed.

Lemma fetch_post (request : Request) (st : State) :
  method request = lit "POST" -> pathname request = lit "/messages" ->
  fetch request st =
  (let message := get (safeJson request) "message" in
   if negb (valid_message message) then ret invalid_message_response
   else
     bind (persistMessage message (trimmed_string (get (safeJson request) "modelId")))
       (fun _ => ret {| status := 204; statusText := []; headers := []; body := NoBody |}))
    st.
Proof.
  intros Hm Hp. unfold fetch. rewrite Hm, Hp.
  replace (str_eqb (lit "POST") (lit "GET")) with false by reflexivity.
  replace (str_eqb (lit "POST") (lit "POST")) with true by reflexivity.
  replace (str_eqb (lit "/messages") (lit "/messages")) with true by reflexivity.
  reflexivity.
Qed.

(** A rejected append answers 400 and leaves the object as it was. *)
Lemma fetch_post_rejected (request : Request) (st : State) :
  method request = lit "POST" -> pathname request = lit "/messages" ->
  valid_message (get (safeJson request) "message") = false ->
  fetch request st = (Ok invalid_message_response, st).
Proof.
  intros Hm Hp Hv. rewrite fetch_post by assumption. cbv zeta.
  rewrite Hv. reflexivity.
Qed.

(** An accepted append answers 204 and stores the message. *)
Lemma fetch_post_accepted (request : Request) (st : State) :
  method request = lit "POST" -> pathname request = lit "/messages" ->
  valid_message (get (safeJson request) "message") = true ->
  fetch request st =
  (Ok {| status := 204; statusText := []; headers := []; body := NoBody |},
   snd (persistMessage (get (safeJson request) "message")
          (trimmed_string (get (safeJson request) "modelId")) st)).
Proof.
  intros Hm Hp Hv. rewrite fetch_post by assumption. cbv zeta.
  rewrite Hv. cbn [negb]. unfold bind.
  pose proof (persistMessage_ok (get (safeJson request) "message")
                (trimmed_string (get (safeJson request) "modelId")) st) as Hok.
  destruct (persistMessage _ _ st) as [r st']. cbn in Hok. subst r.
  reflexivity.
Qed.

(** Whatever the request, the object ends in one of three states: the one
    it was in, the one a read leaves, or the one an accepted append
    leaves. *)
Lemma fetch_state (request : Request) (st : State) :
  snd (fetch request st) = st \/
  snd (fetch request st) = snd (getSessionRecord st) \/
  exists message model,
    valid_message message = true /\
    snd (fetch request st) = snd (persistMessage message model st).
Proof.
  unfold fetch.
  destruct (str_eqb (method request) (lit "GET")
            && str_eqb (pathname request) (lit "/messages")).
  - right. left. unfold bind.
    destruct (getSessionRecord_total st) as (session & st' & ->). reflexivity.
  - destruct (str_eqb (method request) (lit "POST")
              && str_eqb (pathname request) (lit "/messages")); [|now left].
    cbv zeta.
    destruct (valid_message (get (safeJson request) "message")) eqn:Hv;
      cbn [negb]; [|now left].
    right. right. exists (get (safeJson request) "message"),
      (trimmed_string (get (safeJson request) "modelId")).
    split; [assumption|]. unfold bind.
    pose proof (persistMessage_ok (get (safeJson request) "message")
                  (trimmed_string (get (safeJson request) "modelId")) st) as Hok.
    destruct (persistMessage _ _ st) as [r st']. cbn in Hok. subst r.
    reflexivity.
Qed.

Lemma Forall_slice_last {A} (Q : A -> Prop) (n : nat) (l : list A) :
  Forall Q l -> Forall Q (slice_last n l).
Proof. unfold slice_last. apply Forall_drop. Qed.

(** No request adds anything but an accepted message to the stored
    history. *)
Lemma fetch_preserves (Q : jsval -> Prop) (request : Request) (st : State) :
  (forall message, valid_message message = true -> Q message) ->
  Forall Q (stored_messages st) ->
  Forall Q (stored_messages (snd (fetch request st))).
Proof.
  intros HQ Hst.
  destruct (fetch_state request st) as [->|[->|(message & model & Hv & ->)]].
  - assumption.
  - destruct (stored_messages_after_read st) as [->| ->]; [assumption|constructor].
  - rewrite persistMessage_messages. apply Forall_slice_last.
    apply Forall_app. split; [assumption|]. constructor; [auto|constructor].
Qed.

Lemma serve_preserves (Q : jsval -> Prop) (requests : list Request) (st : State) :
  (forall message, valid_message message = true -> Q message) ->
  Forall Q (stored_messages st) ->
  Forall Q (stored_messages (serve requests st)).
Proof.
  intros HQ. revert st. induction requests as [|request requests IH]; intros st Hst.
  - exact Hst.
  - apply IH. now apply fetch_preserves.
Qed.

(** C10.  The append endpoint of the session store accepts a message
    exactly when its role is ["assistant"] or ["user"] and its content is a
    string.  Any other payload, one with role ["system"] included, is
    answered with status 400 and leaves the stored session as it was.
    Hence the history of a session that started empty holds, after any
    sequence of requests, only user and assistant messages and never a
    system message. *)
Theorem append_endpoint_accepts_user_and_assistant_only :
  (forall message,
     valid_message message = true <->
     (has_role "assistant" message \/ has_role "user" message) /\
     exists content, get message "content" = JStr content) /\
  (forall request st,
     method request = lit "POST" -> pathname request = lit "/messages" ->
     valid_message (get (safeJson request) "message") = false ->
     fetch request st = (Ok invalid_message_response, st)) /\
  (forall request st,
     method request = lit "POST" -> pathname request = lit "/messages" ->
     has_role "system" (get (safeJson request) "message") ->
     fetch request st = (Ok invalid_message_response, st)) /\
  (forall requests reads,
     Forall (fun message =>
               (has_role "assistant" message \/ has_role "user" message) /\
               ~ has_role "system" message)
       (stored_messages (serve requests (fresh reads)))).
Proof.
  split; [|split; [|split]].
  - apply valid_message_spec.
  - apply fetch_post_rejected.
  - intros request st Hm Hp Hs. apply fetch_post_rejected; try assumption.
    now apply system_message_invalid.
  - intros requests reads. apply serve_preserves.
    + intros message Hv. split.
      * now apply valid_message_spec.
      * now apply valid_message_not_system.
    + rewrite stored_messages_fresh. constructor.
Qed.

End SessionAppend.

(** The endpoint turns away a system message sent to a fresh session. *)
Lemma append_endpoint_accepts_user_and_assistant_only_witness :
  SessionDurableObject.fetch (P := Example.platform)
    (SessionDurableObject.append_request
       (JObj [(lit "message", ChatMessage "system" (lit "be brief"))]))
    (SessionDurableObject.fresh 0)
  = (Ok SessionDurableObject.invalid_message_response,
     SessionDurableObject.fresh 0).
Proof.
  apply (proj1 (proj2 (append_endpoint_accepts_user_and_assistant_only
                         (P := Example.platform)))).
  - reflexivity.
  - reflexivity.
  - reflexivity.
Defined.

(** ** The worker and the session store *)

Section WorkerSessions.
Context {P : Platform}.
Import Worker.

Lemma session_state_commit (w : World) (name : jsstring)
    (st : SessionDurableObject.State) :
  session_state (commit w name st) name = st.
Proof.
  unfold session_state, commit, session_storage. cbn.
  rewrite lookup_insert_eq. destruct st. reflexivity.
Qed.

Lemma session_storage_commit (w : World) (name : jsstring)
    (st : SessionDurableObject.State) :
  session_storage (commit w name st) name = SessionDurableObject.storage st.
Proof.
  unfold commit, session_storage. cbn. now rewrite lookup_insert_eq.
Qed.

Lemma session_storage_commit_other (w : World) (name other : jsstring)
    (st : SessionDurableObject.State) :
  name <> other ->
  session_storage (commit w name st) other = session_storage w other.
Proof.
  intros H. unfold commit, session_storage. cbn.
  now rewrite lookup_insert_ne.
Qed.

Lemma upsert_calls_commit (w : World) (name : jsstring)
    (st : SessionDurableObject.State) :
  upsert_calls (commit w name st) = upsert_calls w.
Proof. reflexivity. Qed.

Lemma session_messages_commit (w : World) (name : jsstring)
    (st : SessionDurableObject.State) :
  session_messages (commit w name st) name = SessionDurableObject.stored_messages st.
Proof. unfold session_messages. now rewrite session_state_commit. Qed.

(** Reading the history through the stub: the record the Durable Object
    reads, with at most [MAX_HISTORY] messages. *)
Lemma fetchSessionHistory_spec (name : jsstring) (w : World)
    (session : SessionDurableObject.StoredSessionRecord)
    (st : SessionDurableObject.State) :
  SessionDurableObject.getSessionRecord (session_state w name) = (Ok session, st) ->
  fetchSessionHistory name w =
  (Ok {| h_messages := slice_last MAX_HISTORY (SessionDurableObject.messages session);
         h_modelId := SessionDurableObject.modelId session;
         h_createdAt := SessionDurableObject.createdAt session;
         h_updatedAt := SessionDurableObject.updatedAt session |},
   commit w name st).
Proof.
  intros H. unfold fetchSessionHistory, bind, stub_fetch.
  unfold SessionDurableObject.fetch, inner_request. cbn [method pathname].
  replace (str_eqb (lit "GET") (lit "GET")) with true by reflexivity.
  replace (str_eqb (lit "/messages") (lit "/messages")) with true by reflexivity.
  cbn [andb]. unfold bind. rewrite H.
  unfold ret, lift, response_json, ok. cbn [status body negb andb].
  replace ((200 <=? 200) && (200 <=? 299)) with true by reflexivity.
  cbn [negb].
  destruct session as [ms model created updated].
  destruct model; reflexivity.
Qed.

(** Appending through the stub a message the endpoint accepts. *)
Lemma appendMessage_spec (name : jsstring) (message : jsval) (model : jsstring)
    (w : World) :
  SessionDurableObject.valid_message message = true ->
  appendMessage name message model w =
  (Ok tt,
   commit w name
     (snd (SessionDurableObject.persistMessage message
             (trimmed_string (JStr model)) (session_state w name)))).
Proof.
  intros Hv. unfold appendMessage, bind, stub_fetch.
  rewrite fetch_post_accepted; [|reflexivity|reflexivity|exact Hv].
  reflexivity.
Qed.

Lemma chat_message_valid (role : string) (content : jsstring) :
  role = "user"%string \/ role = "assistant"%string ->
  SessionDurableObject.valid_message (ChatMessage role content) = true.
Proof. intros [-> | ->]; reflexivity. Qed.

End WorkerSessions.

(** ** [GET /api/history] *)

Section History.
Context {P : Platform} {J : Worker.JsonParser}.
Import Worker.

Lemma history_route (sessionId : jsstring) (env : Env) (w : World) :
  nonempty sessionId = true ->
  fetch (history_request sessionId) env w =
  catch
    (bind (fetchSessionHistory sessionId)
       (fun history => ret (jsonResponse (history_value history) 200, [])))
    (fun _ => ret (jsonResponse (error_payload (lit "Unable to load history")) 500, []))
    w.
Proof.
  intros H. unfold fetch, history_request. cbn [pathname method query_sessionId].
  replace (str_eqb (lit "/api/history") (lit "/")) with false by reflexivity.
  replace (startsWith (lit "/api/history") (lit "/api/")) with true by reflexivity.
  replace (str_eqb (lit "/api/history") (lit "/api/history")) with true by reflexivity.
  replace (str_eqb (lit "GET") (lit "GET")) with true by reflexivity.
  cbn [orb negb]. rewrite H. reflexivity.
Qed.

(** The answer to a history request, from the record the Durable Object
    reads. *)
Lemma history_answer (sessionId : jsstring) (env : Env) (w : World)
    (session : SessionDurableObject.StoredSessionRecord)
    (st : SessionDurableObject.State) :
  nonempty sessionId = true ->
  SessionDurableObject.getSessionRecord (session_state w sessionId) = (Ok session, st) ->
  fetch (history_request sessionId) env w =
  (Ok (jsonResponse
         (history_value
            {| h_messages := slice_last MAX_HISTORY (SessionDurableObject.messages session);
               h_modelId := SessionDurableObject.modelId session;
               h_createdAt := SessionDurableObject.createdAt session;
               h_updatedAt := SessionDurableObject.updatedAt session |}) 200, []),
   commit w sessionId st).
Proof.
  intros Hid Hread. rewrite history_route by assumption.
  unfold catch, bind. now rewrite (fetchSessionHistory_spec _ _ _ _ Hread).
Qed.

(** C8, as amended.  Two consecutive [GET /api/history] requests for a
    session that has nothing under the legacy key ["messages"] are both
    answered with status 200; the first writes nothing to the session's
    storage, and the two payloads carry the same message list and the same
    model id.  When the session is stored in the current shape (a record
    under the session key) the two payloads are identical.  For a session
    that is absent, or stored as a bare array under the session key, the
    time stamps are generated at each read. *)
Theorem history_reads_agree (env : Env) (w : World) (sessionId : jsstring) :
  nonempty sessionId = true ->
  session_storage w sessionId !! "messages" = None ->
  let first := fetch (history_request sessionId) env w in
  let second := fetch (history_request sessionId) env (snd first) in
  exists v1 v2,
    fst first = Ok (jsonResponse v1 200, []) /\
    fst second = Ok (jsonResponse v2 200, []) /\
    session_storage (snd first) sessionId = session_storage w sessionId /\
    get v1 "messages" = get v2 "messages" /\
    get v1 "modelId" = get v2 "modelId" /\
    (forall stored,
       session_storage w sessionId !! SessionDurableObject.SESSION_STORAGE_KEY
         = Some stored ->
       truthy stored = true -> as_array stored = None -> v1 = v2).
Proof.
  intros Hid Hlegacy first second.
  set (st0 := session_state w sessionId).
  assert (Hl0 : SessionDurableObject.storage st0 !! "messages" = None) by exact Hlegacy.
  set (current := SessionDurableObject.or_null
                    match SessionDurableObject.storage st0
                          !! SessionDurableObject.SESSION_STORAGE_KEY with
                    | Some v => v | None => JUndefined end).
  assert (Hread0 : SessionDurableObject.getSessionRecord st0
                   = SessionDurableObject.interpret_stored current st0)
    by (apply getSessionRecord_no_legacy; exact Hl0).
  destruct (SessionDurableObject.interpret_stored current st0) as [r1 st1] eqn:Hrun1.
  assert (Hst1 : SessionDurableObject.storage st1 = SessionDurableObject.storage st0).
  { pose proof (interpret_stored_storage current st0) as Hs.
    rewrite Hrun1 in Hs. exact Hs. }
  assert (Hread1 : SessionDurableObject.getSessionRecord st1
                   = SessionDurableObject.interpret_stored current st1).
  { rewrite getSessionRecord_no_legacy by (rewrite Hst1; exact Hl0).
    unfold current. now rewrite Hst1. }
  destruct (interpret_stored_fields current st0 st1)
    as (s1 & s2 & st1' & st2' & Hi1 & Hi2 & Hmessages & Hmodel).
  rewrite Hi1 in Hrun1. injection Hrun1 as Hr Hs. subst r1 st1'.
  pose proof (history_answer sessionId env w s1 st1 Hid Hread0) as Hfirst.
  fold first in Hfirst.
  assert (Hw1 : session_state (snd first) sessionId = st1)
    by (rewrite Hfirst; apply session_state_commit).
  assert (Hread2 : SessionDurableObject.getSessionRecord
                     (session_state (snd first) sessionId) = (Ok s2, st2'))
    by (rewrite Hw1, Hread1; exact Hi2).
  pose proof (history_answer sessionId env (snd first) s2 st2' Hid Hread2) as Hsecond.
  fold second in Hsecond.
  do 2 eexists.
  split; [rewrite Hfirst; reflexivity|].
  split; [rewrite Hsecond; reflexivity|].
  split; [rewrite Hfirst; cbn [snd]; rewrite session_storage_commit; exact Hst1|].
  split; [cbn; now rewrite Hmessages|].
  split; [cbn; now rewrite Hmodel|].
  intros stored Hstored Htruthy Harray.
  assert (Hcur : current = stored).
  { unfold current. change (SessionDurableObject.storage st0) with (session_storage w sessionId).
    rewrite Hstored. destruct stored; try discriminate; reflexivity. }
  destruct (interpret_stored_current current st0 st1) as [Hsame _];
    [now rewrite Hcur|now rewrite Hcur|].
  rewrite Hi1, Hi2 in Hsame. cbn in Hsame. injection Hsame as ->.
  reflexivity.
Qed.

End History.

(** [history_reads_agree] applies to a session that was never written. *)
Lemma history_reads_agree_witness :
  let first :=
    Worker.fetch (P := Example.platform) (J := Example.parser)
      (Worker.history_request (lit "s1")) Example.env Example.empty_world in
  let second :=
    Worker.fetch (P := Example.platform) (J := Example.parser)
      (Worker.history_request (lit "s1")) Example.env (snd first) in
  exists v1 v2,
    fst first = Ok (jsonResponse v1 200, []) /\
    fst second = Ok (jsonResponse v2 200, []) /\
    Worker.session_storage (snd first) (lit "s1")
      = Worker.session_storage Example.empty_world (lit "s1") /\
    get v1 "messages" = get v2 "messages" /\
    get v1 "modelId" = get v2 "modelId" /\
    (forall stored,
       Worker.session_storage Example.empty_world (lit "s1")
         !! SessionDurableObject.SESSION_STORAGE_KEY = Some stored ->
       truthy stored = true -> as_array stored = None -> v1 = v2).
Proof.
  apply (history_reads_agree (P := Example.platform) (J := Example.parser)
           Example.env Example.empty_world (lit "s1")).
  - reflexivity.
  - reflexivity.
Defined.

(** C8 as stated fails: two consecutive [GET /api/history] requests for a
    session that was never written, with nothing written in between, are
    answered with different payloads, because [createdAt] and [updatedAt]
    are read from the clock at each request. *)
Lemma history_payload_differs_between_reads :
  let first :=
    Worker.fetch (P := Example.platform) (J := Example.parser)
      Example.history_request Example.env Example.empty_world in
  let second :=
    Worker.fetch (P := Example.platform) (J := Example.parser)
      Example.history_request Example.env (snd first) in
  Worker.session_storage (snd first) (lit "s1")
    = Worker.session_storage Example.empty_world (lit "s1") /\
  Worker.payload_text (fst first) <> Worker.payload_text (fst second).
Proof.
  split.
  - reflexivity.
  - vm_compute. discriminate.
Qed.

Section LegacyKey.
Context {P : Platform}.
Import SessionDurableObject.

(** A read of a session whose messages are a bare array under the legacy
    key ["messages"] reports them, removes the key and writes nothing
    back: the next read reports no message. *)
Lemma read_drops_legacy_messages (st : State) (items : list jsval) :
  storage st !! SESSION_STORAGE_KEY = None ->
  storage st !! "messages" = Some (JArr items) ->
  stored_messages st = items /\
  stored_messages (snd (fetch read_request st)) = [].
Proof.
  intros Hcurrent Hlegacy. split.
  - unfold stored_messages, getSessionRecord, bind, storage_get, storage_delete,
      gets, modify, ret.
    cbn. rewrite Hcurrent. cbn. rewrite Hlegacy. reflexivity.
  - assert (Hstate : storage (snd (fetch read_request st))
                     = delete "messages" (storage st)).
    { unfold fetch, read_request, inner_request. cbn [method pathname].
      replace (str_eqb (lit "GET") (lit "GET")) with true by reflexivity.
      replace (str_eqb (lit "/messages") (lit "/messages")) with true by reflexivity.
      cbn [andb].
      unfold bind, getSessionRecord, bind, storage_get, storage_delete,
        gets, modify, ret.
      cbn. rewrite Hcurrent. cbn. rewrite Hlegacy. reflexivity. }
    unfold stored_messages.
    rewrite getSessionRecord_no_legacy
      by (rewrite Hstate; apply lookup_delete_eq).
    rewrite Hstate, lookup_delete_ne by discriminate.
    rewrite Hcurrent. reflexivity.
Qed.

(** After at least one append the stored history has at most
    [MAX_HISTORY] entries, and exactly that many when there were enough
    messages. *)
Lemma persist_all_capped (appends : list (jsval * option jsstring)) (st : State) :
  appends <> [] ->
  length (stored_messages (persist_all appends st)) <= MAX_HISTORY /\
  (MAX_HISTORY <= length (stored_messages st) + length appends ->
   length (stored_messages (persist_all appends st)) = MAX_HISTORY).
Proof.
  intros H. rewrite persist_all_messages by assumption.
  rewrite slice_last_length, length_app, length_map. lia.
Qed.

End LegacyKey.

(** C2, a defect of the code.  Session [s1] holds twenty-five messages as
    a bare array under the legacy key ["messages"], the shape
    [getSessionRecord] reads from an earlier version.  After one chat turn
    ([POST /api/chat] with the message [hi], and the background capture of
    the reply [Hello]) its stored history is the new user message and the
    assistant reply only: two messages, and not the twenty most recent
    that C2 promises.  The history read that opens the turn removed the
    legacy array without writing it back, so the append that follows
    starts from an empty list. *)
Theorem chat_turn_forgets_legacy_history :
  let before := Worker.session_messages Example.legacy_world (lit "s1") in
  let after :=
    Worker.session_messages
      (snd (Worker.chat_turn (J := Example.hello_parser)
              Example.hi_request Example.hello_env Example.legacy_world))
      (lit "s1") in
  let turn :=
    [ChatMessage "user" (lit "hi"); ChatMessage "assistant" (lit "Hello")] in
  length before = 25 /\
  after = turn /\
  length (slice_last MAX_HISTORY (before ++ turn)) = 20 /\
  after <> slice_last MAX_HISTORY (before ++ turn).
Proof.
  cbv zeta.
  assert (Hafter :
    Worker.session_messages
      (snd (Worker.chat_turn (J := Example.hello_parser)
              Example.hi_request Example.hello_env Example.legacy_world))
      (lit "s1")
    = [ChatMessage "user" (lit "hi"); ChatMessage "assistant" (lit "Hello")])
    by reflexivity.
  split; [reflexivity|]. split; [exact Hafter|]. split; [reflexivity|].
  rewrite Hafter. intros H. apply (f_equal (@length _)) in H.
  vm_compute in H. discriminate H.
Qed.

(** ** The cap on the stored history *)

Section HistoryCap.
Context {P : Platform}.
Import SessionDurableObject.

Lemma post_is_not_get (m : jsstring) :
  str_eqb m (lit "POST") = true -> str_eqb m (lit "GET") = false.
Proof. intros H. apply str_eqb_eq in H. subst m. reflexivity. Qed.

(** One request to an object with nothing under the legacy key: the
    history grows by the accepted message, if any, and the legacy key
    stays unused. *)
Lemma fetch_history (request : Request) (st : State) :
  storage st !! "messages" = None ->
  storage (snd (fetch request st)) !! "messages" = None /\
  stored_messages (snd (fetch request st)) =
  match accepted_message request with
  | Some message => slice_last MAX_HISTORY (stored_messages st ++ [message])
  | None => stored_messages st
  end.
Proof.
  intros Hlegacy. unfold accepted_message, fetch.
  destruct (str_eqb (method request) (lit "GET")) eqn:Hget.
  - assert (Hpost : str_eqb (method request) (lit "POST") = false).
    { destruct (str_eqb (method request) (lit "POST")) eqn:Hp; [|reflexivity].
      apply post_is_not_get in Hp. congruence. }
    rewrite Hpost. cbn [andb].
    destruct (str_eqb (pathname request) (lit "/messages")); [|auto].
    unfold bind. destruct (getSessionRecord st) as [[session|e] st'] eqn:Hread;
      cbn [snd ret].
    + assert (Hst : storage st' = storage st).
      { pose proof (getSessionRecord_storage st Hlegacy) as H.
        now rewrite Hread in H. }
      split; [now rewrite Hst|now apply stored_messages_storage].
    + destruct (getSessionRecord_total st) as (session & st'' & H). congruence.
  - cbn [andb].
    destruct (str_eqb (method request) (lit "POST")
              && str_eqb (pathname request) (lit "/messages")); [|auto].
    cbv zeta. cbn [andb].
    destruct (valid_message (get (safeJson request) "message")); cbn [negb]; [|auto].
    unfold bind.
    pose proof (persistMessage_ok (get (safeJson request) "message")
                  (trimmed_string (get (safeJson request) "modelId")) st) as Hok.
    pose proof (persistMessage_messages (get (safeJson request) "message")
                  (trimmed_string (get (safeJson request) "modelId")) st) as Hmsgs.
    assert (Hkey : storage (snd (persistMessage (get (safeJson request) "message")
                     (trimmed_string (get (safeJson request) "modelId")) st))
                   !! "messages" = None).
    { unfold persistMessage, bind.
      pose proof (getSessionRecord_storage st Hlegacy) as Hst.
      destruct (getSessionRecord_total st) as (session & st' & Hread).
      rewrite Hread in Hst |- *. cbn in Hst |- *.
      rewrite lookup_insert_ne by discriminate. now rewrite Hst. }
    destruct (persistMessage _ _ st) as [r st']. cbn in Hok. subst r.
    cbn [snd ret] in *. auto.
Qed.

Lemma serve_history (requests : list Request) (st : State) (appended : list jsval) :
  storage st !! "messages" = None ->
  stored_messages st = slice_last MAX_HISTORY appended ->
  stored_messages (serve requests st) =
  slice_last MAX_HISTORY (appended ++ accepted requests).
Proof.
  revert st appended. induction requests as [|request requests IH];
    intros st appended Hlegacy Hst.
  - cbn. now rewrite app_nil_r.
  - destruct (fetch_history request st Hlegacy) as [Hlegacy' Hstep].
    change (serve (request :: requests) st)
      with (serve requests (snd (fetch request st))).
    unfold accepted. cbn [omap list_omap].
    destruct (accepted_message request) as [message|].
    + change (message :: omap accepted_message requests)
        with ([message] ++ accepted requests).
      rewrite app_assoc. apply IH; [assumption|].
      rewrite Hstep, Hst. apply slice_last_app. discriminate.
    + apply IH; [assumption|congruence].
Qed.

End HistoryCap.


(** ** Retrieval *)

Section Retrieval.
Context {P : Platform}.
Import Worker.

(** [embedText] catches whatever the embedding model throws. *)
Lemma embedText_total (env : Env) (text : jsstring) :
  exists found, embedText env text = Ok found.
Proof.
  unfold embedText, try_catch, rbind.
  destruct (AI_run_embedding env _); eauto.
Qed.

Lemma embedText_throw (env : Env) (text : jsstring) (e : exn) :
  AI_run_embedding env [truncate EMBEDDING_MAX_CHARS text] = Throw e ->
  embedText env text = Ok None.
Proof. intros H. unfold embedText, try_catch, rbind. now rewrite H. Qed.

(** Only usable matches contribute a snippet. *)
Lemma collect_contexts_unusable (found : list jsval) (contexts : list ContextSnippet) :
  forallb (fun m => negb (usable_match m)) found = true ->
  collect_contexts found contexts = contexts.
Proof.
  induction found as [|m found IH]; intros H; [reflexivity|].
  cbn [forallb] in H. apply andb_true_iff in H as [Hm Hrest].
  cbn [collect_contexts]. unfold usable_match in Hm.
  destruct (truthy m); cbn [negb andb] in *; [|now apply IH].
  destruct (get (get m "metadata") "text") as [| | | |t| |];
    cbn [nonempty negb] in *; try now apply IH.
  apply negb_true_iff in Hm. rewrite Hm. cbn [negb]. now apply IH.
Qed.

Lemma buildRetrievalContext_total (env : Env) (question : jsstring) :
  exists prompt snippets,
    buildRetrievalContext env question = Ok (prompt, snippets).
Proof.
  unfold buildRetrievalContext, no_context.
  destruct (nonempty (trim question)); cbn [negb]; [|eauto].
  unfold try_catch, rbind.
  destruct (embedText env (trim question)) as [[vector|]|e]; eauto.
  destruct (VECTORIZE_query env vector MAX_CONTEXT_CHUNKS) as [queryResult|e]; eauto.
  destruct (length (collect_contexts (query_matches queryResult) []) =? 0); eauto.
Qed.

Lemma buildRetrievalContext_no_embedding (env : Env) (question : jsstring) :
  embedText env (trim question) = Ok None ->
  buildRetrievalContext env question = Ok no_context.
Proof.
  intros H. unfold buildRetrievalContext.
  destruct (nonempty (trim question)); cbn [negb]; [|reflexivity].
  unfold try_catch, rbind. now rewrite H.
Qed.

Lemma buildRetrievalContext_query_throws (env : Env) (question : jsstring)
    (vector : list number) (e : exn) :
  embedText env (trim question) = Ok (Some vector) ->
  VECTORIZE_query env vector MAX_CONTEXT_CHUNKS = Throw e ->
  buildRetrievalContext env question = Ok no_context.
Proof.
  intros H Hq. unfold buildRetrievalContext.
  destruct (nonempty (trim question)); cbn [negb]; [|reflexivity].
  unfold try_catch, rbind. now rewrite H, Hq.
Qed.

Lemma buildRetrievalContext_no_usable_match (env : Env) (question : jsstring)
    (vector : list number) (queryResult : option VectorizeQueryResponse) :
  embedText env (trim question) = Ok (Some vector) ->
  VECTORIZE_query env vector MAX_CONTEXT_CHUNKS = Ok queryResult ->
  forallb (fun m => negb (usable_match m)) (query_matches queryResult) = true ->
  buildRetrievalContext env question = Ok no_context.
Proof.
  intros H Hq Hnone. unfold buildRetrievalContext.
  destruct (nonempty (trim question)); cbn [negb]; [|reflexivity].
  unfold try_catch, rbind. rewrite H, Hq.
  now rewrite collect_contexts_unusable.
Qed.

End Retrieval.

(** ** The chat handler *)

Section ChatHandler.
Context {P : Platform} {J : Worker.JsonParser}.
Import Worker.

(** The handler on a request that passes validation: the history is
    read, the model id chosen, the user message stored, the context
    retrieved and the model called; the answer is the model's stream behind
    the framing line, or one of two error responses.  When the model's
    status or status text is refused by [new Response], the capture of the
    reply is registered all the same. *)
Lemma handleChatRequest_valid (request : Request) (env : Env) (w : World)
    (session : SessionDurableObject.StoredSessionRecord)
    (st1 : SessionDurableObject.State) :
  let body := safeJson request in
  let sessionId := string_field body "sessionId" in
  let message := string_field body "message" in
  truthy body = true -> nonempty sessionId = true -> nonempty message = true ->
  SessionDurableObject.getSessionRecord (session_state w sessionId) = (Ok session, st1) ->
  let model :=
    selectModelId (get body "modelId") (SessionDurableObject.modelId session)
      DEFAULT_MODEL_ID in
  let userMessage := ChatMessage "user" message in
  let w1 := commit w sessionId st1 in
  let w2 :=
    commit w1 sessionId
      (snd (SessionDurableObject.persistMessage userMessage
              (trimmed_string (JStr model)) (session_state w1 sessionId))) in
  handleChatRequest request env w =
  (match buildRetrievalContext env message with
   | Ok (promptMessages, snippets) =>
       match AI_run_chat env model
               ([ChatMessage "system" SYSTEM_PROMPT] ++ promptMessages
                ++ slice_last MAX_HISTORY (SessionDurableObject.messages session)
                ++ [userMessage]) with
       | Ok response =>
           match raw_body response with
           | Some modelStream =>
               Ok (if Response_accepts (raw_status response) (raw_statusText response)
                   then {| status := raw_status response;
                           statusText := raw_statusText response;
                           headers := raw_headers response;
                           body := StreamBody (prependContextStream modelStream snippets) |}
                   else chat_failure,
                   [captureAssistantResponse modelStream sessionId model])
           | None => Ok (empty_model_response, [])
           end
       | Throw _ => Ok (chat_failure, [])
       end
   | Throw _ => Ok (chat_failure, [])
   end, w2).
Proof.
  intros body sessionId message Hbody Hid Hmsg Hread model userMessage w1 w2.
  unfold handleChatRequest, catch.
  fold body. rewrite Hbody. cbn [negb].
  fold sessionId message. rewrite Hid, Hmsg. cbn [negb].
  unfold bind at 1.
  rewrite (fetchSessionHistory_spec sessionId w session st1 Hread).
  cbn [h_modelId h_messages]. fold model. fold userMessage. fold w1.
  unfold bind at 1.
  rewrite (appendMessage_spec sessionId userMessage model w1)
    by (apply chat_message_valid; now left).
  fold w2. unfold bind, lift, ret.
  destruct (buildRetrievalContext env message) as [[promptMessages snippets]|e];
    [|reflexivity].
  destruct (AI_run_chat env model _) as [response|e]; [|reflexivity].
  destruct (raw_body response); [|reflexivity].
  cbn [tee]. destruct (Response_accepts _ _); reflexivity.
Qed.

(** A request that fails validation is answered with status 400 and
    touches nothing. *)
Lemma handleChatRequest_invalid (request : Request) (env : Env) (w : World) :
  let body := safeJson request in
  truthy body = false \/
  nonempty (string_field body "sessionId") = false \/
  nonempty (string_field body "message") = false ->
  exists response,
    handleChatRequest request env w = (Ok (response, []), w) /\
    status response = 400.
Proof.
  intros body H. unfold handleChatRequest, catch. fold body.
  destruct (truthy body); cbn [negb]; [|eexists; split; reflexivity].
  destruct (nonempty (string_field body "sessionId")); cbn [negb];
    [|eexists; split; reflexivity].
  destruct (nonempty (string_field body "message")); cbn [negb];
    [|eexists; split; reflexivity].
  destruct H as [H|[H|H]]; discriminate.
Qed.

(** Whatever the handler streams is the model's stream behind the
    framing of the retrieved snippets. *)
Lemma handleChatRequest_stream (request : Request) (env : Env) (w w' : World)
    (response : Response) (ctx : ExecutionContext) (outbound : ReadableStream) :
  handleChatRequest request env w = (Ok (response, ctx), w') ->
  body response = StreamBody outbound ->
  exists model messages raw modelStream promptMessages snippets,
    AI_run_chat env model messages = Ok raw /\
    raw_body raw = Some modelStream /\
    Response_accepts (raw_status raw) (raw_statusText raw) = true /\
    status response = raw_status raw /\
    buildRetrievalContext env (string_field (safeJson request) "message")
      = Ok (promptMessages, snippets) /\
    outbound = prependContextStream modelStream snippets.
Proof.
  intros Hrun Hbody.
  destruct (truthy (safeJson request)) eqn:Ht;
    [|destruct (handleChatRequest_invalid request env w (or_introl Ht))
        as (r & Hr & Hs); rewrite Hr in Hrun; injection Hrun as <- _ _;
      unfold handleChatRequest, catch in Hr; rewrite Ht in Hr;
      injection Hr as <-; discriminate].
  destruct (nonempty (string_field (safeJson request) "sessionId")) eqn:Hid;
    [|unfold handleChatRequest, catch in Hrun; rewrite Ht, Hid in Hrun;
      injection Hrun as <- _ _; discriminate].
  destruct (nonempty (string_field (safeJson request) "message")) eqn:Hmsg;
    [|unfold handleChatRequest, catch in Hrun; rewrite Ht, Hid, Hmsg in Hrun;
      injection Hrun as <- _ _; discriminate].
  destruct (getSessionRecord_total
              (session_state w (string_field (safeJson request) "sessionId")))
    as (session & st1 & Hread).
  rewrite (handleChatRequest_valid request env w session st1 Ht Hid Hmsg Hread)
    in Hrun.
  destruct (buildRetrievalContext env _) as [[promptMessages snippets]|e] eqn:Hctx;
    [|injection Hrun as <- _ _; discriminate].
  destruct (AI_run_chat env _ _) as [raw|e] eqn:Hai;
    [|injection Hrun as <- _ _; discriminate].
  destruct (raw_body raw) as [modelStream|] eqn:Hraw;
    [|injection Hrun as <- _ _; discriminate].
  destruct (Response_accepts (raw_status raw) (raw_statusText raw)) eqn:Haccepts;
    [|injection Hrun as <- _ _; discriminate].
  injection Hrun as <- _ _. cbn in Hbody. injection Hbody as <-.
  do 6 eexists. repeat split; eauto.
Qed.

End ChatHandler.

(** ** Model selection *)

Section ModelSelection.
Context {P : Platform} {J : Worker.JsonParser}.
Import Worker.

(** C9.  [selectModelId] resolves the model id by strict priority: a
    requested id that is a string and not empty once trimmed is used (in
    its trimmed form); otherwise a stored id that is not empty once
    trimmed is used (trimmed); otherwise the fallback.  The chat handler
    resolves the id from the [modelId] of the request, the id stored with
    the session and the system default, and it is under the resolved id
    that the model is asked and the reply recorded.  The answer is the
    model's stream under the model's status when [new Response] accepts
    that status and status text, and the 500 answer of the [catch] clause
    when it throws. *)
Theorem selectModelId_priority :
  (forall (requested : jsval) (stored : option jsstring) (fallback : jsstring),
     (forall s, requested = JStr s -> nonempty (trim s) = true ->
        selectModelId requested stored fallback = trim s) /\
     ((forall s, requested = JStr s -> nonempty (trim s) = false) ->
      forall t, stored = Some t -> nonempty (trim t) = true ->
        selectModelId requested stored fallback = trim t) /\
     ((forall s, requested = JStr s -> nonempty (trim s) = false) ->
      (forall t, stored = Some t -> nonempty (trim t) = false) ->
        selectModelId requested stored fallback = fallback)) /\
  (forall (request : Request) (env : Env) (w : World)
          (session : SessionDurableObject.StoredSessionRecord)
          (st1 : SessionDurableObject.State)
          (promptMessages : list jsval) (snippets : list ContextSnippet)
          (raw : RawResponse) (modelStream : ReadableStream),
     let payload := safeJson request in
     let sessionId := string_field payload "sessionId" in
     let message := string_field payload "message" in
     let model :=
       selectModelId (get payload "modelId") (SessionDurableObject.modelId session)
         DEFAULT_MODEL_ID in
     truthy payload = true -> nonempty sessionId = true -> nonempty message = true ->
     SessionDurableObject.getSessionRecord (session_state w sessionId)
       = (Ok session, st1) ->
     buildRetrievalContext env message = Ok (promptMessages, snippets) ->
     AI_run_chat env model
       ([ChatMessage "system" SYSTEM_PROMPT] ++ promptMessages
        ++ slice_last MAX_HISTORY (SessionDurableObject.messages session)
        ++ [ChatMessage "user" message]) = Ok raw ->
     raw_body raw = Some modelStream ->
     exists response w',
       handleChatRequest request env w
       = (Ok (response, [captureAssistantResponse modelStream sessionId model]), w') /\
       (Response_accepts (raw_status raw) (raw_statusText raw) = true ->
        status response = raw_status raw /\
        body response = StreamBody (prependContextStream modelStream snippets)) /\
       (Response_accepts (raw_status raw) (raw_statusText raw) = false ->
        response = chat_failure)).
Proof.
  split.
  - intros requested stored fallback. unfold selectModelId.
    assert (Hreq : (forall s, requested = JStr s -> nonempty (trim s) = false) ->
                   trimmed_string requested = None).
    { intros H. destruct requested as [| | | |s| |]; try reflexivity.
      cbn. now rewrite (H s eq_refl). }
    split; [|split].
    + intros s -> Hs. cbn. now rewrite Hs.
    + intros Hnone t -> Ht. rewrite (Hreq Hnone). cbn. now rewrite Ht.
    + intros Hnone Hstored. rewrite (Hreq Hnone).
      destruct stored as [t|]; [|reflexivity].
      cbn. now rewrite (Hstored t eq_refl).
  - intros request env w session st1 promptMessages snippets raw modelStream
      payload sessionId message model Hbody Hid Hmsg Hread Hctx Hai Hraw.
    rewrite (handleChatRequest_valid request env w session st1 Hbody Hid Hmsg Hread).
    fold payload sessionId message model. rewrite Hctx, Hai, Hraw.
    do 2 eexists. split; [reflexivity|].
    destruct (Response_accepts (raw_status raw) (raw_statusText raw));
      split; intros H; try discriminate H; [split|]; reflexivity.
Qed.

End ModelSelection.

(** The three cases on concrete ids: a padded requested id wins over a
    stored one, a blank requested id gives way to the stored one, and with
    neither the default is used. *)
Lemma selectModelId_priority_witness :
  Worker.selectModelId (P := Example.platform)
    (JStr (lit " @cf/custom ")) (Some (lit "@cf/stored")) DEFAULT_MODEL_ID
    = lit "@cf/custom" /\
  Worker.selectModelId (P := Example.platform)
    (JStr (lit "  ")) (Some (lit "@cf/stored")) DEFAULT_MODEL_ID
    = lit "@cf/stored" /\
  Worker.selectModelId (P := Example.platform)
    JUndefined None DEFAULT_MODEL_ID
    = DEFAULT_MODEL_ID.
Proof.
  split; [|split].
  - apply (proj1 (proj1 (selectModelId_priority
                           (P := Example.platform) (J := Example.parser))
                    (JStr (lit " @cf/custom ")) (Some (lit "@cf/stored"))
                    DEFAULT_MODEL_ID) (lit " @cf/custom ")); reflexivity.
  - refine (proj1 (proj2 (proj1 (selectModelId_priority
                                   (P := Example.platform) (J := Example.parser))
                    (JStr (lit "  ")) (Some (lit "@cf/stored"))
                    DEFAULT_MODEL_ID)) _ (lit "@cf/stored") _ _).
    + intros s [= <-]. reflexivity.
    + reflexivity.
    + reflexivity.
  - apply (proj2 (proj2 (proj1 (selectModelId_priority
                                  (P := Example.platform) (J := Example.parser))
                    JUndefined None DEFAULT_MODEL_ID))).
    + intros s [=].
    + intros t [=].
Defined.

Section RetrievalClaim.
Context {P : Platform} {J : Worker.JsonParser}.
Import Worker.

(** C7.  [buildRetrievalContext] always returns and never throws.  When
    the embedding model throws, when its answer holds no embedding for the
    question (a null answer, no data, a null entry, an embedding that is
    missing or not an array), when the vector query throws, or when no
    match yields a snippet (null matches, missing or malformed metadata),
    it returns the empty context: no prompt message and no snippet.  A chat
    request that passes validation is therefore answered with the model's
    stream, under the status of the model's answer, whenever the chat model
    delivers one that [new Response] accepts, whatever the embedding model
    and the vector index do; with the empty context the client's stream is
    the model's stream itself. *)
Theorem retrieval_never_fails_the_turn (env : Env) :
  (forall question,
     exists prompt snippets,
       buildRetrievalContext env question = Ok (prompt, snippets)) /\
  (forall question e,
     AI_run_embedding env [truncate EMBEDDING_MAX_CHARS (trim question)] = Throw e ->
     buildRetrievalContext env question = Ok ([], [])) /\
  (forall question response,
     AI_run_embedding env [truncate EMBEDDING_MAX_CHARS (trim question)] = Ok response ->
     match embedding_data response with
     | Some item :: _ => embedding item
     | _ => None
     end = None ->
     buildRetrievalContext env question = Ok ([], [])) /\
  (forall question vector e,
     embedText env (trim question) = Ok (Some vector) ->
     VECTORIZE_query env vector MAX_CONTEXT_CHUNKS = Throw e ->
     buildRetrievalContext env question = Ok ([], [])) /\
  (forall question vector queryResult,
     embedText env (trim question) = Ok (Some vector) ->
     VECTORIZE_query env vector MAX_CONTEXT_CHUNKS = Ok queryResult ->
     forallb (fun m => negb (usable_match m)) (query_matches queryResult) = true ->
     buildRetrievalContext env question = Ok ([], [])) /\
  (forall request w,
     let payload := safeJson request in
     let sessionId := string_field payload "sessionId" in
     let message := string_field payload "message" in
     truthy payload = true -> nonempty sessionId = true -> nonempty message = true ->
     (forall model messages,
        exists raw modelStream,
          AI_run_chat env model messages = Ok raw /\
          raw_body raw = Some modelStream /\
          Response_accepts (raw_status raw) (raw_statusText raw) = true) ->
     exists response ctx w' raw modelStream prompt snippets,
       handleChatRequest request env w = (Ok (response, ctx), w') /\
       buildRetrievalContext env message = Ok (prompt, snippets) /\
       AI_run_chat env
         (selectModelId (get payload "modelId") (session_modelId w sessionId)
            DEFAULT_MODEL_ID)
         ([ChatMessage "system" SYSTEM_PROMPT] ++ prompt
          ++ slice_last MAX_HISTORY (session_messages w sessionId)
          ++ [ChatMessage "user" message]) = Ok raw /\
       raw_body raw = Some modelStream /\
       status response = raw_status raw /\
       body response = StreamBody (prependContextStream modelStream snippets) /\
       (snippets = [] -> body response = StreamBody modelStream)).
Proof.
  split; [|split; [|split; [|split; [|split]]]].
  - intros question. apply buildRetrievalContext_total.
  - intros question e H. apply buildRetrievalContext_no_embedding.
    now apply embedText_throw with (e := e).
  - intros question response H Hnone.
    apply buildRetrievalContext_no_embedding.
    unfold embedText, try_catch, rbind. rewrite H. f_equal.
    unfold embedding_data in Hnone.
    destruct response as [[[[|[item|] items]|]]|]; try reflexivity.
    exact Hnone.
  - intros question vector e. apply buildRetrievalContext_query_throws.
  - intros question vector queryResult.
    apply buildRetrievalContext_no_usable_match.
  - intros request w payload sessionId message Hbody Hid Hmsg Hchat.
    destruct (getSessionRecord_total (session_state w sessionId))
      as (session & st1 & Hread).
    rewrite (handleChatRequest_valid request env w session st1 Hbody Hid Hmsg Hread).
    fold payload sessionId message.
    assert (Hmodel : SessionDurableObject.modelId session = session_modelId w sessionId).
    { unfold session_modelId. now rewrite Hread. }
    assert (Hbefore : SessionDurableObject.messages session
                      = session_messages w sessionId).
    { unfold session_messages, SessionDurableObject.stored_messages.
      now rewrite Hread. }
    rewrite Hmodel, Hbefore.
    destruct (buildRetrievalContext_total env message)
      as (prompt & snippets & Hctx).
    rewrite Hctx.
    match goal with
    | |- context [AI_run_chat env ?model ?messages] =>
        destruct (Hchat model messages) as (raw & modelStream & Hai & Hraw & Haccepts);
        rewrite Hai, Hraw, Haccepts;
        exists {| status := raw_status raw; statusText := raw_statusText raw;
                  headers := raw_headers raw;
                  body := StreamBody (prependContextStream modelStream snippets) |};
        eexists; eexists;
        exists raw, modelStream, prompt, snippets
    end.
    split; [reflexivity|]. repeat split; try assumption.
    intros ->. reflexivity.
Qed.

End RetrievalClaim.

(** With the embedding model out of service the context is empty, and
    the chat request is still answered with the model's stream. *)
Lemma retrieval_never_fails_the_turn_witness :
  Worker.buildRetrievalContext (P := Example.platform)
    Example.env_embedding_down (lit "hi") = Ok ([], []) /\
  exists response ctx w' raw modelStream prompt snippets,
    Worker.handleChatRequest (J := Example.parser)
      Example.hi_request Example.env_embedding_down Example.empty_world
      = (Ok (response, ctx), w') /\
    Worker.buildRetrievalContext Example.env_embedding_down (lit "hi")
      = Ok (prompt, snippets) /\
    Worker.AI_run_chat Example.env_embedding_down
      (Worker.selectModelId (@JUndefined Example.platform)
         (Worker.session_modelId Example.empty_world (lit "s1")) DEFAULT_MODEL_ID)
      ([ChatMessage "system" SYSTEM_PROMPT] ++ prompt
       ++ slice_last MAX_HISTORY
            (Worker.session_messages Example.empty_world (lit "s1"))
       ++ [ChatMessage "user" (lit "hi")]) = Ok raw /\
    Worker.raw_body raw = Some modelStream /\
    status response = Worker.raw_status raw /\
    body response = StreamBody (Worker.prependContextStream modelStream snippets) /\
    (snippets = [] -> body response = StreamBody modelStream).
Proof.
  split.
  - apply (proj1 (proj2 (retrieval_never_fails_the_turn
                           (P := Example.platform) (J := Example.parser)
                           Example.env_embedding_down))
             (lit "hi") (ErrorObject (lit "model unavailable"))).
    reflexivity.
  - apply (proj2 (proj2 (proj2 (proj2 (proj2
             (retrieval_never_fails_the_turn
                (P := Example.platform) (J := Example.parser)
                Example.env_embedding_down)))))).
    + reflexivity.
    + reflexivity.
    + reflexivity.
    + intros model messages. do 2 eexists. repeat split; reflexivity.
Defined.

(** ** The response stream *)

Section Lines.
Context {P : Platform}.
Import Worker.



(** Induction that follows a function reading one or two code units at
    a time. *)
Lemma two_step_ind (Q : list N -> Prop) :
  Q [] -> (forall c, Q [c]) ->
  (forall c d s, Q s -> Q (d :: s) -> Q (c :: d :: s)) ->
  forall s, Q s.
Proof.
  intros H0 H1 H2 s.
  assert (H : Q s /\ forall c, Q (c :: s)).
  { induction s as [|d s [IHs IHc]]; [split; auto|].
    split; [apply IHc|]. intros c. apply H2; [exact IHs|apply IHc]. }
  apply H.
Qed.













End Lines.

Section Stream.
Context {P : Platform} {J : Worker.JsonParser}.
Import Worker.

(** The loop forwards every chunk, in order. *)
Lemma pump_all (source queue : list (list N)) : pump source queue = queue ++ source.
Proof.
  revert queue. induction source as [|value source IH]; intros queue.
  - now rewrite app_nil_r.
  - cbn [pump chunk_truthy]. rewrite IH. now rewrite <- app_assoc.
Qed.









End Stream.


(** ** Embedding the chunks of a document *)

Section Embeddings.
Context {P : Platform}.
Import Worker.

Lemma filter_all {A} (f : A -> bool) (l : list A) :
  forallb f l = true -> List.filter f l = l.
Proof.
  induction l as [|x l IH]; intros H; [reflexivity|].
  cbn in *. apply andb_true_iff in H as [-> H]. now rewrite IH.
Qed.

Lemma filter_seq_sorted (f : nat -> bool) (n a : nat) :
  StronglySorted lt (List.filter f (seq a n)).
Proof.
  revert a. induction n as [|n IH]; intros a; [constructor|].
  cbn [seq List.filter].
  destruct (f a); [|apply IH].
  constructor; [apply IH|].
  apply Forall_forall. intros i Hi.
  apply list_elem_of_In, filter_In in Hi as [Hi _]. apply in_seq in Hi. lia.
Qed.

(** The loop over the chunks: a record is added for each chunk whose
    embedding is a non-empty array, under the position of that chunk;
    the other chunks are passed over.  Nothing but the clock is touched. *)
Lemma forEach_chunk_spec (embeddingData : list (option EmbeddingItem))
    (docId : jsstring) (meta : DocumentMetadata) (chunks : list jsstring) :
  forall (index : nat) (upserts : list VectorRecord) (w : World),
  exists added w',
    forEach_chunk embeddingData docId meta chunks index upserts w
    = (Ok (upserts ++ added), w') /\
    chunk_indices added
    = List.filter (has_embedding embeddingData) (seq index (length chunks)) /\
    Forall (fun r =>
              exists i,
                md_chunkIndex (metadata r) = index + i /\
                chunks !! i = Some (md_text (metadata r)) /\
                id r = docId ++ lit "#" ++ nat_to_string (index + i))
      added /\
    upsert_calls w' = upsert_calls w /\ sessions w' = sessions w.
Proof.
  induction chunks as [|chunk chunks IH]; intros index upserts w.
  - exists [], w. cbn. rewrite app_nil_r. repeat split; constructor.
  - cbn [forEach_chunk length seq List.filter]. unfold has_embedding at 1.
    assert (Hshift : forall added : list VectorRecord,
      Forall (fun r =>
                exists i,
                  md_chunkIndex (metadata r) = S index + i /\
                  chunks !! i = Some (md_text (metadata r)) /\
                  id r = docId ++ lit "#" ++ nat_to_string (S index + i)) added ->
      Forall (fun r =>
                exists i,
                  md_chunkIndex (metadata r) = index + i /\
                  (chunk :: chunks) !! i = Some (md_text (metadata r)) /\
                  id r = docId ++ lit "#" ++ nat_to_string (index + i)) added).
    { intros added Hadded. eapply Forall_impl; [exact Hadded|]. cbn beta.
      intros r (i & Hi & Hc & Hid).
      exists (S i). replace (index + S i) with (S index + i) by lia.
      auto. }
    destruct (embeddingData !! index) as [[item|]|];
      [destruct (embedding item) as [[|x v]|]| |].
    2: { unfold bind, new_Date_toISOString.
         match goal with
         | |- context [forEach_chunk _ _ _ _ _ (upserts ++ [?r]) ?w1] =>
             destruct (IH (S index) (upserts ++ [r]) w1)
               as (added & w' & -> & Hidx & Hall & Hups & Hses);
             exists (r :: added), w'
         end.
         split; [now rewrite <- app_assoc|].
         split; [cbn [chunk_indices map metadata md_chunkIndex];
                 unfold chunk_indices in Hidx; now rewrite Hidx|].
         split; [|split; assumption].
         constructor; [|now apply Hshift].
         exists 0. cbn. rewrite Nat.add_0_r. auto. }
    all: destruct (IH (S index) upserts w)
           as (added & w' & -> & Hidx & Hall & Hups & Hses);
         exists added, w'; repeat split; auto.
Qed.

(** What [generateEmbeddingsForChunks] does with the answer of the
    embedding model. *)
Lemma generateEmbeddingsForChunks_mismatch (env : Env) (chunks : list jsstring)
    (maxChunkLength : nat) (docId : jsstring) (meta : DocumentMetadata) (w : World)
    (response : option EmbeddingResponse) :
  AI_run_embedding env (map (truncate maxChunkLength) chunks) = Ok response ->
  length (embedding_data response) <> length chunks ->
  generateEmbeddingsForChunks env chunks maxChunkLength docId meta w
  = (Throw (ErrorObject
              (count_mismatch_message (length (embedding_data response))
                 (length chunks))), w).
Proof.
  intros Hai Hlen. unfold generateEmbeddingsForChunks, bind, lift.
  rewrite Hai. rewrite length_map.
  apply Nat.eqb_neq in Hlen. rewrite Hlen. reflexivity.
Qed.

Lemma generateEmbeddingsForChunks_ok (env : Env) (chunks : list jsstring)
    (maxChunkLength : nat) (docId : jsstring) (meta : DocumentMetadata)
    (w w' : World) (upserts : list VectorRecord) :
  generateEmbeddingsForChunks env chunks maxChunkLength docId meta w
  = (Ok upserts, w') ->
  exists response,
    AI_run_embedding env (map (truncate maxChunkLength) chunks) = Ok response /\
    length (embedding_data response) = length chunks /\
    forEach_chunk (embedding_data response) docId meta
      (map (truncate maxChunkLength) chunks) 0 [] w = (Ok upserts, w') /\
    upserts <> [].
Proof.
  unfold generateEmbeddingsForChunks, bind, lift.
  destruct (AI_run_embedding env _) as [response|e]; [|discriminate].
  rewrite length_map.
  destruct (length (embedding_data response) =? length chunks) eqn:Hlen;
    cbn [negb]; [|discriminate].
  apply Nat.eqb_eq in Hlen.
  destruct (forEach_chunk _ _ _ _ _ _ w) as [[ups|e] w1] eqn:Hloop;
    [|discriminate].
  destruct ups as [|r ups]; [discriminate|].
  unfold ret. cbn [length Nat.eqb]. intros [= <- <-].
  exists response. repeat split; auto; discriminate.
Qed.

(** Whether it returns or throws, [generateEmbeddingsForChunks] makes no
    call to the vector index and writes to no session. *)
Lemma generateEmbeddingsForChunks_pure (env : Env) (chunks : list jsstring)
    (maxChunkLength : nat) (docId : jsstring) (meta : DocumentMetadata) (w : World) :
  upsert_calls (snd (generateEmbeddingsForChunks env chunks maxChunkLength docId meta w))
  = upsert_calls w.
Proof.
  unfold generateEmbeddingsForChunks, bind, lift.
  destruct (AI_run_embedding env _) as [response|e]; [|reflexivity].
  destruct (negb _); [reflexivity|].
  destruct (forEach_chunk_spec (embedding_data response) docId meta
              (map (truncate maxChunkLength) chunks) 0 [] w)
    as (added & w' & -> & _ & _ & Hups & _).
  destruct (length ([] ++ added) =? 0); exact Hups.
Qed.

(** After a successful [generateEmbeddingsForChunks] the records carry,
    in increasing order, the positions of the chunks whose embedding is a
    non-empty array. *)
Lemma generateEmbeddingsForChunks_indices (env : Env) (chunks : list jsstring)
    (maxChunkLength : nat) (docId : jsstring) (meta : DocumentMetadata)
    (w w' : World) (upserts : list VectorRecord) :
  generateEmbeddingsForChunks env chunks maxChunkLength docId meta w
  = (Ok upserts, w') ->
  exists response,
    AI_run_embedding env (map (truncate maxChunkLength) chunks) = Ok response /\
    chunk_indices upserts
    = List.filter (has_embedding (embedding_data response)) (seq 0 (length chunks)) /\
    StronglySorted lt (chunk_indices upserts) /\
    Forall (fun r =>
              map (truncate maxChunkLength) chunks !! md_chunkIndex (metadata r)
              = Some (md_text (metadata r)) /\
              id r = docId ++ lit "#" ++ nat_to_string (md_chunkIndex (metadata r)))
      upserts /\
    (forallb (has_embedding (embedding_data response)) (seq 0 (length chunks)) = true ->
     chunk_indices upserts = seq 0 (length upserts)).
Proof.
  intros Hrun.
  destruct (generateEmbeddingsForChunks_ok _ _ _ _ _ _ _ _ Hrun)
    as (response & Hai & Hlen & Hloop & Hne).
  exists response. split; [exact Hai|].
  destruct (forEach_chunk_spec (embedding_data response) docId meta
              (map (truncate maxChunkLength) chunks) 0 [] w)
    as (added & w1 & Hloop' & Hidx & Hall & _ & _).
  rewrite Hloop in Hloop'. cbn [app] in Hloop'. injection Hloop' as -> ->.
  rewrite length_map in Hidx.
  split; [exact Hidx|]. split; [|split].
  - rewrite Hidx. apply filter_seq_sorted.
  - eapply Forall_impl; [exact Hall|]. cbn beta.
    intros r (i & Hi & Hc & Hid). cbn [Nat.add] in Hi, Hid. subst i. auto.
  - intros Hevery. rewrite Hidx, (filter_all _ _ Hevery).
    f_equal.
    assert (Hcount : length (chunk_indices added) = length (seq 0 (length chunks)))
      by now rewrite Hidx, (filter_all _ _ Hevery).
    unfold chunk_indices in Hcount. rewrite length_map, length_seq in Hcount.
    congruence.
Qed.

(** When the embedding model answers a batch with a number of entries
    different from the number of chunks, [generateEmbeddingsForChunks]
    throws the count-mismatch error; whenever it returns records, the
    answer had one entry per chunk.  It never calls the vector index. *)
Lemma embedding_count_checked (env : Env) (chunks : list jsstring)
    (maxChunkLength : nat) (docId : jsstring) (meta : DocumentMetadata) (w : World) :
  (forall response,
     AI_run_embedding env (map (truncate maxChunkLength) chunks) = Ok response ->
     length (embedding_data response) <> length chunks ->
     generateEmbeddingsForChunks env chunks maxChunkLength docId meta w
     = (Throw (ErrorObject
                 (count_mismatch_message (length (embedding_data response))
                    (length chunks))), w)) /\
  (forall upserts w',
     generateEmbeddingsForChunks env chunks maxChunkLength docId meta w
     = (Ok upserts, w') ->
     exists response,
       AI_run_embedding env (map (truncate maxChunkLength) chunks) = Ok response /\
       length (embedding_data response) = length chunks /\
       length upserts <= length chunks) /\
  upsert_calls (snd (generateEmbeddingsForChunks env chunks maxChunkLength docId meta w))
  = upsert_calls w.
Proof.
  split; [|split].
  - intros response. apply generateEmbeddingsForChunks_mismatch.
  - intros upserts w' Hrun.
    destruct (generateEmbeddingsForChunks_ok _ _ _ _ _ _ _ _ Hrun)
      as (response & Hai & Hlen & Hloop & _).
    exists response. repeat split; try assumption.
    destruct (forEach_chunk_spec (embedding_data response) docId meta
                (map (truncate maxChunkLength) chunks) 0 [] w)
      as (added & w1 & Hloop' & Hidx & _).
    rewrite Hloop in Hloop'. cbn [app] in Hloop'. injection Hloop' as -> ->.
    assert (Hcount : length (chunk_indices added) <= length chunks).
    { rewrite Hidx.
      etransitivity; [apply filter_length_le|].
      now rewrite length_seq, length_map. }
    unfold chunk_indices in Hcount. now rewrite length_map in Hcount.
  - apply generateEmbeddingsForChunks_pure.
Qed.

End Embeddings.

(** ** [POST /api/docs] *)

Section Upload.
Context {P : Platform}.
Import Worker.

Lemma trimStart_blank (s : jsstring) :
  trimStart s = [] <-> forallb is_ws s = true.
Proof.
  induction s as [|c s IH]; cbn; [tauto|].
  destruct (is_ws c); cbn; [exact IH|]. split; discriminate.
Qed.

(** A text trims to nothing exactly when it is white space only. *)
Lemma trim_blank (s : jsstring) :
  nonempty (trim s) = false <-> forallb is_ws s = true.
Proof.
  split.
  - intros H. destruct (trim_split s) as (pre & post & Hs & Hpre & Hpost).
    destruct (trim s); [|discriminate].
    rewrite Hs. cbn [app]. now rewrite forallb_app, Hpre, Hpost.
  - intros H. apply trimStart_blank in H. unfold trim. now rewrite H.
Qed.

Lemma crlf_to_lf_step (c d : N) (s : jsstring) :
  crlf_to_lf (c :: d :: s) =
  if N.eqb c 13 && N.eqb d 10 then NL :: crlf_to_lf s
  else c :: crlf_to_lf (d :: s).
Proof. reflexivity. Qed.

Lemma crlf_to_lf_blank (s : jsstring) :
  forallb is_ws s = true -> forallb is_ws (crlf_to_lf s) = true.
Proof.
  induction s as [|c|c d s IHs IHd] using two_step_ind; intros H.
  - reflexivity.
  - exact H.
  - rewrite crlf_to_lf_step.
    cbn [forallb] in H. apply andb_true_iff in H as [Hc H].
    pose proof H as Hds. cbn [forallb] in H. apply andb_true_iff in H as [_ Hs].
    destruct (N.eqb c 13 && N.eqb d 10); cbn [forallb].
    + now rewrite (IHs Hs).
    + rewrite Hc. now apply IHd.
Qed.

Lemma blank_after_crlf (s : jsstring) :
  nonempty (trim s) = false -> nonempty (trim (crlf_to_lf s)) = false.
Proof.
  intros H. apply trim_blank. apply crlf_to_lf_blank. now apply trim_blank.
Qed.

Lemma truncate_nil (limit : nat) : truncate limit [] = [].
Proof.
  unfold truncate. cbn [length].
  destruct (limit <? 0) eqn:H; [|reflexivity].
  apply Nat.ltb_lt in H. lia.
Qed.

Lemma document_chunks_blank (rawText : jsstring) :
  nonempty (trim (crlf_to_lf rawText)) = false -> document_chunks rawText = [].
Proof.
  intros H. unfold document_chunks.
  destruct (trim (crlf_to_lf rawText)); [|discriminate].
  now rewrite truncate_nil.
Qed.

(** The second half of the upload handler on a document that has
    chunks. *)
Lemma indexDocument_run (request : Request) (env : Env)
    (docTitle rawText sourceType0 : jsstring) (originalFileName : option jsstring)
    (w : World) :
  document_chunks rawText <> [] ->
  let sourceType :=
    match header_x_source_type request with Some h => h | None => sourceType0 end in
  indexDocument request env docTitle rawText sourceType0 originalFileName w =
  bind crypto_randomUUID (fun docId =>
    bind (generateEmbeddingsForChunks env (document_chunks rawText)
            EMBEDDING_MAX_CHARS docId
            {| doc_title := docTitle; doc_sourceType := sourceType;
               doc_originalFileName := originalFileName |})
      (fun upserts =>
         bind (vectorize_upsert env upserts) (fun _ =>
           ret (jsonResponse
                  (JObj [(lit "docId", JStr docId);
                         (lit "title", JStr docTitle);
                         (lit "chunks", JNum (number_of_nat (length upserts)));
                         (lit "sourceType", JStr sourceType)])
                  200)))) w.
Proof.
  intros Hchunks sourceType. unfold indexDocument. fold sourceType.
  destruct (nonempty (trim (crlf_to_lf rawText))) eqn:Hclean;
    [|now apply document_chunks_blank in Hclean].
  cbn [negb].
  change (List.filter (fun chunk => 0 <? length chunk)
            (map trim (Chunker.chunkText
                         (truncate DOCUMENT_MAX_CHARS (trim (crlf_to_lf rawText))))))
    with (document_chunks rawText).
  destruct (document_chunks rawText) as [|c cs]; [congruence|].
  reflexivity.
Qed.

(** A count mismatch under the handler's [catch]: status 500 with the
    mismatch message, and no call to the vector index. *)
Lemma indexDocument_mismatch (request : Request) (env : Env)
    (docTitle rawText sourceType0 : jsstring) (originalFileName : option jsstring)
    (w : World) (response : option EmbeddingResponse) :
  document_chunks rawText <> [] ->
  AI_run_embedding env (map (truncate EMBEDDING_MAX_CHARS) (document_chunks rawText))
    = Ok response ->
  length (embedding_data response) <> length (document_chunks rawText) ->
  exists w',
    catch (indexDocument request env docTitle rawText sourceType0 originalFileName)
      upload_failure w
    = (Ok (jsonResponse
             (error_payload
                (count_mismatch_message (length (embedding_data response))
                   (length (document_chunks rawText)))) 500), w') /\
    upsert_calls w' = upsert_calls w /\ sessions w' = sessions w.
Proof.
  intros Hchunks Hai Hlen. unfold catch.
  rewrite indexDocument_run by assumption.
  unfold bind at 1. unfold crypto_randomUUID at 1. unfold bind at 1.
  erewrite generateEmbeddingsForChunks_mismatch by eassumption.
  eexists. split; [reflexivity|]. split; reflexivity.
Qed.

(** The vector index is called at most once per upload, and with the
    records that [generateEmbeddingsForChunks] returned. *)
Lemma indexDocument_upserts (request : Request) (env : Env)
    (docTitle rawText sourceType0 : jsstring) (originalFileName : option jsstring)
    (w : World) :
  let w' := snd (indexDocument request env docTitle rawText sourceType0
                   originalFileName w) in
  upsert_calls w' = upsert_calls w \/
  exists chunks docId meta w0 w1 records,
    generateEmbeddingsForChunks env chunks EMBEDDING_MAX_CHARS docId meta w0
      = (Ok records, w1) /\
    upsert_calls w' = upsert_calls w ++ [records].
Proof.
  intros w'. subst w'.
  destruct (list_eq_nil_dec (document_chunks rawText)) as [Hnil|Hchunks].
  - left. unfold indexDocument.
    destruct (negb (nonempty (trim (crlf_to_lf rawText)))); [reflexivity|].
    change (List.filter (fun chunk => 0 <? length chunk)
              (map trim (Chunker.chunkText
                           (truncate DOCUMENT_MAX_CHARS (trim (crlf_to_lf rawText))))))
      with (document_chunks rawText).
    rewrite Hnil. reflexivity.
  - rewrite indexDocument_run by assumption.
    unfold bind, crypto_randomUUID, vectorize_upsert, ret. cbv beta.
    match goal with
    | |- context [generateEmbeddingsForChunks env ?c ?m ?d ?meta ?w0] =>
        pose proof (generateEmbeddingsForChunks_pure env c m d meta w0) as Hpure;
        destruct (generateEmbeddingsForChunks env c m d meta w0)
          as [[upserts|e] w1] eqn:Hgen
    end; cbn [snd upsert_calls] in Hpure.
    + right. do 5 eexists. exists upserts.
      split; [exact Hgen|].
      destruct (VECTORIZE_upsert env upserts); cbn [snd upsert_calls];
        now rewrite Hpure.
    + left. exact Hpure.
Qed.

Lemma handleDocumentUpload_upserts (request : Request) (env : Env) (w : World) :
  let w' := snd (handleDocumentUpload request env w) in
  upsert_calls w' = upsert_calls w \/
  exists chunks docId meta w0 w1 records,
    generateEmbeddingsForChunks env chunks EMBEDDING_MAX_CHARS docId meta w0
      = (Ok records, w1) /\
    upsert_calls w' = upsert_calls w ++ [records].
Proof.
  assert (Hcatch : forall body : M World Response,
    snd (catch body upload_failure w) = snd (body w)).
  { intros body. unfold catch. destruct (body w) as [[r|e] w1]; reflexivity. }
  intros w'. subst w'. unfold handleDocumentUpload. rewrite Hcatch.
  match goal with
  | |- context [snd ?run] =>
      pattern (snd run);
      match goal with |- ?f _ => set (Q := f) end
  end.
  assert (Hsame : Q w) by (subst Q; now left).
  assert (Hindex : forall t r s f, Q (snd (indexDocument request env t r s f w)))
    by (intros; subst Q; apply indexDocument_upserts).
  destruct (includes _ (lit "multipart/form-data")).
  - unfold bind at 1, lift at 1.
    destruct (request_formData request) as [formData|e]; [|exact Hsame].
    destruct (form_file formData) as [[s|fileField]|]; try apply Hindex.
    unfold bind at 1, lift at 1.
    destruct (extractTextFromUpload fileField env) as [extraction|e];
      [apply Hindex|exact Hsame].
  - destruct (negb (truthy (safeJson request))); [exact Hsame|apply Hindex].
Qed.

(** The upload handler on a JSON body. *)
Lemma handleDocumentUpload_json (env : Env) (payload : jsval) (w : World) :
  truthy payload = true ->
  handleDocumentUpload (json_upload payload) env w =
  catch
    (indexDocument (json_upload payload) env
       match trimmed_string (get payload "title") with
       | Some t => t
       | None => lit "Untitled document"
       end
       match get payload "text" with
       | JStr t => if nonempty (trim t) then t else []
       | _ => []
       end
       (lit "manual") None)
    upload_failure w.
Proof.
  intros H. unfold handleDocumentUpload, json_upload, safeJson.
  cbn [header_content_type request_json].
  replace (includes (lit "application/json") (lit "multipart/form-data"))
    with false by reflexivity.
  rewrite H. reflexivity.
Qed.

(** C6.  When the embedding model answers a batch with a number of
    entries different from the number of chunks, [generateEmbeddingsForChunks]
    throws the count-mismatch error and the upload is answered with status
    500 and that message, the vector index not having been called: nothing
    is cut or padded to fit.  Whenever records are produced, and whenever
    the upload handler calls the vector index, the answer of the embedding
    model had exactly one entry per chunk. *)
Theorem embedding_count_mismatch_is_fatal (env : Env) :
  (forall chunks maxChunkLength docId meta w response,
     AI_run_embedding env (map (truncate maxChunkLength) chunks) = Ok response ->
     length (embedding_data response) <> length chunks ->
     generateEmbeddingsForChunks env chunks maxChunkLength docId meta w
     = (Throw (ErrorObject
                 (count_mismatch_message (length (embedding_data response))
                    (length chunks))), w)) /\
  (forall chunks maxChunkLength docId meta w upserts w',
     generateEmbeddingsForChunks env chunks maxChunkLength docId meta w
     = (Ok upserts, w') ->
     exists response,
       AI_run_embedding env (map (truncate maxChunkLength) chunks) = Ok response /\
       length (embedding_data response) = length chunks /\
       length upserts <= length chunks) /\
  (forall payload rawText w response,
     truthy payload = true ->
     get payload "text" = JStr rawText ->
     document_chunks rawText <> [] ->
     AI_run_embedding env (map (truncate EMBEDDING_MAX_CHARS) (document_chunks rawText))
       = Ok response ->
     length (embedding_data response) <> length (document_chunks rawText) ->
     exists w',
       handleDocumentUpload (json_upload payload) env w
       = (Ok (jsonResponse
                (error_payload
                   (count_mismatch_message (length (embedding_data response))
                      (length (document_chunks rawText)))) 500), w') /\
       upsert_calls w' = upsert_calls w) /\
  (forall request w,
     let w' := snd (handleDocumentUpload request env w) in
     upsert_calls w' = upsert_calls w \/
     exists chunks response records,
       AI_run_embedding env (map (truncate EMBEDDING_MAX_CHARS) chunks) = Ok response /\
       length (embedding_data response) = length chunks /\
       upsert_calls w' = upsert_calls w ++ [records]).
Proof.
  split; [|split; [|split]].
  - intros chunks maxChunkLength docId meta w response.
    apply generateEmbeddingsForChunks_mismatch.
  - intros chunks maxChunkLength docId meta w.
    apply (embedding_count_checked env chunks maxChunkLength docId meta w).
  - intros payload rawText w response Hbody Htext Hchunks Hai Hlen.
    rewrite handleDocumentUpload_json by assumption. rewrite Htext.
    assert (Hraw : (if nonempty (trim rawText) then rawText else []) = rawText).
    { destruct (nonempty (trim rawText)) eqn:Ht; [reflexivity|].
      exfalso. apply Hchunks. apply document_chunks_blank.
      now apply blank_after_crlf. }
    rewrite Hraw.
    destruct (indexDocument_mismatch (json_upload payload) env
                match trimmed_string (get payload "title") with
                | Some t => t
                | None => lit "Untitled document"
                end rawText (lit "manual") None w response Hchunks Hai Hlen)
      as (w' & Hrun & Hups & _).
    exists w'. split; assumption.
  - intros request w w'.
    destruct (handleDocumentUpload_upserts request env w)
      as [Hsame|(chunks & docId & meta & w0 & w1 & records & Hgen & Hcalls)];
      [now left|right].
    destruct (generateEmbeddingsForChunks_ok _ _ _ _ _ _ _ _ Hgen)
      as (response & Hai & Hlen & _ & _).
    exists chunks, response, records. auto.
Qed.

(** C5, as amended.  After a successful [generateEmbeddingsForChunks] the
    records carry, in increasing order, the positions of the chunks whose
    embedding is a non-empty array: each record holds the chunk at its
    index and the id [docId#index].  The indices are [0, 1, ..., count-1]
    when every chunk has such an embedding; a skipped chunk leaves its
    index unused.  The records an upload hands to the vector index are
    records made in this way. *)
Theorem upserted_indices_are_chunk_positions (env : Env) :
  (forall chunks maxChunkLength docId meta w w' upserts,
     generateEmbeddingsForChunks env chunks maxChunkLength docId meta w
     = (Ok upserts, w') ->
     exists response,
       AI_run_embedding env (map (truncate maxChunkLength) chunks) = Ok response /\
       chunk_indices upserts
       = List.filter (has_embedding (embedding_data response))
           (seq 0 (length chunks)) /\
       StronglySorted lt (chunk_indices upserts) /\
       Forall (fun r =>
                 map (truncate maxChunkLength) chunks !! md_chunkIndex (metadata r)
                 = Some (md_text (metadata r)) /\
                 id r = docId ++ lit "#" ++ nat_to_string (md_chunkIndex (metadata r)))
         upserts /\
       (forallb (has_embedding (embedding_data response)) (seq 0 (length chunks))
        = true ->
        chunk_indices upserts = seq 0 (length upserts))) /\
  (forall request w,
     let w' := snd (handleDocumentUpload request env w) in
     upsert_calls w' = upsert_calls w \/
     exists chunks response records,
       AI_run_embedding env (map (truncate EMBEDDING_MAX_CHARS) chunks) = Ok response /\
       upsert_calls w' = upsert_calls w ++ [records] /\
       chunk_indices records
       = List.filter (has_embedding (embedding_data response))
           (seq 0 (length chunks)) /\
       StronglySorted lt (chunk_indices records) /\
       (forallb (has_embedding (embedding_data response)) (seq 0 (length chunks))
        = true ->
        chunk_indices records = seq 0 (length records))).
Proof.
  split.
  - intros chunks maxChunkLength docId meta w w' upserts.
    apply generateEmbeddingsForChunks_indices.
  - intros request w w'.
    destruct (handleDocumentUpload_upserts request env w)
      as [Hsame|(chunks & docId & meta & w0 & w1 & records & Hgen & Hcalls)];
      [now left|right].
    destruct (generateEmbeddingsForChunks_indices _ _ _ _ _ _ _ _ Hgen)
      as (response & Hai & Hidx & Hsorted & _ & Hdense).
    exists chunks, response, records. auto.
Qed.

End Upload.

Section UnsupportedUpload.
Context {P : Platform}.
Import Worker.

(** C3, as amended.  A multipart upload whose file is neither text-like
    nor a PDF nor an image is answered with status 500 (the status of every
    error that reaches the handler's [catch], not 400) and the error
    [Unsupported file type "..."], which names the MIME type of the file
    or, when that is empty, its lower-cased name.  Nothing else happens: no
    call to the vector index, no change to any session. *)
Theorem unsupported_upload_is_rejected (request : Request) (env : Env) (w : World)
    (formData : FormData) (file : File) :
  includes match header_content_type request with Some c => c | None => [] end
    (lit "multipart/form-data") = true ->
  request_formData request = Ok formData ->
  form_file formData = Some (FormFile file) ->
  let lowerName := toLowerCase (file_name file) in
  let mime := toLowerCase (file_type file) in
  is_text_like lowerName mime = false ->
  is_pdf lowerName mime = false ->
  is_image mime = false ->
  handleDocumentUpload request env w =
  (Ok (jsonResponse
         (error_payload
            (lit "Unsupported file type " ++ [34%N]
             ++ (if nonempty mime then mime else lowerName) ++ [34%N]))
         500), w).
Proof.
  intros Hmulti Hform Hfile lowerName mime Htext Hpdf Himage.
  unfold handleDocumentUpload, catch. rewrite Hmulti.
  unfold bind at 1, lift at 1. rewrite Hform, Hfile.
  unfold bind at 1, lift at 1. unfold extractTextFromUpload.
  fold lowerName mime. rewrite Htext, Hpdf, Himage.
  reflexivity.
Qed.

End UnsupportedUpload.

(** [Setup.EXE], sent as [application/x-msdownload], is answered with
    status 500 and the world is as before. *)
Lemma unsupported_upload_is_rejected_witness :
  Worker.handleDocumentUpload Example.exe_upload Example.env Example.empty_world =
  (Ok (jsonResponse
         (error_payload
            (lit "Unsupported file type " ++ [34%N]
             ++ lit "application/x-msdownload" ++ [34%N]))
         500), Example.empty_world).
Proof.
  apply (unsupported_upload_is_rejected (P := Example.platform)
           Example.exe_upload Example.env Example.empty_world
           {| form_title := None; form_text := None;
              form_file := Some (FormFile Example.exe_file) |}
           Example.exe_file); reflexivity.
Defined.

(** C3 as stated fails: the upload of [Setup.EXE] is not answered with
    status 400. *)
Lemma unsupported_upload_is_not_a_400 :
  ~ exists response w',
      Worker.handleDocumentUpload Example.exe_upload Example.env Example.empty_world
      = (Ok response, w') /\
      status response = 400.
Proof.
  intros (response & w' & Hrun & Hstatus).
  apply (f_equal (fun run => match fst run with
                             | Ok r => status r
                             | Throw _ => 0
                             end)) in Hrun.
  cbn [fst] in Hrun. rewrite Hstatus in Hrun.
  vm_compute in Hrun. discriminate Hrun.
Qed.

(** C5 as stated fails: the document [notes] makes two chunks; the
    embedding of the first is an empty array, so the upload succeeds with
    one record, and the index of that record is 1, not 0. *)
Lemma skipped_chunk_leaves_a_gap :
  let run :=
    Worker.handleDocumentUpload Example.notes_upload
      Example.env_first_embedding_empty Example.empty_world in
  match fst run with Ok response => status response | Throw _ => 0 end = 200 /\
  map Worker.chunk_indices (Worker.upsert_calls (snd run)) = [[1]] /\
  ~ Forall (fun records =>
              Worker.chunk_indices records = seq 0 (length records))
      (Worker.upsert_calls (snd run)).
Proof.
  intros run. split; [|split].
  - vm_compute. reflexivity.
  - vm_compute. reflexivity.
  - intros H.
    assert (Hall : forallb
                     (fun records =>
                        bool_decide
                          (Worker.chunk_indices records = seq 0 (length records)))
                     (Worker.upsert_calls (snd run)) = true).
    { apply forallb_forall. intros records Hin. apply bool_decide_eq_true.
      rewrite Forall_forall in H. apply H. apply list_elem_of_In. exact Hin. }
    vm_compute in Hall. discriminate Hall.
Qed.

(** [upserted_indices_are_chunk_positions] on two chunks, the embedding
    of the first being an empty array: one record, with index 1. *)
Lemma upserted_indices_are_chunk_positions_witness :
  let meta :=
    {| Worker.doc_title := lit "notes"; Worker.doc_sourceType := lit "manual";
       Worker.doc_originalFileName := None |} in
  let run :=
    Worker.generateEmbeddingsForChunks Example.env_first_embedding_empty
      [lit "alpha"; lit "beta"] EMBEDDING_MAX_CHARS (lit "doc-0") meta
      Example.empty_world in
  let upserts := match fst run with Ok records => records | Throw _ => [] end in
  exists response,
    Worker.AI_run_embedding Example.env_first_embedding_empty
      (map (Worker.truncate EMBEDDING_MAX_CHARS) [lit "alpha"; lit "beta"])
    = Ok response /\
    Worker.chunk_indices upserts
    = List.filter (Worker.has_embedding (Worker.embedding_data response))
        (seq 0 (length [lit "alpha"; lit "beta"])) /\
    StronglySorted lt (Worker.chunk_indices upserts) /\
    Forall (fun r =>
              map (Worker.truncate EMBEDDING_MAX_CHARS) [lit "alpha"; lit "beta"]
                !! Worker.md_chunkIndex (Worker.metadata r)
              = Some (Worker.md_text (Worker.metadata r)) /\
              Worker.id r
              = lit "doc-0" ++ lit "#"
                ++ nat_to_string (Worker.md_chunkIndex (Worker.metadata r)))
      upserts /\
    (forallb (Worker.has_embedding (Worker.embedding_data response))
       (seq 0 (length [lit "alpha"; lit "beta"])) = true ->
     Worker.chunk_indices upserts = seq 0 (length upserts)).
Proof.
  intros meta run upserts.
  apply (proj1 (upserted_indices_are_chunk_positions (P := Example.platform)
                  Example.env_first_embedding_empty)
           [lit "alpha"; lit "beta"]
           EMBEDDING_MAX_CHARS (lit "doc-0") meta Example.empty_world (snd run)).
  reflexivity.
Defined.

(** A one-chunk document and an embedding model that returns no entry:
    the upload is answered with status 500 and the mismatch message, and
    the vector index is not called. *)
Lemma embedding_count_mismatch_is_fatal_witness :
  let env :=
    {| Worker.AI_run_embedding := fun _ => Ok (Example.embedding_response []);
       Worker.AI_run_chat := Worker.AI_run_chat Example.env;
       Worker.AI_run_pdf := Worker.AI_run_pdf Example.env;
       Worker.AI_run_ocr := Worker.AI_run_ocr Example.env;
       Worker.VECTORIZE_query := Worker.VECTORIZE_query Example.env;
       Worker.VECTORIZE_upsert := Worker.VECTORIZE_upsert Example.env;
       Worker.ASSETS_fetch := Worker.ASSETS_fetch Example.env |} in
  let payload := JObj [(lit "text", JStr (lit "hello world"))] in
  exists w',
    Worker.handleDocumentUpload (Worker.json_upload payload) env Example.empty_world
    = (Ok (jsonResponse
             (error_payload (Worker.count_mismatch_message 0 1)) 500), w') /\
    Worker.upsert_calls w' = Worker.upsert_calls Example.empty_world.
Proof.
  intros env payload.
  apply (proj1 (proj2 (proj2 (embedding_count_mismatch_is_fatal
                                (P := Example.platform) env)))
           payload (lit "hello world") Example.empty_world
           (Example.embedding_response [])).
  - reflexivity.
  - reflexivity.
  - vm_compute. discriminate.
  - reflexivity.
  - vm_compute. discriminate.
Defined.

(** ** Chat turns and the session store *)

Section ChatTurns.
Context {P : Platform} {J : Worker.JsonParser}.
Import Worker.

Lemma fetch_read (st : SessionDurableObject.State) :
  snd (SessionDurableObject.fetch SessionDurableObject.read_request st)
  = snd (SessionDurableObject.getSessionRecord st).
Proof.
  unfold SessionDurableObject.fetch, SessionDurableObject.read_request, inner_request.
  cbn [method pathname].
  replace (str_eqb (lit "GET") (lit "GET")) with true by reflexivity.
  replace (str_eqb (lit "/messages") (lit "/messages")) with true by reflexivity.
  cbn [andb]. unfold bind.
  destruct (getSessionRecord_total st) as (session & st' & ->). reflexivity.
Qed.

(** The body of the request [appendMessage] sends. *)
Lemma fetch_append (message : jsval) (model : jsstring)
    (st : SessionDurableObject.State) :
  SessionDurableObject.valid_message message = true ->
  snd (SessionDurableObject.fetch
         (SessionDurableObject.append_request
            (JObj [(lit "message", message); (lit "modelId", JStr model)])) st)
  = snd (SessionDurableObject.persistMessage message
           (trimmed_string (JStr model)) st).
Proof.
  intros Hv.
  rewrite fetch_post_accepted; [reflexivity|reflexivity|reflexivity|exact Hv].
Qed.

Lemma accepted_append (message : jsval) (model : jsstring) :
  SessionDurableObject.valid_message message = true ->
  SessionDurableObject.accepted_message
    (SessionDurableObject.append_request
       (JObj [(lit "message", message); (lit "modelId", JStr model)]))
  = Some message.
Proof.
  intros Hv. unfold SessionDurableObject.accepted_message,
    SessionDurableObject.append_request, inner_request, safeJson.
  cbn [method pathname request_json].
  replace (str_eqb (lit "POST") (lit "POST")) with true by reflexivity.
  replace (str_eqb (lit "/messages") (lit "/messages")) with true by reflexivity.
  change (get (JObj [(lit "message", message); (lit "modelId", JStr model)]) "message")
    with message.
  now rewrite Hv.
Qed.

(** What the capture of the reply does to the world: nothing, or one
    append of an assistant message. *)
Lemma captureAssistantResponse_spec (stream : ReadableStream)
    (stub model : jsstring) (w : World) :
  snd (captureAssistantResponse stream stub model w) = w \/
  exists reply,
    snd (captureAssistantResponse stream stub model w)
    = commit w stub
        (snd (SessionDurableObject.persistMessage (ChatMessage "assistant" reply)
                (trimmed_string (JStr model)) (session_state w stub))).
Proof.
  unfold captureAssistantResponse.
  destruct (capture_loop (chunks stream) [] [] []) as [buffered collected].
  match goal with
  | |- context [negb (nonempty ?full)] => destruct (nonempty full) eqn:Hfull
  end; cbn [negb].
  - right. eexists.
    rewrite appendMessage_spec by (apply chat_message_valid; now right).
    reflexivity.
  - now left.
Qed.

(** A chat turn acts on the session store through requests only: a read
    followed by the append of the user message and, when the model streamed
    a non-empty reply, the append of the assistant message. *)
Lemma chat_turn_store_requests (request : Request) (env : Env) (w : World) :
  let sessionId := string_field (safeJson request) "sessionId" in
  let message := string_field (safeJson request) "message" in
  exists requests,
    session_state (snd (chat_turn request env w)) sessionId
    = SessionDurableObject.serve requests (session_state w sessionId) /\
    (SessionDurableObject.accepted requests = [] \/
     SessionDurableObject.accepted requests = [ChatMessage "user" message] \/
     exists reply,
       SessionDurableObject.accepted requests
       = [ChatMessage "user" message; ChatMessage "assistant" reply]).
Proof.
  intros sessionId message. unfold chat_turn.
  destruct (truthy (safeJson request)) eqn:Hbody.
  2: { destruct (handleChatRequest_invalid request env w (or_introl Hbody))
         as (r & -> & _).
       exists []. split; [reflexivity|now left]. }
  destruct (nonempty sessionId) eqn:Hid.
  2: { destruct (handleChatRequest_invalid request env w (or_intror (or_introl Hid)))
         as (r & -> & _).
       exists []. split; [reflexivity|now left]. }
  destruct (nonempty message) eqn:Hmsg.
  2: { destruct (handleChatRequest_invalid request env w (or_intror (or_intror Hmsg)))
         as (r & -> & _).
       exists []. split; [reflexivity|now left]. }
  destruct (getSessionRecord_total (session_state w sessionId))
    as (session & st1 & Hread).
  rewrite (handleChatRequest_valid request env w session st1 Hbody Hid Hmsg Hread).
  fold sessionId message.
  set (model := selectModelId (get (safeJson request) "modelId")
                  (SessionDurableObject.modelId session) DEFAULT_MODEL_ID).
  set (userMessage := ChatMessage "user" message).
  set (w1 := commit w sessionId st1).
  set (st2 := snd (SessionDurableObject.persistMessage userMessage
                     (trimmed_string (JStr model)) (session_state w1 sessionId))).
  set (w2 := commit w1 sessionId st2).
  set (readReq := SessionDurableObject.read_request).
  set (userReq := SessionDurableObject.append_request
                    (JObj [(lit "message", userMessage); (lit "modelId", JStr model)])).
  assert (Huser : SessionDurableObject.valid_message userMessage = true)
    by (apply chat_message_valid; now left).
  assert (Hst1 : snd (SessionDurableObject.fetch readReq (session_state w sessionId)) = st1)
    by (unfold readReq; rewrite fetch_read, Hread; reflexivity).
  assert (Hst2 : SessionDurableObject.serve [readReq; userReq] (session_state w sessionId)
                 = st2).
  { unfold SessionDurableObject.serve. cbn [fold_left]. rewrite Hst1.
    unfold userReq. rewrite fetch_append by exact Huser.
    unfold st2, w1. now rewrite session_state_commit. }
  assert (Hw2 : session_state w2 sessionId = st2)
    by (unfold w2; apply session_state_commit).
  assert (Hacc2 : SessionDurableObject.accepted [readReq; userReq] = [userMessage]).
  { unfold SessionDurableObject.accepted. cbn [omap list_omap].
    unfold userReq. rewrite accepted_append by exact Huser. reflexivity. }
  assert (Hplain : exists requests,
    session_state w2 sessionId
    = SessionDurableObject.serve requests (session_state w sessionId) /\
    (SessionDurableObject.accepted requests = [] \/
     SessionDurableObject.accepted requests = [userMessage] \/
     exists reply,
       SessionDurableObject.accepted requests
       = [userMessage; ChatMessage "assistant" reply])).
  { exists [readReq; userReq]. split; [now rewrite Hw2, Hst2|]. right. now left. }
  destruct (buildRetrievalContext env message) as [[promptMessages snippets]|e];
    [|exact Hplain].
  destruct (AI_run_chat env model _) as [raw|e]; [|exact Hplain].
  destruct (raw_body raw) as [modelStream|]; [|exact Hplain].
  cbn [snd drain].
  destruct (captureAssistantResponse_spec modelStream sessionId model w2)
    as [-> | [reply ->]]; [exact Hplain|].
  set (assistantReq := SessionDurableObject.append_request
                         (JObj [(lit "message", ChatMessage "assistant" reply);
                                (lit "modelId", JStr model)])).
  assert (Hassistant : SessionDurableObject.valid_message
                         (ChatMessage "assistant" reply) = true)
    by (apply chat_message_valid; now right).
  exists [readReq; userReq; assistantReq]. split.
  - rewrite session_state_commit, Hw2, <- Hst2.
    unfold SessionDurableObject.serve. cbn [fold_left].
    unfold assistantReq. now rewrite fetch_append by exact Hassistant.
  - right. right. exists reply.
    unfold SessionDurableObject.accepted. cbn [omap list_omap].
    unfold userReq, assistantReq.
    rewrite !accepted_append by assumption. reflexivity.
Qed.

End ChatTurns.

(** * Further properties of the worker *)

(** ** Trimming *)

Section TrimFacts.

Lemma trimEnd_head (c : N) (rest : jsstring) :
  is_ws c = false -> exists kept, trimEnd (c :: rest) = c :: kept.
Proof.
  intros Hc. cbn [trimEnd]. destruct (trimEnd rest) as [|k kept].
  - rewrite Hc. now exists [].
  - now exists (k :: kept).
Qed.

Lemma trimEnd_idem (s : jsstring) : trimEnd (trimEnd s) = trimEnd s.
Proof.
  induction s as [|c s IH]; [reflexivity|].
  cbn [trimEnd]. destruct (trimEnd s) as [|k kept] eqn:Hs.
  - destruct (is_ws c) eqn:Hc; [reflexivity|].
    cbn [trimEnd]. now rewrite Hc.
  - change (trimEnd (c :: k :: kept))
      with (match trimEnd (k :: kept) with
            | [] => if is_ws c then [] else [c]
            | kept' => c :: kept'
            end).
    now rewrite IH.
Qed.

Lemma trimStart_head (s : jsstring) (c : N) (rest : jsstring) :
  trimStart s = c :: rest -> is_ws c = false.
Proof.
  induction s as [|x s IH]; cbn [trimStart]; [discriminate|].
  destruct (is_ws x) eqn:Hx; [exact IH|].
  now intros [= <- _].
Qed.

Lemma trimStart_fixed (c : N) (rest : jsstring) :
  is_ws c = false -> trimStart (c :: rest) = c :: rest.
Proof. intros Hc. cbn [trimStart]. now rewrite Hc. Qed.

(** A trimmed string starts with a character that is not white space. *)
Lemma trim_head (s : jsstring) (c : N) (rest : jsstring) :
  trim s = c :: rest -> is_ws c = false.
Proof.
  unfold trim. destruct (trimStart s) as [|x t] eqn:Hs; [discriminate|].
  pose proof (trimStart_head s x t Hs) as Hx.
  destruct (trimEnd_head x t Hx) as [kept ->].
  now intros [= <- _].
Qed.

(** A string that starts with a character that is not white space keeps
    it when trimmed. *)
Lemma trim_keeps_head (c : N) (rest : jsstring) :
  is_ws c = false -> exists kept, trim (c :: rest) = c :: kept.
Proof.
  intros Hc. unfold trim. rewrite trimStart_fixed by assumption.
  now apply trimEnd_head.
Qed.

Lemma trim_idem (s : jsstring) : trim (trim s) = trim s.
Proof.
  destruct (trim s) as [|c rest] eqn:Hs; [reflexivity|].
  pose proof (trim_head s c rest Hs) as Hc.
  rewrite <- Hs. unfold trim at 1.
  rewrite Hs, trimStart_fixed by assumption.
  rewrite <- Hs. unfold trim. apply trimEnd_idem.
Qed.

Lemma trim_length (s : jsstring) : length (trim s) <= length s.
Proof.
  destruct (trim_split s) as (pre & post & Hs & _).
  rewrite Hs at 2. rewrite !length_app. lia.
Qed.

Lemma slice_length (s : jsstring) (from size : nat) :
  length (slice s from (from + size)) <= size.
Proof. unfold slice. rewrite length_take. lia. Qed.

Lemma not_ws_not_NL (c : N) : is_ws c = false -> N.eqb c NL = false.
Proof.
  intros Hc. destruct (N.eqb c NL) eqn:H; [|reflexivity].
  apply N.eqb_eq in H. subst c. discriminate.
Qed.

End TrimFacts.

(** ** The chunks of a text *)

Section ChunkBounds.
Import Chunker.

Lemma chunk_loop_bounded (fuel : nat) (n : jsstring) (size step : nat) :
  forall (i : nat) (chunks : list jsstring),
  length chunks <= MAX_DOC_CHUNKS ->
  Forall (fun chunk => 0 < length chunk <= size /\ trim chunk = chunk) chunks ->
  length (chunk_loop fuel n size step i chunks) <= MAX_DOC_CHUNKS /\
  Forall (fun chunk => 0 < length chunk <= size /\ trim chunk = chunk)
    (chunk_loop fuel n size step i chunks).
Proof.
  induction fuel as [|fuel IH]; intros i chunks Hcount Hall; [now split|].
  rewrite chunk_loop_step.
  destruct (i <? length n); cbn [andb]; [|now split].
  destruct (length chunks <? MAX_DOC_CHUNKS) eqn:Hroom; [|now split].
  apply Nat.ltb_lt in Hroom. cbv zeta.
  set (piece := trim (slice n i (i + size))).
  assert (Hnext :
    length (if 0 <? length piece then chunks ++ [piece] else chunks)
      <= MAX_DOC_CHUNKS /\
    Forall (fun chunk => 0 < length chunk <= size /\ trim chunk = chunk)
      (if 0 <? length piece then chunks ++ [piece] else chunks)).
  { destruct (0 <? length piece) eqn:Hpiece; [|now split].
    apply Nat.ltb_lt in Hpiece. split.
    - rewrite length_app. cbn [length]. lia.
    - apply Forall_app. split; [assumption|].
      constructor; [|constructor]. split.
      + split; [assumption|]. unfold piece.
        etransitivity; [apply trim_length|apply slice_length].
      + apply trim_idem. }
  destruct Hnext as [Hcount' Hall'].
  destruct (length n <=? i + size); [now split|].
  now apply IH.
Qed.

(** The bounds on the chunks. *)
Lemma chunkText_with_bounded (text : jsstring) (chunkSize overlap : nat) :
  length (chunkText_with text chunkSize overlap) <= MAX_DOC_CHUNKS /\
  Forall (fun chunk => 0 < length chunk <= chunkSize /\ trim chunk = chunk)
    (chunkText_with text chunkSize overlap).
Proof.
  unfold chunkText_with.
  destruct (negb (nonempty (normalize text))).
  - split; [cbn; lia|constructor].
  - cbv zeta. apply chunk_loop_bounded; [cbn; lia|constructor].
Qed.

Lemma slice_whole (n : jsstring) (size : nat) :
  length n <= size -> slice n 0 (0 + size) = n.
Proof.
  intros H. unfold slice. rewrite Nat.add_0_l, Nat.sub_0_r, drop_0.
  now apply take_ge.
Qed.

(** A normalized text that fits one window is its only chunk. *)
Lemma chunk_loop_single (n : jsstring) (size step : nat) :
  0 < length n <= size -> trim n = n ->
  chunk_loop (length n) n size step 0 [] = [n].
Proof.
  intros [Hpos Hfit] Htrim.
  destruct (length n) as [|fuel] eqn:Hlen; [lia|].
  rewrite chunk_loop_step, Hlen.
  replace (0 <? S fuel) with true by reflexivity.
  replace (length (@nil jsstring) <? MAX_DOC_CHUNKS) with true by reflexivity.
  cbn [andb]. cbv zeta.
  rewrite slice_whole by lia. rewrite Htrim, Hlen.
  replace (0 <? S fuel) with true by reflexivity.
  replace (S fuel <=? 0 + size) with true
    by (symmetry; apply Nat.leb_le; lia).
  reflexivity.
Qed.

Lemma normalize_trimmed (text : jsstring) : trim (normalize text) = normalize text.
Proof. unfold normalize. apply trim_idem. Qed.

Lemma chunkText_single (text : jsstring) :
  0 < length (normalize text) <= CHUNK_SIZE ->
  chunkText text = [normalize text].
Proof.
  intros H. unfold chunkText, chunkText_with.
  destruct (normalize text) as [|c n] eqn:Hn; [cbn in H; lia|].
  cbn [nonempty negb]. cbv zeta. rewrite <- Hn in *.
  apply chunk_loop_single; [assumption|apply normalize_trimmed].
Qed.

End ChunkBounds.

Lemma chunkText_bounded (text : jsstring) :
  length (Chunker.chunkText text) <= MAX_DOC_CHUNKS /\
  Forall (fun chunk => 0 < length chunk <= CHUNK_SIZE /\ trim chunk = chunk)
    (Chunker.chunkText text).
Proof. apply chunkText_with_bounded. Qed.

Section NewlineRuns.
Import Chunker.

Lemma short_newline_runs_mono (s : jsstring) :
  forall run run', run' <= run ->
  short_newline_runs run s = true -> short_newline_runs run' s = true.
Proof.
  induction s as [|c s IH]; intros run run' Hle; [reflexivity|].
  cbn [short_newline_runs]. destruct (N.eqb c NL); [|auto].
  intros H. apply andb_true_iff in H as [Hrun H].
  apply Nat.ltb_lt in Hrun. apply andb_true_iff. split.
  - apply Nat.ltb_lt. lia.
  - apply (IH (S run)); [lia|assumption].
Qed.

Lemma short_newline_runs_prefix (a b : jsstring) :
  forall run, short_newline_runs run (a ++ b) = true ->
  short_newline_runs run a = true.
Proof.
  induction a as [|c a IH]; intros run; [reflexivity|].
  cbn [app short_newline_runs]. destruct (N.eqb c NL); [|apply IH].
  intros H. apply andb_true_iff in H as [Hrun H].
  rewrite Hrun. cbn [andb]. now apply IH.
Qed.

Lemma short_newline_runs_suffix (a b : jsstring) :
  forall run, short_newline_runs run (a ++ b) = true ->
  short_newline_runs 0 b = true.
Proof.
  induction a as [|c a IH]; intros run.
  - cbn [app]. apply short_newline_runs_mono. lia.
  - cbn [app short_newline_runs]. destruct (N.eqb c NL); [|apply IH].
    intros H. apply andb_true_iff in H as [_ H]. now apply IH in H.
Qed.

(** A text without a run of three newlines is left as it is. *)
Lemma collapse_newlines_fixed (s : jsstring) :
  forall run, run <= 2 -> short_newline_runs run s = true ->
  collapse_newlines run s = repeat NL run ++ s.
Proof.
  induction s as [|c s IH]; intros run Hrun.
  - intros _. cbn [collapse_newlines]. rewrite app_nil_r.
    now rewrite Nat.min_l.
  - cbn [collapse_newlines short_newline_runs].
    destruct (N.eqb c NL) eqn:Hc.
    + intros H. apply andb_true_iff in H as [Hlt H].
      apply Nat.ltb_lt in Hlt. apply N.eqb_eq in Hc. subst c.
      rewrite IH by (assumption || lia).
      cbn [repeat]. rewrite repeat_cons. now rewrite <- app_assoc.
    + intros H. rewrite (IH 0) by (assumption || lia).
      now rewrite Nat.min_l.
Qed.

Lemma short_newline_runs_after (k : nat) (c : N) (s : jsstring) :
  k <= 2 -> N.eqb c NL = false ->
  short_newline_runs 0 (repeat NL k ++ c :: s) = short_newline_runs 0 s.
Proof.
  intros Hk Hc.
  destruct k as [|[|[|k]]]; [| | |lia];
    cbn [repeat app short_newline_runs];
    replace (N.eqb NL NL) with true by reflexivity;
    rewrite ?Hc; reflexivity.
Qed.

(** What [replace(/\n{3,}/g, "\n\n")] returns has no run of three
    newlines. *)
Lemma collapse_newlines_short (s : jsstring) :
  forall run, short_newline_runs 0 (collapse_newlines run s) = true.
Proof.
  induction s as [|c s IH]; intros run.
  - cbn [collapse_newlines].
    destruct run as [|[|[|run]]]; reflexivity.
  - cbn [collapse_newlines]. destruct (N.eqb c NL) eqn:Hc; [apply IH|].
    rewrite short_newline_runs_after; [apply IH|lia|assumption].
Qed.

Lemma short_newline_runs_trim (s : jsstring) :
  short_newline_runs 0 s = true -> short_newline_runs 0 (trim s) = true.
Proof.
  intros H. destruct (trim_split s) as (pre & post & Hs & _).
  rewrite Hs in H. apply short_newline_runs_suffix in H.
  now apply short_newline_runs_prefix in H.
Qed.

Lemma normalize_short_runs (text : jsstring) :
  short_newline_runs 0 (normalize text) = true.
Proof. apply short_newline_runs_trim, collapse_newlines_short. Qed.

(** A trimmed text without a run of three newlines is its own normal
    form. *)
Lemma normalize_fixed (s : jsstring) :
  short_newline_runs 0 s = true -> trim s = s -> normalize s = s.
Proof.
  intros Hruns Htrim. unfold normalize.
  rewrite collapse_newlines_fixed by (assumption || lia). exact Htrim.
Qed.

Lemma normalize_idem (text : jsstring) : normalize (normalize text) = normalize text.
Proof.
  apply normalize_fixed; [apply normalize_short_runs|apply normalize_trimmed].
Qed.

Lemma slice_infix (n : jsstring) (i j : nat) :
  exists before after, n = before ++ slice n i j ++ after.
Proof.
  exists (take i n), (drop (j - i) (drop i n)). unfold slice.
  now rewrite take_drop, take_drop.
Qed.

(** Every chunk the loop adds is the trimmed window at a multiple of the
    step. *)
Lemma chunk_loop_strides (fuel : nat) (n : jsstring) (size step : nat) :
  forall (i : nat) (chunks : list jsstring),
  (exists j, i = j * step) ->
  Forall (fun chunk =>
            exists j, chunk = trim (slice n (j * step) (j * step + size))) chunks ->
  Forall (fun chunk =>
            exists j, chunk = trim (slice n (j * step) (j * step + size)))
    (chunk_loop fuel n size step i chunks).
Proof.
  induction fuel as [|fuel IH]; intros i chunks [j Hi] Hall; [assumption|].
  rewrite chunk_loop_step.
  destruct ((i <? length n) && (length chunks <? MAX_DOC_CHUNKS)); [|assumption].
  cbv zeta.
  assert (Hnext :
    Forall (fun chunk =>
              exists j, chunk = trim (slice n (j * step) (j * step + size)))
      (if 0 <? length (trim (slice n i (i + size)))
       then chunks ++ [trim (slice n i (i + size))] else chunks)).
  { destruct (0 <? length _); [|assumption].
    apply Forall_app. split; [assumption|].
    constructor; [exists j; now rewrite Hi|constructor]. }
  destruct (length n <=? i + size); [assumption|].
  apply IH; [|assumption]. exists (S j). cbn [Nat.mul]. lia.
Qed.

Lemma chunkText_strides (text : jsstring) (chunkSize overlap : nat) :
  Forall (fun chunk =>
            exists j,
              chunk = trim (slice (normalize text)
                              (j * Nat.max 1 (chunkSize - overlap))
                              (j * Nat.max 1 (chunkSize - overlap) + chunkSize)))
    (chunkText_with text chunkSize overlap).
Proof.
  unfold chunkText_with.
  destruct (negb (nonempty (normalize text))); [constructor|].
  cbv zeta. apply chunk_loop_strides; [now exists 0|constructor].
Qed.

Lemma window_short_runs (n : jsstring) (k size : nat) :
  short_newline_runs 0 n = true ->
  short_newline_runs 0 (trim (slice n k (k + size))) = true.
Proof.
  intros H. apply short_newline_runs_trim.
  destruct (slice_infix n k (k + size)) as (before & after & Hn).
  rewrite Hn in H. apply short_newline_runs_suffix in H.
  now apply short_newline_runs_prefix in H.
Qed.

(** X1.  Normalizing is idempotent, so chunking a text and chunking its
    normal form give the same chunks; and every chunk is itself in normal
    form and fits a window, so that chunking a chunk returns that chunk
    alone. *)
Theorem chunkText_is_stable (text : jsstring) :
  normalize (normalize text) = normalize text /\
  chunkText (normalize text) = chunkText text /\
  Forall (fun chunk => normalize chunk = chunk /\ chunkText chunk = [chunk])
    (chunkText text).
Proof.
  split; [apply normalize_idem|]. split.
  - unfold chunkText, chunkText_with. now rewrite normalize_idem.
  - pose proof (chunkText_strides text CHUNK_SIZE CHUNK_OVERLAP) as Hwin.
    pose proof (proj2 (chunkText_bounded text)) as Hall.
    apply Forall_forall. intros chunk Hin.
    rewrite Forall_forall in Hwin, Hall.
    destruct (Hwin _ Hin) as [k Hk].
    destruct (Hall _ Hin) as [Hlen Htrim].
    assert (Hnorm : normalize chunk = chunk).
    { apply normalize_fixed; [|assumption].
      rewrite Hk. apply window_short_runs, normalize_short_runs. }
    split; [assumption|].
    rewrite <- Hnorm at 2. apply chunkText_single. now rewrite Hnorm.
Qed.

End NewlineRuns.

Section FirstChunk.
Context {P : Platform}.
Import Chunker Worker.

Lemma truncate_head (limit : nat) (c : N) (rest : jsstring) :
  0 < limit -> exists kept, truncate limit (c :: rest) = c :: kept.
Proof.
  intros Hlimit. unfold truncate, slice.
  destruct (limit <? length (c :: rest)); [|now exists rest].
  destruct limit as [|limit]; [lia|].
  rewrite Nat.sub_0_r, drop_0. cbn [take]. eauto.
Qed.

Lemma slice_head (c : N) (rest : jsstring) (size : nat) :
  0 < size -> exists kept, slice (c :: rest) 0 (0 + size) = c :: kept.
Proof.
  intros Hsize. unfold slice. rewrite Nat.add_0_l, Nat.sub_0_r, drop_0.
  destruct size as [|size]; [lia|]. cbn [take]. eauto.
Qed.

Lemma normalize_head (c : N) (rest : jsstring) :
  is_ws c = false -> exists kept, normalize (c :: rest) = c :: kept.
Proof.
  intros Hc. unfold normalize. cbn [collapse_newlines].
  rewrite (not_ws_not_NL c Hc). cbn [Nat.min repeat app].
  now apply trim_keeps_head.
Qed.

(** A text that starts with a character other than white space has a
    first chunk, which starts with that character. *)
Lemma chunkText_head (c : N) (rest : jsstring) (chunkSize overlap : nat) :
  is_ws c = false -> 0 < chunkSize ->
  exists kept more, chunkText_with (c :: rest) chunkSize overlap = (c :: kept) :: more.
Proof.
  intros Hc Hsize. unfold chunkText_with.
  destruct (normalize_head c rest Hc) as [n ->].
  cbn [nonempty negb]. cbv zeta. cbn [length].
  rewrite chunk_loop_step. cbn [length].
  replace (0 <? S (length n)) with true by reflexivity.
  replace (0 <? MAX_DOC_CHUNKS) with true by reflexivity.
  cbn [andb]. cbv zeta.
  destruct (slice_head c n chunkSize Hsize) as [window ->].
  destruct (trim_keeps_head c window Hc) as [kept ->].
  cbn [length]. replace (0 <? S (length kept)) with true by reflexivity.
  cbn [app].
  destruct (S (length n) <=? 0 + chunkSize); [now exists kept, []|].
  destruct (chunk_loop_extends (length n) (c :: n) chunkSize
              (Nat.max 1 (chunkSize - overlap))
              (0 + Nat.max 1 (chunkSize - overlap)) [c :: kept]) as [more ->].
  now exists kept, more.
Qed.

Lemma DOCUMENT_MAX_CHARS_positive : 0 < DOCUMENT_MAX_CHARS.
Proof. apply Nat.ltb_lt. vm_compute. reflexivity. Qed.

(** A document whose text is not blank has at least one chunk. *)
Lemma document_chunks_nonempty (rawText : jsstring) :
  nonempty (trim (crlf_to_lf rawText)) = true -> document_chunks rawText <> [].
Proof.
  intros H. unfold document_chunks.
  destruct (trim (crlf_to_lf rawText)) as [|c cleaned] eqn:Hclean; [discriminate|].
  pose proof (trim_head _ _ _ Hclean) as Hc.
  destruct (truncate_head DOCUMENT_MAX_CHARS c cleaned DOCUMENT_MAX_CHARS_positive)
    as [limited ->].
  destruct (chunkText_head c limited CHUNK_SIZE CHUNK_OVERLAP Hc) as (kept & more & Hchunks);
    [unfold CHUNK_SIZE; lia|].
  unfold chunkText. rewrite Hchunks. cbn [map].
  destruct (trim_keeps_head c kept Hc) as [kept' ->].
  cbn [List.filter length]. replace (0 <? S (length kept')) with true by reflexivity.
  discriminate.
Qed.

End FirstChunk.

Section ChunkShape.
Import Chunker.

(** X2.  Whatever the text, the window size and the overlap, [chunkText]
    returns at most [MAX_DOC_CHUNKS] = 60 chunks.  Each chunk is not
    empty, no longer than the window and trimmed, and it is the trimmed
    window of the normalized text that starts at a multiple of the step
    [max(1, chunkSize - overlap)]. *)
Theorem chunkText_chunks_bounded (text : jsstring) (chunkSize overlap : nat) :
  let step := Nat.max 1 (chunkSize - overlap) in
  length (chunkText_with text chunkSize overlap) <= MAX_DOC_CHUNKS /\
  Forall (fun chunk =>
            0 < length chunk <= chunkSize /\ trim chunk = chunk /\
            exists j,
              chunk = trim (slice (normalize text) (j * step) (j * step + chunkSize)))
    (chunkText_with text chunkSize overlap).
Proof.
  intros step.
  destruct (chunkText_with_bounded text chunkSize overlap) as [Hcount Hall].
  split; [exact Hcount|].
  pose proof (chunkText_strides text chunkSize overlap) as Hstrides.
  fold step in Hstrides.
  rewrite Forall_forall in Hall, Hstrides. apply Forall_forall.
  intros chunk Hin. destruct (Hall _ Hin) as [Hlen Htrim].
  split; [exact Hlen|]. split; [exact Htrim|]. now apply Hstrides.
Qed.

Lemma collapse_newlines_blank (s : jsstring) :
  forall run, forallb is_ws s = true ->
  forallb is_ws (collapse_newlines run s) = true.
Proof.
  assert (Hrepeat : forall k, forallb is_ws (repeat NL k) = true)
    by (induction k; [reflexivity|exact IHk]).
  induction s as [|c s IH]; intros run H; cbn [collapse_newlines].
  - apply Hrepeat.
  - cbn [forallb] in H. apply andb_true_iff in H as [Hc H].
    destruct (N.eqb c NL); [now apply IH|].
    rewrite forallb_app, Hrepeat. cbn [forallb andb]. rewrite Hc. now apply IH.
Qed.

(** X3.  The small inputs of [chunkText]: a text that is empty or white
    space only has no chunk, and a text whose normal form fits one window
    ([CHUNK_SIZE] = 800 characters) has exactly one chunk, that normal
    form. *)
Theorem chunkText_small_texts (text : jsstring) :
  (forallb is_ws text = true -> chunkText text = []) /\
  (0 < length (normalize text) <= CHUNK_SIZE -> chunkText text = [normalize text]).
Proof.
  split; [|apply chunkText_single].
  intros Hblank. unfold chunkText, chunkText_with, normalize.
  assert (H : nonempty (trim (collapse_newlines 0 text)) = false)
    by (apply trim_blank; now apply collapse_newlines_blank).
  now rewrite H.
Qed.

End ChunkShape.

(** A text of blanks and newlines, and a short text with a long run of
    newlines in it. *)
Lemma chunkText_small_texts_witness :
  Chunker.chunkText (lit "   " ++ [NL; NL]) = [] /\
  Chunker.chunkText (lit " one" ++ [NL; NL; NL; NL] ++ lit "two ")
  = [lit "one" ++ [NL; NL] ++ lit "two"].
Proof.
  split.
  - apply (proj1 (chunkText_small_texts (lit "   " ++ [NL; NL]))). reflexivity.
  - apply (proj2 (chunkText_small_texts
                    (lit " one" ++ [NL; NL; NL; NL] ++ lit "two "))).
    split; apply Nat.leb_le; reflexivity.
Defined.

(** ** The session store *)

Section SessionStore.
Context {P : Platform}.
Import SessionDurableObject.

Lemma accepted_message_spec (request : Request) :
  accepted_message request <> None <->
  str_eqb (method request) (lit "POST")
  && str_eqb (pathname request) (lit "/messages")
  && valid_message (get (safeJson request) "message") = true.
Proof.
  unfold accepted_message.
  destruct (str_eqb (method request) (lit "POST")
            && str_eqb (pathname request) (lit "/messages")
            && valid_message (get (safeJson request) "message"));
    split; congruence.
Qed.

(** The answers of the session store when its storage calls complete:
    one of four statuses, 200 for [GET /messages], 204 for a
    [POST /messages] whose message it accepts, 400 for a [POST /messages]
    it turns away, 404 for anything else.  A request answered 400 or 404
    leaves the object as it was, and a read never changes what is stored
    under the session key. *)
Lemma fetch_answers (request : Request) (st : State) :
  exists response st',
    fetch request st = (Ok response, st') /\
    (status response = 200 \/ status response = 204 \/
     status response = 400 \/ status response = 404) /\
    (status response = 200 <->
     str_eqb (method request) (lit "GET")
     && str_eqb (pathname request) (lit "/messages") = true) /\
    (status response = 204 <-> accepted_message request <> None) /\
    (status response = 400 \/ status response = 404 -> st' = st) /\
    (status response = 200 ->
     storage st' !! SESSION_STORAGE_KEY = storage st !! SESSION_STORAGE_KEY).
Proof.
  enough (exists response st',
    fetch request st = (Ok response, st') /\
    (status response = 200 \/ status response = 204 \/
     status response = 400 \/ status response = 404) /\
    (status response = 200 <->
     str_eqb (method request) (lit "GET")
     && str_eqb (pathname request) (lit "/messages") = true) /\
    (status response = 204 <->
     str_eqb (method request) (lit "POST")
     && str_eqb (pathname request) (lit "/messages")
     && valid_message (get (safeJson request) "message") = true) /\
    (status response = 400 \/ status response = 404 -> st' = st) /\
    (status response = 200 ->
     storage st' !! SESSION_STORAGE_KEY = storage st !! SESSION_STORAGE_KEY))
    as (response & st' & Hrun & Hstatus & H200 & H204 & Hsame & Hkey).
  { exists response, st'. rewrite accepted_message_spec. auto 10. }
  unfold fetch.
  destruct (str_eqb (method request) (lit "GET")) eqn:Hget.
  - assert (Hpost : str_eqb (method request) (lit "POST") = false).
    { destruct (str_eqb (method request) (lit "POST")) eqn:Hp; [|reflexivity].
      apply post_is_not_get in Hp. congruence. }
    rewrite Hpost. cbn [andb].
    destruct (str_eqb (pathname request) (lit "/messages")).
    + unfold bind.
      pose proof (getSessionRecord_after st) as Hafter.
      destruct (getSessionRecord_total st) as (session & st' & Hread).
      rewrite Hread in *. cbn [snd] in Hafter. cbn [ret].
      do 2 eexists. split; [reflexivity|]. cbn [status].
      split; [now left|]. split; [tauto|]. split; [split; discriminate|].
      split; [intros [|]; discriminate|].
      intros _. destruct Hafter as [->|[-> _]]; [reflexivity|].
      apply lookup_delete_ne. discriminate.
    + do 2 eexists. split; [reflexivity|]. cbn [status textResponse].
      split; [tauto|]. split; [split; discriminate|].
      split; [split; discriminate|]. split; [reflexivity|discriminate].
  - cbn [andb].
    destruct (str_eqb (method request) (lit "POST")
              && str_eqb (pathname request) (lit "/messages")) eqn:Hpost.
    + cbv zeta. cbn [andb].
      destruct (valid_message (get (safeJson request) "message")); cbn [negb].
      * unfold bind.
        pose proof (persistMessage_ok (get (safeJson request) "message")
                      (trimmed_string (get (safeJson request) "modelId")) st) as Hok.
        destruct (persistMessage _ _ st) as [r st']. cbn in Hok. subst r.
        do 2 eexists. split; [reflexivity|]. cbn [status ret].
        split; [tauto|]. split; [split; discriminate|].
        split; [tauto|]. split; [intros [|]; discriminate|discriminate].
      * do 2 eexists. split; [reflexivity|].
        cbn [status invalid_message_response jsonResponse ret].
        split; [tauto|]. split; [split; discriminate|].
        split; [split; discriminate|]. split; [reflexivity|discriminate].
    + cbn [andb]. do 2 eexists. split; [reflexivity|]. cbn [status textResponse ret].
      split; [tauto|]. split; [split; discriminate|].
      split; [split; discriminate|]. split; [reflexivity|discriminate].
Qed.

(** An append followed by a read. *)
Lemma persistMessage_then_read (message : jsval) (model : option jsstring)
    (st st1 : State) (session : StoredSessionRecord) :
  getSessionRecord st = (Ok session, st1) ->
  let st2 := snd (persistMessage message model st) in
  let now := JStr (Date_toISOString (clock st1)) in
  getSessionRecord st2 =
  (Ok {| messages := slice_last MAX_HISTORY (messages session ++ [message]);
         modelId :=
           trim <$> match model with
                    | Some m => if nonempty m then Some m else modelId session
                    | None => modelId session
                    end;
         createdAt := if truthy (createdAt session) then createdAt session else now;
         updatedAt := now |}, st2) /\
  clock st2 = S (clock st1).
Proof.
  intros Hread st2 now. subst st2 now.
  unfold persistMessage, bind. rewrite Hread.
  cbn [fst snd new_Date_toISOString storage_put modify storage clock].
  split; [|reflexivity].
  erewrite getSessionRecord_current; [|cbn [storage]; apply lookup_insert_eq].
  cbn [messages modelId createdAt updatedAt].
  destruct (truthy (createdAt session)); reflexivity.
Qed.

(** X5.  What an append leaves in the store, as the next read reports it:
    the last [MAX_HISTORY] messages with the new one at the end; the model
    id sent with the message when there is one, the previous model id
    otherwise; the creation time the session had, or the time of the
    append when it had none; and the time of the append as the time of
    the last update.  The append reads the clock once, after the read it
    starts with, and the read that reports the result changes nothing. *)
Theorem append_updates_the_record (message : jsval) (model : option jsstring)
    (st st1 : State) (session : StoredSessionRecord) :
  getSessionRecord st = (Ok session, st1) ->
  let st2 := snd (persistMessage message model st) in
  let now := JStr (Date_toISOString (clock st1)) in
  getSessionRecord st2 =
  (Ok {| messages := slice_last MAX_HISTORY (messages session ++ [message]);
         modelId :=
           trim <$> match model with
                    | Some m => if nonempty m then Some m else modelId session
                    | None => modelId session
                    end;
         createdAt := if truthy (createdAt session) then createdAt session else now;
         updatedAt := now |}, st2) /\
  clock st2 = S (clock st1).
Proof. apply persistMessage_then_read. Qed.

End SessionStore.

(** An append of a first message, with a model id, to a store that was
    never written. *)
Lemma append_updates_the_record_witness :
  let st := SessionDurableObject.fresh (P := Example.platform) 0 in
  let message := ChatMessage (P := Example.platform) "user" (lit "hi") in
  let st2 :=
    snd (SessionDurableObject.persistMessage message (Some (lit "@cf/custom")) st) in
  SessionDurableObject.getSessionRecord st2 =
  (Ok {| SessionDurableObject.messages := [message];
         SessionDurableObject.modelId := Some (lit "@cf/custom");
         SessionDurableObject.createdAt := JStr (@Date_toISOString Example.platform 0);
         SessionDurableObject.updatedAt := JStr (@Date_toISOString Example.platform 2) |}, st2) /\
  SessionDurableObject.clock st2 = 3.
Proof.
  intros st message st2.
  pose proof (append_updates_the_record (P := Example.platform)
                message (Some (lit "@cf/custom")) st
                {| SessionDurableObject.storage := ∅; SessionDurableObject.clock := 2 |}
                {| SessionDurableObject.messages := [];
                   SessionDurableObject.modelId := None;
                   SessionDurableObject.createdAt := JStr (@Date_toISOString Example.platform 0);
                   SessionDurableObject.updatedAt := JStr (@Date_toISOString Example.platform 1) |}
                eq_refl) as H.
  exact H.
Defined.

Section Migration.
Context {P : Platform}.
Import SessionDurableObject.

(** X6.  An append to a session left in the legacy shape (a bare array
    under the key ["messages"], nothing under the session key) moves it to
    the current shape: afterwards the legacy key is gone, the session key
    holds a record, and the history is the legacy messages followed by the
    new one, cut to the last [MAX_HISTORY]. *)
Theorem append_migrates_legacy_session (message : jsval) (model : option jsstring)
    (st : State) (items : list jsval) :
  storage st !! SESSION_STORAGE_KEY = None ->
  storage st !! "messages" = Some (JArr items) ->
  let st' := snd (persistMessage message model st) in
  storage st' !! "messages" = None /\
  (exists record,
     storage st' !! SESSION_STORAGE_KEY = Some (record_value record) /\
     messages record = slice_last MAX_HISTORY (items ++ [message])) /\
  stored_messages st' = slice_last MAX_HISTORY (items ++ [message]).
Proof.
  intros Hcurrent Hlegacy st'. subst st'.
  assert (Hread : getSessionRecord st
                  = (Ok {| messages := items; modelId := None;
                           createdAt := JStr (Date_toISOString (clock st));
                           updatedAt := JStr (Date_toISOString (S (clock st))) |},
                     {| storage := delete "messages" (storage st);
                        clock := S (S (clock st)) |})).
  { unfold getSessionRecord, bind, storage_get, storage_delete, gets, modify, ret.
    cbn. rewrite Hcurrent. cbn. rewrite Hlegacy. reflexivity. }
  split; [|split].
  - unfold persistMessage, bind. rewrite Hread. cbn.
    rewrite lookup_insert_ne by discriminate. apply lookup_delete_eq.
  - unfold persistMessage, bind. rewrite Hread. cbn.
    eexists. split; [apply lookup_insert_eq|reflexivity].
  - rewrite persistMessage_messages. f_equal. f_equal.
    unfold stored_messages. now rewrite Hread.
Qed.

End Migration.

(** An append to the legacy session of the examples. *)
Lemma append_migrates_legacy_session_witness :
  let message := ChatMessage (P := Example.platform) "user" (lit "hi") in
  let items := [ChatMessage (P := Example.platform) "user" (lit "hello")] in
  let st' := snd (SessionDurableObject.persistMessage message None Example.legacy_state) in
  SessionDurableObject.storage st' !! "messages" = None /\
  (exists record,
     SessionDurableObject.storage st' !! SessionDurableObject.SESSION_STORAGE_KEY
     = Some (SessionDurableObject.record_value record) /\
     SessionDurableObject.messages record
     = slice_last MAX_HISTORY (items ++ [message])) /\
  SessionDurableObject.stored_messages st'
  = slice_last MAX_HISTORY (items ++ [message]).
Proof.
  apply (append_migrates_legacy_session (P := Example.platform)).
  - reflexivity.
  - reflexivity.
Defined.

(** ** The worker and the session store *)

Section WorkerStore.
Context {P : Platform}.
Import Worker.

(** The model id [selectModelId] returns with the system default as the
    fallback is trimmed and not empty. *)
Lemma selectModelId_trimmed (requested : jsval) (stored : option jsstring) :
  trimmed_string (JStr (selectModelId requested stored DEFAULT_MODEL_ID))
  = Some (selectModelId requested stored DEFAULT_MODEL_ID).
Proof.
  assert (Htrimmed : forall v s, trimmed_string v = Some s ->
                                 trimmed_string (JStr s) = Some s).
  { intros v s. destruct v as [| | | |t| |]; cbn [trimmed_string]; try discriminate.
    destruct (nonempty (trim t)) eqn:Ht; [|discriminate].
    intros [= <-]. now rewrite trim_idem, Ht. }
  unfold selectModelId.
  destruct (trimmed_string requested) as [r|] eqn:Hr; [now apply Htrimmed in Hr|].
  destruct (trimmed_string (of_option_string stored)) as [t|] eqn:Ht;
    [now apply Htrimmed in Ht|].
  reflexivity.
Qed.

Lemma commit_other (w : World) (name : jsstring) (st : SessionDurableObject.State) :
  upsert_calls (commit w name st) = upsert_calls w /\
  uuid_calls (commit w name st) = uuid_calls w /\
  (forall other, other <> name ->
     session_storage (commit w name st) other = session_storage w other).
Proof.
  split; [reflexivity|]. split; [reflexivity|].
  intros other H. apply session_storage_commit_other. congruence.
Qed.

Lemma fetchSessionHistory_total (name : jsstring) (w : World) :
  exists history st,
    fetchSessionHistory name w = (Ok history, commit w name st) /\
    h_messages history = slice_last MAX_HISTORY (session_messages w name) /\
    SessionDurableObject.getSessionRecord (session_state w name)
    = (Ok {| SessionDurableObject.messages := session_messages w name;
             SessionDurableObject.modelId := h_modelId history;
             SessionDurableObject.createdAt := h_createdAt history;
             SessionDurableObject.updatedAt := h_updatedAt history |}, st).
Proof.
  destruct (getSessionRecord_total (session_state w name)) as (session & st & Hread).
  rewrite (fetchSessionHistory_spec name w session st Hread).
  do 2 eexists. split; [reflexivity|].
  unfold session_messages, SessionDurableObject.stored_messages.
  rewrite Hread. cbn [fst h_messages h_modelId h_createdAt h_updatedAt].
  split; [reflexivity|]. now destruct session.
Qed.

(** X8.  The model id chosen for a turn is stored with the message, is
    what the next read of the session reports, and is the id chosen again
    when a later request names none. *)
Theorem session_model_is_sticky (name : jsstring) (w : World)
    (requested : jsval) (stored : option jsstring) (message : jsval) :
  SessionDurableObject.valid_message message = true ->
  let model := selectModelId requested stored DEFAULT_MODEL_ID in
  let w1 := snd (appendMessage name message model w) in
  exists history w2,
    fetchSessionHistory name w1 = (Ok history, w2) /\
    h_modelId history = Some model /\
    (forall next, trimmed_string next = None ->
       selectModelId next (h_modelId history) DEFAULT_MODEL_ID = model).
Proof.
  intros Hvalid model w1. subst w1.
  rewrite appendMessage_spec by assumption. cbn [snd].
  unfold model at 1. rewrite selectModelId_trimmed. fold model.
  destruct (getSessionRecord_total (session_state w name)) as (session & st1 & Hread).
  destruct (persistMessage_then_read message (Some model) _ _ _ Hread) as [Hback _].
  match goal with
  | |- context [fetchSessionHistory name ?w1] =>
      rewrite (fetchSessionHistory_spec name w1 _ _
                 ltac:(rewrite session_state_commit; exact Hback))
  end.
  assert (Hmodel : trimmed_string (JStr model) = Some model)
    by apply selectModelId_trimmed.
  cbn [trimmed_string] in Hmodel.
  destruct (nonempty (trim model)) eqn:Hne; [|discriminate].
  injection Hmodel as Htrim.
  assert (Hfull : nonempty model = true) by now rewrite <- Htrim.
  do 2 eexists. split; [reflexivity|].
  cbn [h_modelId SessionDurableObject.modelId]. rewrite Hfull. cbn [fmap option_fmap option_map].
  rewrite Htrim. split; [reflexivity|].
  intros next Hnext. unfold selectModelId. rewrite Hnext.
  cbn [of_option_string trimmed_string]. now rewrite Htrim, Hfull.
Qed.

End WorkerStore.

(** A first message stored under a padded requested id: the session
    reports the trimmed id, and a request without an id gets it again. *)
Lemma session_model_is_sticky_witness :
  let model :=
    Worker.selectModelId (P := Example.platform)
      (JStr (lit " @cf/custom ")) None DEFAULT_MODEL_ID in
  let w1 :=
    snd (Worker.appendMessage (lit "s1") (ChatMessage "user" (lit "hi")) model
           Example.empty_world) in
  exists history w2,
    Worker.fetchSessionHistory (lit "s1") w1 = (Ok history, w2) /\
    Worker.h_modelId history = Some model /\
    (forall next, trimmed_string (P := Example.platform) next = None ->
       Worker.selectModelId next (Worker.h_modelId history) DEFAULT_MODEL_ID = model).
Proof.
  apply (session_model_is_sticky (P := Example.platform) (lit "s1")
           Example.empty_world (JStr (lit " @cf/custom ")) None
           (ChatMessage "user" (lit "hi"))).
  reflexivity.
Defined.

Section AppendOutcome.
Context {P : Platform}.
Import Worker.

(** [appendMessage] when the calls to the session store complete: it
    succeeds exactly on the messages the store accepts, and throws
    [Failed to store message: 400] on any other. *)
Lemma appendMessage_reliable (name : jsstring) (message : jsval)
    (model : jsstring) (w : World) :
  let run := appendMessage name message model w in
  (SessionDurableObject.valid_message message = true ->
   fst run = Ok tt /\
   session_messages (snd run) name
   = slice_last MAX_HISTORY (session_messages w name ++ [message])) /\
  (SessionDurableObject.valid_message message = false ->
   fst run = Throw (ErrorObject (lit "Failed to store message: 400")) /\
   session_storage (snd run) name = session_storage w name) /\
  upsert_calls (snd run) = upsert_calls w /\
  uuid_calls (snd run) = uuid_calls w /\
  (forall other, other <> name ->
     session_storage (snd run) other = session_storage w other).
Proof.
  intros run. subst run.
  destruct (SessionDurableObject.valid_message message) eqn:Hvalid.
  - rewrite appendMessage_spec by assumption. cbn [fst snd].
    split; [|split; [discriminate|apply commit_other]].
    intros _. split; [reflexivity|].
    now rewrite session_messages_commit, persistMessage_messages.
  - assert (Hrun : appendMessage name message model w
                   = (Throw (ErrorObject (lit "Failed to store message: 400")),
                      commit w name (session_state w name))).
    { unfold appendMessage, bind, stub_fetch.
      rewrite fetch_post_rejected; [reflexivity|reflexivity|reflexivity|exact Hvalid]. }
    rewrite Hrun. cbn [fst snd].
    split; [discriminate|]. split; [|apply commit_other].
    intros _. split; [reflexivity|]. apply session_storage_commit.
Qed.

End AppendOutcome.

(** ** The outcomes of a chat request *)

Section ChatOutcomes.
Context {P : Platform} {J : Worker.JsonParser}.
Import Worker.

Lemma string_field_blank (payload : jsval) (name : string) :
  nonempty (string_field payload name) = false <->
  (forall s, get payload name = JStr s -> forallb is_ws s = true).
Proof.
  unfold string_field. destruct (get payload name) as [| | | |s| |];
    try (split; [intros _ s' [=]|reflexivity]).
  rewrite trim_blank. split.
  - now intros H s' [= <-].
  - intros H. now apply H.
Qed.

(** X10.  The validation of a chat request, in the order of the handler: a
    body that is not JSON (or is a falsy value) is answered [Invalid JSON
    payload]; otherwise a [sessionId] that is not a string, or is white
    space only, is answered [Missing sessionId]; otherwise a [message]
    that is not a string, or is white space only, is answered [Message
    content is required].  Each answer has status 400, registers no
    background work and leaves the world as it was. *)
Theorem chat_request_validation (request : Request) (env : Env) (w : World) :
  let payload := safeJson request in
  (truthy payload = false ->
   handleChatRequest request env w
   = (Ok (jsonResponse (error_payload (lit "Invalid JSON payload")) 400, []), w)) /\
  (truthy payload = true ->
   (forall s, get payload "sessionId" = JStr s -> forallb is_ws s = true) ->
   handleChatRequest request env w
   = (Ok (jsonResponse (error_payload (lit "Missing sessionId")) 400, []), w)) /\
  (truthy payload = true ->
   nonempty (string_field payload "sessionId") = true ->
   (forall s, get payload "message" = JStr s -> forallb is_ws s = true) ->
   handleChatRequest request env w
   = (Ok (jsonResponse (error_payload (lit "Message content is required")) 400, []), w)).
Proof.
  intros payload. unfold handleChatRequest, catch. fold payload.
  split; [|split].
  - now intros ->.
  - intros -> Hid. apply string_field_blank in Hid. now rewrite Hid.
  - intros -> -> Hmsg. apply string_field_blank in Hmsg. now rewrite Hmsg.
Qed.

Lemma last_slice_last_snoc {A} (n : nat) (l : list A) (x : A) :
  0 < n -> last (slice_last n (l ++ [x])) = Some x.
Proof.
  intros Hn. unfold slice_last. rewrite length_app. cbn [length].
  rewrite drop_app_le by lia. apply last_snoc.
Qed.

(** The world after the handler has stored the user message. *)
Lemma session_after_user_message (w : World) (sessionId : jsstring)
    (st1 : SessionDurableObject.State) (message : jsval) (model : option jsstring) :
  let w1 := commit w sessionId st1 in
  let w2 :=
    commit w1 sessionId
      (snd (SessionDurableObject.persistMessage message model
              (session_state w1 sessionId))) in
  last (session_messages w2 sessionId) = Some message /\
  upsert_calls w2 = upsert_calls w /\ uuid_calls w2 = uuid_calls w /\
  (forall other, other <> sessionId ->
     session_storage w2 other = session_storage w other).
Proof.
  intros w1 w2. split; [|split; [|split]].
  - unfold w2. rewrite session_messages_commit, persistMessage_messages.
    apply last_slice_last_snoc. unfold MAX_HISTORY. lia.
  - reflexivity.
  - reflexivity.
  - intros other H. unfold w2, w1.
    rewrite !session_storage_commit_other by congruence. reflexivity.
Qed.

(** X11.  When the chat model fails (it throws, or its answer has no body)
    on a request that passed validation, the request is answered with
    status 500 and no background work, and the user message has been
    stored all the same: it is the last message of the session. *)
Theorem failed_turn_keeps_user_message (request : Request) (env : Env) (w : World) :
  let payload := safeJson request in
  let sessionId := string_field payload "sessionId" in
  let message := string_field payload "message" in
  truthy payload = true -> nonempty sessionId = true -> nonempty message = true ->
  (forall model messages,
     match AI_run_chat env model messages with
     | Ok raw => raw_body raw = None
     | Throw _ => True
     end) ->
  exists response w',
    handleChatRequest request env w = (Ok (response, []), w') /\
    status response = 500 /\
    last (session_messages w' sessionId) = Some (ChatMessage "user" message) /\
    upsert_calls w' = upsert_calls w.
Proof.
  intros payload sessionId message Hbody Hid Hmsg Hfail.
  destruct (getSessionRecord_total (session_state w sessionId))
    as (session & st1 & Hread).
  rewrite (handleChatRequest_valid request env w session st1 Hbody Hid Hmsg Hread).
  fold payload sessionId message.
  match goal with
  | |- context [commit (commit w sessionId st1) sessionId
                  (snd (SessionDurableObject.persistMessage ?m ?model _))] =>
      destruct (session_after_user_message w sessionId st1 m model)
        as (Hlast & Hups & _ & _)
  end.
  destruct (buildRetrievalContext env message) as [[promptMessages snippets]|e].
  - match goal with
    | |- context [AI_run_chat env ?model ?messages] =>
        specialize (Hfail model messages);
        destruct (AI_run_chat env model messages) as [raw|e]
    end.
    + rewrite Hfail. do 2 eexists. repeat split; eauto.
    + do 2 eexists. repeat split; eauto.
  - do 2 eexists. repeat split; eauto.
Qed.

(** What the capture of the reply does: it never throws; it stores
    nothing, or one assistant message that is not empty. *)
Lemma captureAssistantResponse_outcome (stream : ReadableStream)
    (stub model : jsstring) (w : World) :
  fst (captureAssistantResponse stream stub model w) = Ok tt /\
  (snd (captureAssistantResponse stream stub model w) = w \/
   exists reply,
     reply <> [] /\
     snd (captureAssistantResponse stream stub model w)
     = commit w stub
         (snd (SessionDurableObject.persistMessage (ChatMessage "assistant" reply)
                 (trimmed_string (JStr model)) (session_state w stub)))).
Proof.
  unfold captureAssistantResponse.
  destruct (capture_loop (chunks stream) [] [] []) as [buffered collected].
  match goal with
  | |- context [negb (nonempty ?full)] => destruct (nonempty full) eqn:Hfull
  end; cbn [negb].
  - rewrite appendMessage_spec by (apply chat_message_valid; now right).
    split; [reflexivity|]. right. eexists. split; [|reflexivity].
    intros Hnil. rewrite Hnil in Hfull. discriminate.
  - split; [reflexivity|now left].
Qed.

(** X13.  A chat turn (the handler and the background work it registers)
    writes nothing to the vector index (it makes no [upsert] call), draws
    no document id, and changes the storage of no session but the one
    named by the trimmed [sessionId] of the request. *)
Theorem chat_turn_is_confined (request : Request) (env : Env) (w : World) :
  let sessionId := string_field (safeJson request) "sessionId" in
  let w' := snd (chat_turn request env w) in
  upsert_calls w' = upsert_calls w /\
  uuid_calls w' = uuid_calls w /\
  (forall other, other <> sessionId ->
     session_storage w' other = session_storage w other).
Proof.
  intros sessionId w'. subst w'. unfold chat_turn.
  destruct (truthy (safeJson request)) eqn:Hbody.
  2: { destruct (handleChatRequest_invalid request env w (or_introl Hbody))
         as (r & -> & _). auto. }
  destruct (nonempty sessionId) eqn:Hid.
  2: { destruct (handleChatRequest_invalid request env w (or_intror (or_introl Hid)))
         as (r & -> & _). auto. }
  destruct (nonempty (string_field (safeJson request) "message")) eqn:Hmsg.
  2: { destruct (handleChatRequest_invalid request env w (or_intror (or_intror Hmsg)))
         as (r & -> & _). auto. }
  destruct (getSessionRecord_total (session_state w sessionId))
    as (session & st1 & Hread).
  rewrite (handleChatRequest_valid request env w session st1 Hbody Hid Hmsg Hread).
  fold sessionId.
  match goal with
  | |- context [commit (commit w sessionId st1) sessionId
                  (snd (SessionDurableObject.persistMessage ?m ?model _))] =>
      destruct (session_after_user_message w sessionId st1 m model)
        as (_ & Hups & Huuid & Hother);
      set (w2 := commit (commit w sessionId st1) sessionId
                   (snd (SessionDurableObject.persistMessage m model
                           (session_state (commit w sessionId st1) sessionId)))) in *
  end.
  destruct (buildRetrievalContext env _) as [[promptMessages snippets]|e]; [|auto].
  destruct (AI_run_chat env _ _) as [raw|e]; [|auto].
  destruct (raw_body raw) as [modelStream|]; [|auto].
  cbn [snd drain].
  match goal with
  | |- context [captureAssistantResponse modelStream sessionId ?model w2] =>
      destruct (captureAssistantResponse_outcome modelStream sessionId model w2)
        as [_ [-> | (reply & _ & ->)]]
  end; [auto|].
  split; [exact Hups|]. split; [exact Huuid|].
  intros other H. rewrite session_storage_commit_other by congruence. auto.
Qed.

(** The history of a session after a chat turn, when nothing is kept
    under the legacy key. *)
Lemma chat_turn_history (request : Request) (env : Env) (w : World) :
  let payload := safeJson request in
  let sessionId := string_field payload "sessionId" in
  let message := string_field payload "message" in
  truthy payload = true -> nonempty sessionId = true -> nonempty message = true ->
  session_storage w sessionId !! "messages" = None ->
  let before := session_messages w sessionId in
  let after := session_messages (snd (chat_turn request env w)) sessionId in
  after = slice_last MAX_HISTORY (before ++ [ChatMessage "user" message]) \/
  exists reply,
    reply <> [] /\
    after = slice_last MAX_HISTORY
              (before ++ [ChatMessage "user" message; ChatMessage "assistant" reply]).
Proof.
  intros payload sessionId message Hbody Hid Hmsg Hlegacy before after.
  subst before after. unfold chat_turn.
  destruct (getSessionRecord_total (session_state w sessionId))
    as (session & st1 & Hread).
  rewrite (handleChatRequest_valid request env w session st1 Hbody Hid Hmsg Hread).
  fold payload sessionId message.
  set (model := selectModelId (get payload "modelId")
                  (SessionDurableObject.modelId session) DEFAULT_MODEL_ID).
  set (w1 := commit w sessionId st1).
  set (st2 := snd (SessionDurableObject.persistMessage (ChatMessage "user" message)
                     (trimmed_string (JStr model)) (session_state w1 sessionId))).
  set (w2 := commit w1 sessionId st2).
  assert (Hst1 : SessionDurableObject.stored_messages st1
                 = session_messages w sessionId).
  { unfold session_messages. apply stored_messages_storage.
    pose proof (getSessionRecord_storage (session_state w sessionId) Hlegacy) as H.
    now rewrite Hread in H. }
  assert (Hw2 : session_messages w2 sessionId
                = slice_last MAX_HISTORY
                    (session_messages w sessionId ++ [ChatMessage "user" message])).
  { unfold w2. rewrite session_messages_commit. unfold st2.
    rewrite persistMessage_messages. unfold w1.
    now rewrite session_state_commit, Hst1. }
  destruct (buildRetrievalContext env message) as [[promptMessages snippets]|e];
    [|now left].
  destruct (AI_run_chat env model _) as [raw|e]; [|now left].
  destruct (raw_body raw) as [modelStream|]; [|now left].
  cbn [snd drain].
  destruct (captureAssistantResponse_outcome modelStream sessionId model w2)
    as [_ [-> | (reply & Hreply & ->)]]; [now left|].
  right. exists reply. split; [exact Hreply|].
  rewrite session_messages_commit, persistMessage_messages.
  fold (session_messages w2 sessionId). rewrite Hw2.
  rewrite slice_last_app by discriminate. now rewrite <- app_assoc.
Qed.

(** The capture of the reply stores the text it collected from the
    stream, when that is not empty. *)
Lemma captureAssistantResponse_recorded (stream : ReadableStream)
    (stub model : jsstring) (w : World) :
  snd (captureAssistantResponse stream stub model w)
  = if nonempty (recorded_reply stream) then
      commit w stub
        (snd (SessionDurableObject.persistMessage
                (ChatMessage "assistant" (recorded_reply stream))
                (trimmed_string (JStr model)) (session_state w stub)))
    else w.
Proof.
  unfold captureAssistantResponse, recorded_reply.
  destruct (capture_loop (chunks stream) [] [] []) as [buffered collected].
  match goal with
  | |- context [negb (nonempty ?full)] => destruct (nonempty full) eqn:Hfull
  end; cbn [negb]; [|reflexivity].
  now rewrite appendMessage_spec by (apply chat_message_valid; now right).
Qed.

(** The history of a session after a chat turn, from the answer of the
    chat model: the reply recorded is the text collected from the stream
    the model delivered. *)
Lemma chat_turn_history_exact (request : Request) (env : Env) (w : World) :
  let payload := safeJson request in
  let sessionId := string_field payload "sessionId" in
  let message := string_field payload "message" in
  truthy payload = true -> nonempty sessionId = true -> nonempty message = true ->
  session_storage w sessionId !! "messages" = None ->
  let before := session_messages w sessionId in
  let model :=
    selectModelId (get payload "modelId") (session_modelId w sessionId)
      DEFAULT_MODEL_ID in
  let prompt :=
    match buildRetrievalContext env message with
    | Ok (promptMessages, _) => promptMessages
    | Throw _ => []
    end in
  let reply :=
    match AI_run_chat env model
            ([ChatMessage "system" SYSTEM_PROMPT] ++ prompt
             ++ slice_last MAX_HISTORY before ++ [ChatMessage "user" message]) with
    | Ok raw =>
        match raw_body raw with
        | Some modelStream => recorded_reply modelStream
        | None => []
        end
    | Throw _ => []
    end in
  session_messages (snd (chat_turn request env w)) sessionId
  = slice_last MAX_HISTORY
      (before ++ [ChatMessage "user" message]
       ++ if nonempty reply then [ChatMessage "assistant" reply] else []).
Proof.
  intros payload sessionId message Hbody Hid Hmsg Hlegacy before model prompt reply.
  unfold chat_turn.
  destruct (getSessionRecord_total (session_state w sessionId))
    as (session & st1 & Hread).
  rewrite (handleChatRequest_valid request env w session st1 Hbody Hid Hmsg Hread).
  fold payload sessionId message.
  assert (Hmodel : SessionDurableObject.modelId session = session_modelId w sessionId).
  { unfold session_modelId. now rewrite Hread. }
  assert (Hbefore : SessionDurableObject.messages session = before).
  { unfold before, session_messages, SessionDurableObject.stored_messages.
    now rewrite Hread. }
  rewrite Hmodel, Hbefore. fold model.
  set (w1 := commit w sessionId st1).
  set (st2 := snd (SessionDurableObject.persistMessage (ChatMessage "user" message)
                     (trimmed_string (JStr model)) (session_state w1 sessionId))).
  set (w2 := commit w1 sessionId st2).
  assert (Hst1 : SessionDurableObject.stored_messages st1 = before).
  { unfold before, session_messages. apply stored_messages_storage.
    pose proof (getSessionRecord_storage (session_state w sessionId) Hlegacy) as H.
    now rewrite Hread in H. }
  assert (Hw2 : session_messages w2 sessionId
                = slice_last MAX_HISTORY (before ++ [ChatMessage "user" message])).
  { unfold w2. rewrite session_messages_commit. unfold st2.
    rewrite persistMessage_messages. unfold w1.
    now rewrite session_state_commit, Hst1. }
  assert (Hnone : reply = [] ->
    session_messages w2 sessionId
    = slice_last MAX_HISTORY
        (before ++ [ChatMessage "user" message]
         ++ if nonempty reply then [ChatMessage "assistant" reply] else [])).
  { intros ->. cbn [nonempty]. now rewrite app_nil_r. }
  subst prompt reply.
  destruct (buildRetrievalContext env message)
    as [[promptMessages snippets]|e] eqn:Hctx.
  2: { destruct (buildRetrievalContext_total env message) as (p0 & s0 & H).
       rewrite Hctx in H. discriminate. }
  destruct (AI_run_chat env model _) as [raw|e]; [|now apply Hnone].
  destruct (raw_body raw) as [modelStream|]; [|now apply Hnone].
  cbn [snd drain]. rewrite captureAssistantResponse_recorded.
  destruct (nonempty (recorded_reply modelStream)) eqn:Hreply.
  - rewrite session_messages_commit, persistMessage_messages.
    fold (session_messages w2 sessionId). rewrite Hw2.
    rewrite slice_last_app by discriminate. now rewrite <- app_assoc.
  - rewrite Hw2. now rewrite app_nil_r.
Qed.

(** X14.  What a chat turn leaves in the history of a session that has
    nothing under the legacy key: the messages it had, then the user
    message, then, when a reply was recorded, the assistant message with
    that reply, which is not empty; the whole cut to the last
    [MAX_HISTORY] = 20. *)
Theorem chat_turn_appends_in_order (request : Request) (env : Env) (w : World) :
  let payload := safeJson request in
  let sessionId := string_field payload "sessionId" in
  let message := string_field payload "message" in
  truthy payload = true -> nonempty sessionId = true -> nonempty message = true ->
  session_storage w sessionId !! "messages" = None ->
  let before := session_messages w sessionId in
  let after := session_messages (snd (chat_turn request env w)) sessionId in
  after = slice_last MAX_HISTORY (before ++ [ChatMessage "user" message]) \/
  exists reply,
    reply <> [] /\
    after = slice_last MAX_HISTORY
              (before ++ [ChatMessage "user" message; ChatMessage "assistant" reply]).
Proof. exact (chat_turn_history request env w). Qed.

(** The cap on the stored history, away from the legacy key.  Whatever a
    session holds, after any non-empty sequence of appends its stored
    history is the last [MAX_HISTORY] = 20 entries of what it held
    followed by the appended messages: it never exceeds 20 entries, what
    is dropped is dropped from the old end, and a session that held 25
    messages holds exactly 20 afterwards.  For a
    session that starts empty, after any sequence of requests to the
    session store the stored history is the last 20 of all messages
    appended so far.  A chat turn on a session with nothing under the
    legacy key ["messages"] leaves the last 20 of what the session held,
    the user message and, when the text collected from the stream of the
    chat model is not empty, the assistant message with that text: never
    more than 20 entries, and exactly 20 when the session held 25.  A chat
    turn acts on the store through such requests only: a read, the append
    of the user message and, when there is a reply, the append of the
    assistant message. *)
Theorem history_keeps_last_MAX_HISTORY :
  (forall (st : SessionDurableObject.State)
          (appends : list (jsval * option jsstring)),
     appends <> [] ->
     let after :=
       SessionDurableObject.stored_messages
         (SessionDurableObject.persist_all appends st) in
     after = slice_last MAX_HISTORY
               (SessionDurableObject.stored_messages st ++ map fst appends) /\
     length after <= MAX_HISTORY /\
     (exists dropped,
        SessionDurableObject.stored_messages st ++ map fst appends
        = dropped ++ after) /\
     (length (SessionDurableObject.stored_messages st) = 25 -> length after = 20)) /\
  (forall (requests : list Request) (reads : nat),
     let after :=
       SessionDurableObject.stored_messages
         (SessionDurableObject.serve requests (SessionDurableObject.fresh reads)) in
     after = slice_last MAX_HISTORY (SessionDurableObject.accepted requests) /\
     length after <= MAX_HISTORY) /\
  (forall (request : Request) (env : Env) (w : World),
     let payload := safeJson request in
     let sessionId := string_field payload "sessionId" in
     let message := string_field payload "message" in
     truthy payload = true -> nonempty sessionId = true -> nonempty message = true ->
     session_storage w sessionId !! "messages" = None ->
     let before := session_messages w sessionId in
     let model :=
       selectModelId (get payload "modelId") (session_modelId w sessionId)
         DEFAULT_MODEL_ID in
     let prompt :=
       match buildRetrievalContext env message with
       | Ok (promptMessages, _) => promptMessages
       | Throw _ => []
       end in
     let reply :=
       match AI_run_chat env model
               ([ChatMessage "system" SYSTEM_PROMPT] ++ prompt
                ++ slice_last MAX_HISTORY before ++ [ChatMessage "user" message]) with
       | Ok raw =>
           match raw_body raw with
           | Some modelStream => recorded_reply modelStream
           | None => []
           end
       | Throw _ => []
       end in
     let appended :=
       [ChatMessage "user" message]
       ++ if nonempty reply then [ChatMessage "assistant" reply] else [] in
     let after := session_messages (snd (chat_turn request env w)) sessionId in
     after = slice_last MAX_HISTORY (before ++ appended) /\
     length after <= MAX_HISTORY /\
     (exists dropped, before ++ appended = dropped ++ after) /\
     (length before = 25 -> length after = 20)) /\
  (forall (request : Request) (env : Env) (w : World),
     let sessionId := string_field (safeJson request) "sessionId" in
     let message := string_field (safeJson request) "message" in
     exists requests,
       session_state (snd (chat_turn request env w)) sessionId
       = SessionDurableObject.serve requests (session_state w sessionId) /\
       (SessionDurableObject.accepted requests = [] \/
        SessionDurableObject.accepted requests = [ChatMessage "user" message] \/
        exists reply,
          SessionDurableObject.accepted requests
          = [ChatMessage "user" message; ChatMessage "assistant" reply])).
Proof.
  split; [|split; [|split]].
  - intros st appends Hne after. subst after.
    rewrite persist_all_messages by assumption.
    split; [reflexivity|]. split; [|split].
    + rewrite slice_last_length. lia.
    + apply slice_last_suffix.
    + intros H25. rewrite slice_last_length, length_app, H25.
      unfold MAX_HISTORY. lia.
  - intros requests reads after. subst after.
    rewrite (serve_history requests (SessionDurableObject.fresh reads) []);
      [| reflexivity | reflexivity].
    split; [reflexivity|]. rewrite slice_last_length. lia.
  - intros request env w payload sessionId message Hbody Hid Hmsg Hlegacy
      before model prompt reply appended after.
    pose proof (chat_turn_history_exact request env w Hbody Hid Hmsg Hlegacy)
      as Hafter.
    fold payload sessionId message before model prompt reply appended after
      in Hafter.
    rewrite Hafter. split; [reflexivity|].
    split; [rewrite slice_last_length; lia|]. split.
    + apply slice_last_suffix.
    + intros H25. rewrite slice_last_length, length_app, H25.
      unfold MAX_HISTORY, appended. rewrite length_app. cbn [length]. lia.
  - apply chat_turn_store_requests.
Qed.

End ChatOutcomes.

(** Session [s1] holds twenty-five messages in a record under the session
    key; after one more chat turn, answered [Hello], it holds twenty. *)
Lemma history_keeps_last_MAX_HISTORY_witness :
  let before := Worker.session_messages Example.stored_world (lit "s1") in
  let after :=
    Worker.session_messages
      (snd (Worker.chat_turn (J := Example.hello_parser)
              Example.hi_request Example.hello_env Example.stored_world))
      (lit "s1") in
  length before = 25 /\
  last after = Some (ChatMessage "assistant" (lit "Hello")) /\
  length after = 20.
Proof.
  split; [reflexivity|]. split; [reflexivity|].
  refine (proj2 (proj2 (proj2
            (proj1 (proj2 (proj2 (history_keeps_last_MAX_HISTORY
                                    (P := Example.platform)
                                    (J := Example.hello_parser))))
               Example.hi_request Example.hello_env Example.stored_world
               _ _ _ _))) _);
    reflexivity.
Defined.

(** A chat request whose session id is two blanks. *)
Lemma chat_request_validation_witness :
  Worker.handleChatRequest (J := Example.parser)
    Scenario.blank_session_request Example.env Example.empty_world
  = (Ok (jsonResponse (error_payload (lit "Missing sessionId")) 400, []),
     Example.empty_world).
Proof.
  apply (proj1 (proj2 (chat_request_validation (P := Example.platform)
                         (J := Example.parser)
                         Scenario.blank_session_request Example.env
                         Example.empty_world))).
  - reflexivity.
  - intros s [= <-]. reflexivity.
Defined.

(** With the chat model out of service the turn is answered 500, and
    [hi] is the last message of the session. *)
Lemma failed_turn_keeps_user_message_witness :
  exists response w',
    Worker.handleChatRequest (J := Example.parser)
      Example.hi_request Scenario.env_chat_down Example.empty_world
    = (Ok (response, []), w') /\
    status response = 500 /\
    last (Worker.session_messages w' (lit "s1"))
    = Some (ChatMessage "user" (lit "hi")) /\
    Worker.upsert_calls w' = [].
Proof.
  apply (failed_turn_keeps_user_message (P := Example.platform) (J := Example.parser)
           Example.hi_request Scenario.env_chat_down Example.empty_world).
  - reflexivity.
  - reflexivity.
  - reflexivity.
  - intros model messages. exact I.
Defined.

(** A first turn on session [s1], the model answering [Hello]. *)
Lemma chat_turn_appends_in_order_witness :
  let after :=
    Worker.session_messages
      (snd (Worker.chat_turn (J := Example.hello_parser)
              Example.hi_request Example.hello_env Example.empty_world))
      (lit "s1") in
  after = slice_last MAX_HISTORY ([] ++ [ChatMessage "user" (lit "hi")]) \/
  exists reply,
    reply <> [] /\
    after = slice_last MAX_HISTORY
              ([] ++ [ChatMessage "user" (lit "hi"); ChatMessage "assistant" reply]).
Proof.
  apply (chat_turn_appends_in_order (P := Example.platform) (J := Example.hello_parser)
           Example.hi_request Example.hello_env Example.empty_world).
  - reflexivity.
  - reflexivity.
  - reflexivity.
  - reflexivity.
Defined.

(** ** Recording the reply *)

Section Capture.
Context {P : Platform} {J : Worker.JsonParser}.
Import Worker.

Lemma split_lines_cons (c : N) (s : jsstring) :
  split_lines (c :: s) =
  let '(lines, last) := split_lines s in
  if N.eqb c NL then ([] :: lines, last)
  else match lines with
       | [] => ([], c :: last)
       | l :: lines' => ((c :: l) :: lines', last)
       end.
Proof. reflexivity. Qed.

Lemma join_cons (sep p : jsstring) (q : jsstring) (rest : list jsstring) :
  join sep (p :: q :: rest) = p ++ sep ++ join sep (q :: rest).
Proof. reflexivity. Qed.

(** X15.  Cutting the buffered text into complete lines and an unfinished
    last line loses nothing: joined again with newlines they give the text
    back, and neither the lines nor the rest hold a newline. *)
Theorem split_lines_round_trip (s : jsstring) :
  let '(lines, last) := split_lines s in
  join [NL] (lines ++ [last]) = s /\
  forallb one_line lines = true /\ one_line last = true.
Proof.
  induction s as [|c s IH]; [now cbn|].
  rewrite split_lines_cons.
  destruct (split_lines s) as [lines last]. destruct IH as (Hjoin & Hlines & Hlast).
  destruct (N.eqb c NL) eqn:Hc.
  - apply N.eqb_eq in Hc. subst c. split; [|split].
    + destruct lines as [|l lines]; cbn [app] in *.
      * cbn in Hjoin. subst s. reflexivity.
      * change (join [NL] ([] :: l :: lines ++ [last]))
          with ([] ++ [NL] ++ join [NL] (l :: lines ++ [last])).
        now rewrite Hjoin.
    + cbn [forallb]. now rewrite Hlines.
    + exact Hlast.
  - destruct lines as [|l lines].
    + cbn [app] in *. cbn in Hjoin. subst s. split; [reflexivity|].
      split; [reflexivity|]. cbn [one_line forallb]. rewrite Hc. exact Hlast.
    + cbn [app] in *. split; [|split].
      * destruct (lines ++ [last]) as [|q rest] eqn:Hrest;
          [now destruct lines|].
        rewrite join_cons in *. cbn [app]. now rewrite <- Hjoin.
      * cbn [forallb] in *. apply andb_true_iff in Hlines as [Hl Hlines].
        rewrite Hlines, andb_true_r. cbn [one_line forallb]. now rewrite Hc.
      * exact Hlast.
Qed.

(** Splitting a text that arrives in two parts. *)
Lemma split_lines_app (x y : jsstring) :
  split_lines (x ++ y) =
  let '(lines1, rest1) := split_lines x in
  let '(lines2, rest2) := split_lines (rest1 ++ y) in
  (lines1 ++ lines2, rest2).
Proof.
  induction x as [|c x IH].
  - cbn [app split_lines]. now destruct (split_lines y).
  - cbn [app]. rewrite !split_lines_cons, IH.
    destruct (split_lines x) as [lines1 rest1].
    destruct (N.eqb c NL) eqn:Hc.
    + now destruct (split_lines (rest1 ++ y)).
    + destruct lines1 as [|l lines1].
      * cbn [app]. rewrite split_lines_cons.
        destruct (split_lines (rest1 ++ y)) as [lines2 rest2].
        rewrite Hc. now destruct lines2.
      * now destruct (split_lines (rest1 ++ y)).
Qed.

Lemma consume_lines_app (lines1 lines2 : list jsstring) (fullResponse : jsstring) :
  consume_lines (lines1 ++ lines2) fullResponse
  = consume_lines lines2 (consume_lines lines1 fullResponse).
Proof. unfold consume_lines. apply fold_left_app. Qed.

(** Two chunks read one after the other, and the same bytes read as one
    chunk. *)
Lemma capture_loop_merge (a b : list N) (rest : list (list N)) (carry : list N)
    (buffered fullResponse : jsstring) :
  decoder_streams ->
  capture_loop (a :: b :: rest) carry buffered fullResponse
  = capture_loop ((a ++ b) :: rest) carry buffered fullResponse.
Proof.
  intros Hdecoder. cbn [capture_loop]. rewrite (Hdecoder carry a b).
  destruct (TextDecoder_decode carry a) as [t1 c1].
  destruct (TextDecoder_decode c1 b) as [t2 c2].
  rewrite (app_assoc buffered t1 t2), (split_lines_app (buffered ++ t1) t2).
  destruct (split_lines (buffered ++ t1)) as [lines1 rest1].
  destruct (split_lines (rest1 ++ t2)) as [lines2 rest2].
  now rewrite consume_lines_app.
Qed.

Lemma capture_loop_concat (source : list (list N)) :
  decoder_streams ->
  forall (first : list N) (carry : list N) (buffered fullResponse : jsstring),
  capture_loop (first :: source) carry buffered fullResponse
  = capture_loop [first ++ concat source] carry buffered fullResponse.
Proof.
  intros Hdecoder. induction source as [|value source IH];
    intros first carry buffered fullResponse.
  - cbn [concat]. now rewrite app_nil_r.
  - rewrite capture_loop_merge by assumption.
    rewrite IH. cbn [concat]. now rewrite app_assoc.
Qed.

(** X16.  With a decoder that decodes a chunk delivered in two parts as it
    decodes the whole chunk, what is recorded as the assistant's reply
    depends on the bytes of the model's stream only, not on how the stream
    cuts them into chunks: two streams that deliver at least one chunk
    each, the same bytes in all and end the same way leave the same
    world. *)
Theorem capture_ignores_chunk_boundaries (s1 s2 : ReadableStream)
    (stub model : jsstring) (w : World) :
  decoder_streams ->
  chunks s1 <> [] -> chunks s2 <> [] ->
  stream_bytes s1 = stream_bytes s2 -> ending s1 = ending s2 ->
  captureAssistantResponse s1 stub model w
  = captureAssistantResponse s2 stub model w.
Proof.
  intros Hdecoder H1 H2 Hbytes Hend. unfold captureAssistantResponse.
  assert (Hloop : capture_loop (chunks s1) [] [] []
                  = capture_loop (chunks s2) [] [] []).
  { unfold stream_bytes in Hbytes.
    destruct (chunks s1) as [|a1 r1]; [congruence|].
    destruct (chunks s2) as [|a2 r2]; [congruence|].
    rewrite (capture_loop_concat r1 Hdecoder a1), (capture_loop_concat r2 Hdecoder a2).
    cbn [concat] in Hbytes. now rewrite Hbytes. }
  now rewrite Hloop, Hend.
Qed.

End Capture.

(** The decoder of the example runtime streams, and the reply recorded
    from the line [hello_line] is the same whether the line arrives in one
    chunk or cut after its first byte. *)
Lemma capture_ignores_chunk_boundaries_witness :
  let bytes := TextEncoder_encode (Example.hello_line ++ [NL]) in
  Worker.captureAssistantResponse (J := Example.hello_parser)
    {| chunks := [take 1 bytes; drop 1 bytes]; ending := Closed |}
    (lit "s1") DEFAULT_MODEL_ID Example.empty_world
  = Worker.captureAssistantResponse (J := Example.hello_parser)
      {| chunks := [bytes]; ending := Closed |}
      (lit "s1") DEFAULT_MODEL_ID Example.empty_world.
Proof.
  intros bytes.
  refine (capture_ignores_chunk_boundaries (P := Example.platform)
           (J := Example.hello_parser)
           {| chunks := [take 1 bytes; drop 1 bytes]; ending := Closed |}
           {| chunks := [bytes]; ending := Closed |}
           (lit "s1") DEFAULT_MODEL_ID Example.empty_world _ _ _ _ _).
  - intros carry a b. cbn. now rewrite app_assoc.
  - discriminate.
  - discriminate.
  - unfold stream_bytes; cbn [chunks concat]; rewrite app_nil_r; apply take_drop.
  - reflexivity.
Defined.

(** ** The end of the client's stream *)

Section StreamEnding.
Context {P : Platform} {J : Worker.JsonParser}.
Import Worker.

(** X17.  How the client's stream ends.  Behind a framing line, every
    chunk of the model's stream is passed on as a chunk of its own (an
    empty one included) and the stream is then closed, even when the
    model's stream failed: the failure is caught and not shown to the
    client.  Without snippets the client's stream is the model's stream
    and ends as it does.  This is so for every streamed answer of the chat
    handler. *)
Theorem client_stream_ending :
  (forall stream snippets,
     snippets <> [] ->
     chunks (prependContextStream stream snippets)
     = context_frame snippets :: chunks stream /\
     ending (prependContextStream stream snippets) = Closed) /\
  (forall request env w w' response ctx outbound,
     handleChatRequest request env w = (Ok (response, ctx), w') ->
     body response = StreamBody outbound ->
     exists model messages raw modelStream promptMessages snippets,
       AI_run_chat env model messages = Ok raw /\
       raw_body raw = Some modelStream /\
       buildRetrievalContext env (string_field (safeJson request) "message")
         = Ok (promptMessages, snippets) /\
       ending outbound
       = match snippets with [] => ending modelStream | _ :: _ => Closed end).
Proof.
  split.
  - intros stream [|s snippets] Hne; [congruence|].
    cbn [prependContextStream chunks ending]. now rewrite pump_all.
  - intros request env w w' response ctx outbound Hrun Hbody.
    destruct (handleChatRequest_stream request env w w' response ctx outbound
                Hrun Hbody)
      as (model & messages & raw & modelStream & prompt & snippets
          & Hai & Hraw & _ & _ & Hctx & ->).
    exists model, messages, raw, modelStream, prompt, snippets.
    repeat split; try assumption. now destruct snippets.
Qed.

End StreamEnding.

(** A model stream that fails after its only chunk, behind the framing
    of one snippet. *)
Lemma client_stream_ending_witness :
  let failing := {| chunks := [[123%N]]; ending := Errored |} in
  chunks (Worker.prependContextStream failing [Example.sample_snippet])
  = Worker.context_frame [Example.sample_snippet] :: [[123%N]] /\
  ending (Worker.prependContextStream failing [Example.sample_snippet]) = Closed.
Proof.
  intros failing.
  apply (proj1 (client_stream_ending (P := Example.platform) (J := Example.parser))).
  discriminate.
Defined.

(** ** What retrieval returns *)

Section RetrievalShape.
Context {P : Platform}.
Import Worker.

Lemma usable_match_snippet (m : jsval) :
  usable_match m = true ->
  text (snippet_of_match m) <> [] /\
  trim (text (snippet_of_match m)) = text (snippet_of_match m).
Proof.
  unfold usable_match, snippet_of_match. cbn [text].
  destruct (truthy m); [|discriminate]. cbn [andb].
  destruct (get (get m "metadata") "text") as [| | | |t| |]; try discriminate.
  intros H. split; [|apply trim_idem].
  intros Hnil. now rewrite Hnil in H.
Qed.

(** The loop over the matches keeps the snippets of the usable matches,
    in order, until it has [MAX_CONTEXT_CHUNKS] of them. *)
Lemma collect_contexts_spec (found : list jsval) :
  forall contexts : list ContextSnippet,
  length contexts < MAX_CONTEXT_CHUNKS ->
  collect_contexts found contexts
  = take MAX_CONTEXT_CHUNKS
      (contexts ++ map snippet_of_match (List.filter usable_match found)).
Proof.
  induction found as [|m found IH]; intros contexts Hroom.
  - cbn [collect_contexts List.filter map]. rewrite app_nil_r.
    symmetry. apply take_ge. lia.
  - cbn [collect_contexts List.filter]. unfold usable_match at 1.
    destruct (truthy m); cbn [negb andb]; [|now apply IH].
    fold (snippet_of_match m).
    change (match get (get m "metadata") "text" with
            | JStr t => trim t
            | _ => []
            end) with (text (snippet_of_match m)).
    assert (Htext : match get (get m "metadata") "text" with
                    | JStr t => nonempty (trim t)
                    | _ => false
                    end = nonempty (text (snippet_of_match m))).
    { unfold snippet_of_match. cbn [text].
      now destruct (get (get m "metadata") "text"). }
    rewrite Htext.
    destruct (nonempty (text (snippet_of_match m))); cbn [negb]; [|now apply IH].
    cbn [map].
    replace (contexts ++ snippet_of_match m
               :: map snippet_of_match (List.filter usable_match found))
      with ((contexts ++ [snippet_of_match m])
              ++ map snippet_of_match (List.filter usable_match found))
      by now rewrite <- app_assoc.
    destruct (MAX_CONTEXT_CHUNKS <=? length (contexts ++ [snippet_of_match m]))
      eqn:Hfull.
    + apply Nat.leb_le in Hfull. rewrite length_app in Hfull. cbn [length] in Hfull.
      symmetry. rewrite take_app_le by (rewrite length_app; cbn [length]; lia).
      apply take_ge. rewrite length_app. cbn [length]. lia.
    + apply Nat.leb_gt in Hfull. now apply IH.
Qed.

Lemma buildRetrievalContext_snippets (env : Env) (question : jsstring) :
  exists prompt snippets,
    buildRetrievalContext env question = Ok (prompt, snippets) /\
    (snippets = [] /\ prompt = [] \/
     exists vector queryResult block,
       nonempty (trim question) = true /\
       embedText env (trim question) = Ok (Some vector) /\
       VECTORIZE_query env vector MAX_CONTEXT_CHUNKS = Ok queryResult /\
       snippets = collect_contexts (query_matches queryResult) [] /\
       snippets <> [] /\
       prompt = [ChatMessage "system" (context_instruction ++ block)]).
Proof.
  unfold buildRetrievalContext, no_context.
  destruct (nonempty (trim question)) eqn:Hq; cbn [negb]; [|eauto 6].
  unfold try_catch, rbind.
  destruct (embedText env (trim question)) as [[vector|]|e] eqn:Hembed; eauto 6.
  destruct (VECTORIZE_query env vector MAX_CONTEXT_CHUNKS) as [queryResult|e] eqn:Hquery;
    eauto 6.
  destruct (collect_contexts (query_matches queryResult) []) as [|s snippets] eqn:Hc.
  - cbn [length Nat.eqb]. eauto 6.
  - cbn [length Nat.eqb]. do 2 eexists. split; [reflexivity|]. right.
    exists vector, queryResult. eexists.
    split; [reflexivity|]. split; [reflexivity|]. split; [exact Hquery|].
    split; [exact (eq_sym Hc)|]. split; [discriminate|reflexivity].
Qed.

(** X18.  Retrieval always returns, with at most [MAX_CONTEXT_CHUNKS] = 4
    snippets; the text of each is trimmed and not empty.  Without a
    snippet there is no prompt message; with snippets there is exactly
    one, a system message that opens with the instruction to use the
    reference material. *)
Theorem retrieval_context_shape (env : Env) (question : jsstring) :
  exists prompt snippets,
    buildRetrievalContext env question = Ok (prompt, snippets) /\
    length snippets <= MAX_CONTEXT_CHUNKS /\
    Forall (fun s => text s <> [] /\ trim (text s) = text s) snippets /\
    (snippets = [] -> prompt = []) /\
    (snippets <> [] ->
     exists block, prompt = [ChatMessage "system" (context_instruction ++ block)]).
Proof.
  destruct (buildRetrievalContext_snippets env question)
    as (prompt & snippets & Hrun &
        [[-> ->]|(vector & queryResult & block & _ & _ & _ & Hs & Hne & ->)]).
  - exists [], []. split; [exact Hrun|]. split; [cbn; lia|].
    split; [constructor|]. split; [reflexivity|congruence].
  - do 2 eexists. split; [exact Hrun|].
    rewrite collect_contexts_spec in Hs by (cbn; unfold MAX_CONTEXT_CHUNKS; lia).
    cbn [app] in Hs. split; [|split; [|split]].
    + rewrite Hs, length_take. lia.
    + rewrite Hs. apply Forall_take. apply Forall_forall.
      intros s Hin. apply list_elem_of_In, in_map_iff in Hin as (m & <- & Hm).
      apply filter_In in Hm as [_ Hm]. now apply usable_match_snippet.
    + congruence.
    + intros _. now exists block.
Qed.

(** The snippets, when the question is embedded and the index answers. *)
Lemma buildRetrievalContext_matches (env : Env) (question : jsstring)
    (vector : list number) (queryResult : option VectorizeQueryResponse) :
  nonempty (trim question) = true ->
  embedText env (trim question) = Ok (Some vector) ->
  VECTORIZE_query env vector MAX_CONTEXT_CHUNKS = Ok queryResult ->
  exists prompt,
    buildRetrievalContext env question
    = Ok (prompt,
          take MAX_CONTEXT_CHUNKS
            (map snippet_of_match
               (List.filter usable_match (query_matches queryResult)))).
Proof.
  intros Hq Hembed Hquery.
  unfold buildRetrievalContext. rewrite Hq. cbn [negb].
  unfold try_catch, rbind. rewrite Hembed, Hquery.
  rewrite collect_contexts_spec by (cbn; unfold MAX_CONTEXT_CHUNKS; lia).
  cbn [app].
  destruct (length _ =? 0) eqn:Hlen.
  - apply Nat.eqb_eq in Hlen. apply length_zero_iff_nil in Hlen.
    rewrite Hlen. now exists [].
  - eexists. reflexivity.
Qed.

(** X19.  When the question is embedded and the index answers, the
    snippets are those of the first [MAX_CONTEXT_CHUNKS] usable matches,
    in the order of the index: a match that is null, has no metadata, or
    whose text is missing, not a string or blank is passed over and does
    not count towards the four. *)
Theorem retrieval_takes_first_usable_matches (env : Env) (question : jsstring)
    (vector : list number) (queryResult : option VectorizeQueryResponse) :
  nonempty (trim question) = true ->
  embedText env (trim question) = Ok (Some vector) ->
  VECTORIZE_query env vector MAX_CONTEXT_CHUNKS = Ok queryResult ->
  exists prompt,
    buildRetrievalContext env question
    = Ok (prompt,
          take MAX_CONTEXT_CHUNKS
            (map snippet_of_match
               (List.filter usable_match (query_matches queryResult)))).
Proof. apply buildRetrievalContext_matches. Qed.

(** X20.  Retrieval reads no more than the first [EMBEDDING_MAX_CHARS] =
    2048 characters of the trimmed question: two questions that agree on
    them get the same context. *)
Theorem retrieval_reads_a_bounded_question (env : Env) (q1 q2 : jsstring) :
  take EMBEDDING_MAX_CHARS (trim q1) = take EMBEDDING_MAX_CHARS (trim q2) ->
  buildRetrievalContext env q1 = buildRetrievalContext env q2.
Proof.
  intros Hsame.
  assert (Htruncate : forall s, truncate EMBEDDING_MAX_CHARS s
                                = take EMBEDDING_MAX_CHARS s).
  { intros s. unfold truncate, slice.
    destruct (EMBEDDING_MAX_CHARS <? length s) eqn:Hlen.
    - now rewrite Nat.sub_0_r, drop_0.
    - apply Nat.ltb_ge in Hlen. symmetry. now apply take_ge. }
  assert (Hembed : embedText env (trim q1) = embedText env (trim q2)).
  { unfold embedText. now rewrite !Htruncate, Hsame. }
  assert (Hempty : nonempty (trim q1) = nonempty (trim q2)).
  { destruct (trim q1) as [|c1 t1], (trim q2) as [|c2 t2];
      try reflexivity; discriminate. }
  unfold buildRetrievalContext. now rewrite Hembed, Hempty.
Qed.

End RetrievalShape.

(** Of the eight matches of the example index the first two are passed
    over, and the snippets are those of the next four. *)
Lemma retrieval_takes_first_usable_matches_witness :
  exists prompt,
    Worker.buildRetrievalContext Scenario.env_with_matches (lit "what is alpha?")
    = Ok (prompt, repeat (snippet_of_match Scenario.sample_match) 4).
Proof.
  apply (retrieval_takes_first_usable_matches (P := Example.platform)
           Scenario.env_with_matches (lit "what is alpha?") [1%Z]
           (Some (@Worker.Build_VectorizeQueryResponse Example.platform
                    (Some ([JNull; JObj [(lit "id", JStr (lit "doc-1#0"))]]
                           ++ repeat Scenario.sample_match 6))))).
  - reflexivity.
  - reflexivity.
  - reflexivity.
Defined.

(** Two questions that differ in their character 2049 only. *)
Lemma retrieval_reads_a_bounded_question_witness :
  Worker.buildRetrievalContext Example.env (repeat 97%N 2048 ++ lit "x")
  = Worker.buildRetrievalContext Example.env (repeat 97%N 2048 ++ lit "y").
Proof.
  apply (retrieval_reads_a_bounded_question (P := Example.platform) Example.env).
  vm_compute. reflexivity.
Defined.

(** ** The records of a document *)

Section Records.
Context {P : Platform}.
Import Worker.

Lemma after_clock_reads_0 (w : World) : after_clock_reads w 0 = w.
Proof. destruct w. unfold after_clock_reads. cbn. now rewrite Nat.add_0_r. Qed.

(** The loop over the chunks, record by record. *)
Lemma forEach_chunk_records (embeddingData : list (option EmbeddingItem))
    (docId : jsstring) (meta : DocumentMetadata) (all : list jsstring)
    (chunks : list jsstring) :
  forall (index : nat) (upserts : list VectorRecord) (w : World),
  drop index all = chunks ->
  exists added,
    forEach_chunk embeddingData docId meta chunks index upserts w
    = (Ok (upserts ++ added), after_clock_reads w (length added)) /\
    Forall (record_matches embeddingData all docId meta) added.
Proof.
  induction chunks as [|chunk chunks IH]; intros index upserts w Hdrop.
  - exists []. cbn [forEach_chunk length]. rewrite app_nil_r, after_clock_reads_0.
    split; [reflexivity|constructor].
  - assert (Hchunk : all !! index = Some chunk).
    { rewrite <- (Nat.add_0_r index), <- lookup_drop, Hdrop. reflexivity. }
    assert (Hrest : drop (S index) all = chunks).
    { rewrite <- (Nat.add_1_r index), <- drop_drop, Hdrop. reflexivity. }
    cbn [forEach_chunk].
    destruct (embeddingData !! index) as [[item|]|] eqn:Hitem;
      [destruct (embedding item) as [[|x v]|] eqn:Hembedding| |].
    2: { unfold bind, new_Date_toISOString.
         match goal with
         | |- context [forEach_chunk _ _ _ _ _ (upserts ++ [?r]) ?w1] =>
             destruct (IH (S index) (upserts ++ [r]) w1 Hrest)
               as (added & -> & Hall);
             exists (r :: added)
         end.
         split.
         - rewrite <- app_assoc. cbn [app length]. f_equal.
           unfold after_clock_reads. cbn. f_equal. lia.
         - constructor; [|exact Hall].
           unfold record_matches. cbn.
           repeat split; eauto; try discriminate. }
    all: destruct (IH (S index) upserts w Hrest) as (added & -> & Hall);
         exists added; split; [reflexivity|exact Hall].
Qed.

(** What [generateEmbeddingsForChunks] returns, and the world it
    leaves. *)
Lemma generateEmbeddingsForChunks_records (env : Env) (chunks : list jsstring)
    (maxChunkLength : nat) (docId : jsstring) (meta : DocumentMetadata)
    (w w' : World) (upserts : list VectorRecord) :
  generateEmbeddingsForChunks env chunks maxChunkLength docId meta w
  = (Ok upserts, w') ->
  exists response,
    AI_run_embedding env (map (truncate maxChunkLength) chunks) = Ok response /\
    Forall (record_matches (embedding_data response)
              (map (truncate maxChunkLength) chunks) docId meta) upserts /\
    upserts <> [] /\ length upserts <= length chunks /\
    w' = after_clock_reads w (length upserts).
Proof.
  intros Hrun.
  destruct (generateEmbeddingsForChunks_ok _ _ _ _ _ _ _ _ Hrun)
    as (response & Hai & Hlen & Hloop & Hne).
  destruct (embedding_count_checked env chunks maxChunkLength docId meta w)
    as (_ & Hcount & _).
  destruct (Hcount upserts w' Hrun) as (response' & _ & _ & Hle).
  exists response. split; [exact Hai|].
  destruct (forEach_chunk_records (embedding_data response) docId meta
              (map (truncate maxChunkLength) chunks)
              (map (truncate maxChunkLength) chunks) 0 [] w eq_refl)
    as (added & Hloop' & Hall).
  rewrite Hloop in Hloop'. cbn [app] in Hloop'. injection Hloop' as -> ->.
  auto.
Qed.

(** X21.  Every record [generateEmbeddingsForChunks] returns pairs a chunk
    with the embedding the model returned at the position of that chunk:
    its text is the (truncated) chunk at its index, its vector is the
    embedding at the same index of the answer and is not empty, and it
    carries the id, the title, the source type and the file name of the
    document.  Making the records reads the clock once per record and does
    nothing else to the world. *)
Theorem records_pair_chunks_with_their_vectors (env : Env)
    (chunks : list jsstring) (maxChunkLength : nat) (docId : jsstring)
    (meta : DocumentMetadata) (w w' : World) (upserts : list VectorRecord) :
  generateEmbeddingsForChunks env chunks maxChunkLength docId meta w
  = (Ok upserts, w') ->
  exists response,
    AI_run_embedding env (map (truncate maxChunkLength) chunks) = Ok response /\
    Forall (record_matches (embedding_data response)
              (map (truncate maxChunkLength) chunks) docId meta) upserts /\
    upserts <> [] /\ length upserts <= length chunks /\
    w' = after_clock_reads w (length upserts).
Proof. apply generateEmbeddingsForChunks_records. Qed.

Lemma filter_none {A} (f : A -> bool) (l : list A) :
  forallb (fun x => negb (f x)) l = true -> List.filter f l = [].
Proof.
  induction l as [|x l IH]; [reflexivity|]. cbn [forallb List.filter].
  intros H. apply andb_true_iff in H as [Hx H].
  apply negb_true_iff in Hx. rewrite Hx. now apply IH.
Qed.

(** X22.  When the embedding model answers with one entry per chunk and
    none of them holds a non-empty embedding (a null entry, an embedding
    that is missing, not an array or empty), no record is made and
    [generateEmbeddingsForChunks] throws the error [... returned no vectors
    for provided content], leaving the world as it was. *)
Theorem no_vectors_is_an_error (env : Env) (chunks : list jsstring)
    (maxChunkLength : nat) (docId : jsstring) (meta : DocumentMetadata)
    (w : World) (response : option EmbeddingResponse) :
  AI_run_embedding env (map (truncate maxChunkLength) chunks) = Ok response ->
  length (embedding_data response) = length chunks ->
  forallb (fun i => negb (has_embedding (embedding_data response) i))
    (seq 0 (length chunks)) = true ->
  generateEmbeddingsForChunks env chunks maxChunkLength docId meta w
  = (Throw (ErrorObject no_vectors_message), w).
Proof.
  intros Hai Hlen Hnone. unfold generateEmbeddingsForChunks, bind, lift.
  rewrite Hai, length_map, Hlen, Nat.eqb_refl. cbn [negb].
  destruct (forEach_chunk_spec (embedding_data response) docId meta
              (map (truncate maxChunkLength) chunks) 0 [] w)
    as (added & w1 & Hloop & Hidx & _).
  rewrite length_map, (filter_none _ _ Hnone) in Hidx.
  destruct added; [|discriminate].
  destruct (forEach_chunk_records (embedding_data response) docId meta
              (map (truncate maxChunkLength) chunks)
              (map (truncate maxChunkLength) chunks) 0 [] w eq_refl)
    as (added' & Hloop' & _).
  rewrite Hloop in Hloop'. injection Hloop' as Hadded ->.
  cbn [app] in Hadded. subst added'. rewrite Hloop.
  cbn [length Nat.eqb app]. now rewrite after_clock_reads_0.
Qed.

End Records.

(** Two chunks and the example embedding model: two records, made with
    two readings of the clock. *)
Lemma records_pair_chunks_with_their_vectors_witness :
  let meta :=
    {| Worker.doc_title := lit "notes"; Worker.doc_sourceType := lit "manual";
       Worker.doc_originalFileName := None |} in
  let run :=
    Worker.generateEmbeddingsForChunks Example.env
      [lit "alpha"; lit "beta"] EMBEDDING_MAX_CHARS (lit "doc-0") meta
      Example.empty_world in
  let upserts := match fst run with Ok records => records | Throw _ => [] end in
  exists response,
    Worker.AI_run_embedding Example.env
      (map (Worker.truncate EMBEDDING_MAX_CHARS) [lit "alpha"; lit "beta"])
    = Ok response /\
    Forall (record_matches (Worker.embedding_data response)
              (map (Worker.truncate EMBEDDING_MAX_CHARS) [lit "alpha"; lit "beta"])
              (lit "doc-0") meta) upserts /\
    upserts <> [] /\ length upserts <= 2 /\
    snd run = after_clock_reads Example.empty_world (length upserts).
Proof.
  intros meta run upserts.
  apply (records_pair_chunks_with_their_vectors (P := Example.platform)
           Example.env [lit "alpha"; lit "beta"]
           EMBEDDING_MAX_CHARS (lit "doc-0") meta Example.empty_world (snd run)).
  reflexivity.
Defined.

(** One chunk whose embedding is an empty array. *)
Lemma no_vectors_is_an_error_witness :
  Worker.generateEmbeddingsForChunks Example.env_first_embedding_empty
    [lit "alpha"] EMBEDDING_MAX_CHARS (lit "doc-0")
    {| Worker.doc_title := lit "notes"; Worker.doc_sourceType := lit "manual";
       Worker.doc_originalFileName := None |}
    Example.empty_world
  = (Throw (ErrorObject no_vectors_message), Example.empty_world).
Proof.
  apply (no_vectors_is_an_error (P := Example.platform)
           Example.env_first_embedding_empty [lit "alpha"] EMBEDDING_MAX_CHARS
           (lit "doc-0") _ Example.empty_world
           (Example.embedding_response [Example.item []])).
  - reflexivity.
  - reflexivity.
  - reflexivity.
Defined.

Section StoredChunks.
Context {P : Platform}.
Import Worker.

Lemma match_of_record_snippet (found : VectorRecord * option number) :
  md_text (metadata (fst found)) <> [] ->
  trim (md_text (metadata (fst found))) = md_text (metadata (fst found)) ->
  usable_match (match_of_record found) = true /\
  snippet_of_match (match_of_record found) = snippet_of_record found.
Proof.
  intros Hne Htrim.
  assert (Hmeta : get (match_of_record found) "metadata"
                  = metadata_value (metadata (fst found))) by reflexivity.
  assert (Hscore : as_number (get (match_of_record found) "score") = snd found)
    by (unfold match_of_record; now destruct (snd found)).
  assert (Htext : get (metadata_value (metadata (fst found))) "text"
                  = JStr (md_text (metadata (fst found)))) by reflexivity.
  assert (Htitle : get (metadata_value (metadata (fst found))) "title"
                   = JStr (md_title (metadata (fst found)))) by reflexivity.
  assert (Hindex : get (metadata_value (metadata (fst found))) "chunkIndex"
                   = JNum (number_of_nat (md_chunkIndex (metadata (fst found)))))
    by reflexivity.
  split.
  - unfold usable_match. rewrite Hmeta, Htext, Htrim.
    cbn [truthy match_of_record andb].
    destruct (md_text (metadata (fst found))); [congruence|reflexivity].
  - unfold snippet_of_match, snippet_of_record.
    rewrite Hmeta, Htext, Htitle, Hindex, Hscore, Htrim. reflexivity.
Qed.

(** X23.  What was stored is what is retrieved.  When the index answers a
    question with stored records, each under the metadata it was stored
    with, and their texts are trimmed and not empty (as the texts of an
    upload are), the snippets are those of the first [MAX_CONTEXT_CHUNKS]
    records, in order: the stored text unchanged, the title of the
    document trimmed, the chunk index and the score. *)
Theorem stored_chunks_come_back_as_snippets (env : Env) (question : jsstring)
    (vector : list number) (found : list (VectorRecord * option number)) :
  nonempty (trim question) = true ->
  embedText env (trim question) = Ok (Some vector) ->
  VECTORIZE_query env vector MAX_CONTEXT_CHUNKS
  = Ok (Some {| matches := Some (map match_of_record found) |}) ->
  Forall (fun r => md_text (metadata (fst r)) <> [] /\
                   trim (md_text (metadata (fst r))) = md_text (metadata (fst r)))
    found ->
  exists prompt,
    buildRetrievalContext env question
    = Ok (prompt, take MAX_CONTEXT_CHUNKS (map snippet_of_record found)).
Proof.
  intros Hq Hembed Hquery Hfound.
  destruct (buildRetrievalContext_matches env question vector _ Hq Hembed Hquery)
    as [prompt Hrun].
  exists prompt. rewrite Hrun. do 3 f_equal.
  cbn [query_matches matches]. clear Hquery Hrun.
  induction Hfound as [|r found [Hne Htrim] _ IH]; [reflexivity|].
  destruct (match_of_record_snippet r Hne Htrim) as [Husable Hsnippet].
  cbn [map List.filter]. rewrite Husable. cbn [map].
  now rewrite Hsnippet, IH.
Qed.

End StoredChunks.

(** The two chunks that the upload of [notes] stored come back as the
    two snippets of a later question. *)
Lemma stored_chunks_come_back_as_snippets_witness :
  exists prompt,
    Worker.buildRetrievalContext Scenario.env_indexed (lit "what is in the notes?")
    = Ok (prompt,
          take MAX_CONTEXT_CHUNKS
            (map snippet_of_record
               (map Scenario.with_score Scenario.notes_records))).
Proof.
  refine (stored_chunks_come_back_as_snippets (P := Example.platform)
            Scenario.env_indexed (lit "what is in the notes?") [1%Z]
            (map Scenario.with_score Scenario.notes_records) _ _ _ _).
  - reflexivity.
  - reflexivity.
  - reflexivity.
  - apply Forall_forall. intros r Hin.
    assert (Hall : forallb
                     (fun r : @Worker.VectorRecord Example.platform
                              * option (@number Example.platform) =>
                        nonempty (Worker.md_text (Worker.metadata (fst r)))
                        && str_eqb (trim (Worker.md_text (Worker.metadata (fst r))))
                             (Worker.md_text (Worker.metadata (fst r))))
                     (map Scenario.with_score Scenario.notes_records) = true)
      by reflexivity.
    rewrite forallb_forall in Hall. apply list_elem_of_In in Hin.
    specialize (Hall r Hin). apply andb_true_iff in Hall as [Hne Htrim].
    apply str_eqb_eq in Htrim. split; [|exact Htrim].
    intros Hnil. rewrite Hnil in Hne. discriminate Hne.
Defined.

(** ** The outcomes of an upload *)

Section UploadOutcomes.
Context {P : Platform}.
Import Worker.

(** Whether it returns or throws, [generateEmbeddingsForChunks] only
    reads the clock. *)
Lemma generateEmbeddingsForChunks_world (env : Env) (chunks : list jsstring)
    (maxChunkLength : nat) (docId : jsstring) (meta : DocumentMetadata) (w : World) :
  exists count,
    snd (generateEmbeddingsForChunks env chunks maxChunkLength docId meta w)
    = after_clock_reads w count.
Proof.
  unfold generateEmbeddingsForChunks, bind, lift.
  destruct (AI_run_embedding env _) as [response|e];
    [|exists 0; now rewrite after_clock_reads_0].
  destruct (negb _); [exists 0; now rewrite after_clock_reads_0|].
  destruct (forEach_chunk_records (embedding_data response) docId meta
              (map (truncate maxChunkLength) chunks)
              (map (truncate maxChunkLength) chunks) 0 [] w eq_refl)
    as (added & -> & _).
  exists (length added). now destruct (length ([] ++ added) =? 0).
Qed.

Lemma document_chunks_bounded (rawText : jsstring) :
  length (document_chunks rawText) <= MAX_DOC_CHUNKS /\
  Forall (fun chunk => 0 < length chunk <= CHUNK_SIZE /\ trim chunk = chunk)
    (document_chunks rawText).
Proof.
  unfold document_chunks.
  destruct (chunkText_bounded
              (truncate DOCUMENT_MAX_CHARS (trim (crlf_to_lf rawText))))
    as [Hcount Hall].
  split.
  - etransitivity; [apply filter_length_le|]. now rewrite length_map.
  - apply Forall_forall. intros chunk Hin.
    apply list_elem_of_In, filter_In in Hin as [Hin Hpos].
    apply Nat.ltb_lt in Hpos.
    apply in_map_iff in Hin as (c & <- & Hc).
    split; [|apply trim_idem]. split; [exact Hpos|].
    rewrite Forall_forall in Hall. apply list_elem_of_In in Hc.
    destruct (Hall c Hc) as [[_ Hle] _].
    etransitivity; [apply trim_length|exact Hle].
Qed.

(** No chunk of a document is long enough to be cut before it is
    embedded. *)
Lemma document_chunks_not_truncated (rawText : jsstring) :
  map (truncate EMBEDDING_MAX_CHARS) (document_chunks rawText)
  = document_chunks rawText.
Proof.
  destruct (document_chunks_bounded rawText) as [_ Hall].
  induction Hall as [|chunk chunks [[_ Hle] _] _ IH]; [reflexivity|].
  cbn [map]. rewrite IH. f_equal. unfold truncate.
  replace (EMBEDDING_MAX_CHARS <? length chunk) with false; [reflexivity|].
  symmetry. apply Nat.ltb_ge. unfold EMBEDDING_MAX_CHARS, CHUNK_SIZE in *. lia.
Qed.

(** The second half of the upload handler, under the handler's [catch]:
    its four outcomes. *)
Lemma indexDocument_outcome (request : Request) (env : Env)
    (docTitle rawText sourceType0 : jsstring) (originalFileName : option jsstring)
    (w : World) :
  let sourceType :=
    match header_x_source_type request with Some h => h | None => sourceType0 end in
  let meta :=
    {| doc_title := docTitle; doc_sourceType := sourceType;
       doc_originalFileName := originalFileName |} in
  let docId := randomUUID (uuid_calls w) in
  let w0 := snd (crypto_randomUUID w) in
  let run :=
    catch (indexDocument request env docTitle rawText sourceType0 originalFileName)
      upload_failure w in
  (run = (Ok (jsonResponse (error_payload (lit "Document content is required")) 400), w)) \/
  (exists e w1,
     generateEmbeddingsForChunks env (document_chunks rawText) EMBEDDING_MAX_CHARS
       docId meta w0 = (Throw e, w1) /\
     run = upload_failure e w1) \/
  (exists records w1,
     generateEmbeddingsForChunks env (document_chunks rawText) EMBEDDING_MAX_CHARS
       docId meta w0 = (Ok records, w1) /\
     ((exists e,
         VECTORIZE_upsert env records = Throw e /\
         run = upload_failure e (snd (vectorize_upsert env records w1))) \/
      (VECTORIZE_upsert env records = Ok tt /\
       run = (Ok (jsonResponse
                    (JObj [(lit "docId", JStr docId);
                           (lit "title", JStr docTitle);
                           (lit "chunks", JNum (number_of_nat (length records)));
                           (lit "sourceType", JStr sourceType)]) 200),
              snd (vectorize_upsert env records w1))))).
Proof.
  intros sourceType meta docId w0 run. subst run docId w0.
  destruct (nonempty (trim (crlf_to_lf rawText))) eqn:Hclean.
  - right. unfold catch.
    rewrite indexDocument_run by (now apply document_chunks_nonempty).
    fold sourceType. fold meta.
    unfold bind, crypto_randomUUID, vectorize_upsert, ret. cbn [snd].
    destruct (generateEmbeddingsForChunks env (document_chunks rawText)
                EMBEDDING_MAX_CHARS (randomUUID (uuid_calls w)) meta _)
      as [[records|e] w1] eqn:Hgen.
    + right. exists records, w1. split; [reflexivity|].
      destruct (VECTORIZE_upsert env records) as [[]|e].
      * right. split; reflexivity.
      * left. exists e. split; reflexivity.
    + left. exists e, w1. split; reflexivity.
  - left. unfold catch, indexDocument. rewrite Hclean. reflexivity.
Qed.

(** The first half of the upload handler: it fails before any text is
    indexed, turns the request away, or goes on to index a text. *)
Lemma handleDocumentUpload_cases (request : Request) (env : Env) (w : World) :
  (exists e, handleDocumentUpload request env w = upload_failure e w) \/
  handleDocumentUpload request env w
  = (Ok (jsonResponse (error_payload (lit "Invalid document payload")) 400), w) \/
  (exists docTitle rawText sourceType0 originalFileName,
     handleDocumentUpload request env w
     = catch (indexDocument request env docTitle rawText sourceType0 originalFileName)
         upload_failure w).
Proof.
  unfold handleDocumentUpload, catch, bind, lift.
  destruct (includes _ (lit "multipart/form-data")).
  - destruct (request_formData request) as [formData|e]; [|left; now exists e].
    destruct (form_file formData) as [[s|fileField]|].
    1,3: right; right; do 4 eexists; reflexivity.
    destruct (extractTextFromUpload fileField env) as [extraction|e];
      [|left; now exists e].
    right. right. do 4 eexists. reflexivity.
  - destruct (negb (truthy (safeJson request))).
    + right. left. reflexivity.
    + right. right. do 4 eexists. reflexivity.
Qed.

Lemma upload_failure_run (e : exn) (w : World) :
  exists message, upload_failure e w = (Ok (jsonResponse (error_payload message) 500), w).
Proof. unfold upload_failure, ret. eauto. Qed.

End UploadOutcomes.

Section UploadTheorems.
Context {P : Platform}.
Import Worker.

(** X24.  The upload handler answers every request and lets no exception
    out: its answer is a JSON response with status 200, 400 or 500.  It
    never touches a session; a request answered 400 leaves the world as it
    was; the vector index is called at most once, a document id is drawn
    at most once, and the answer is 200 only if the index was called and
    accepted the records. *)
Theorem upload_always_answers (request : Request) (env : Env) (w : World) :
  exists payload code w',
    handleDocumentUpload request env w = (Ok (jsonResponse payload code), w') /\
    (code = 200 \/ code = 400 \/ code = 500) /\
    sessions w' = sessions w /\
    (code = 400 -> w' = w) /\
    (upsert_calls w' = upsert_calls w \/
     exists records, upsert_calls w' = upsert_calls w ++ [records]) /\
    (code = 200 ->
     exists records,
       upsert_calls w' = upsert_calls w ++ [records] /\
       VECTORIZE_upsert env records = Ok tt) /\
    uuid_calls w' <= S (uuid_calls w).
Proof.
  destruct (handleDocumentUpload_cases request env w)
    as [[e ->]|[->|(docTitle & rawText & sourceType0 & originalFileName & ->)]].
  - destruct (upload_failure_run e w) as [message ->].
    do 3 eexists. split; [reflexivity|].
    repeat split; eauto; try discriminate; try (cbn; lia).
  - do 3 eexists. split; [reflexivity|].
    repeat split; eauto; try discriminate; try (cbn; lia).
  - destruct (indexDocument_outcome request env docTitle rawText sourceType0
                originalFileName w)
      as [->|[(e & w1 & Hgen & ->)|(records & w1 & Hgen & Hupsert)]].
    + do 3 eexists. split; [reflexivity|].
      repeat split; eauto; try discriminate; try (cbn; lia).
    + destruct (upload_failure_run e w1) as [message ->].
      pose proof (generateEmbeddingsForChunks_world env (document_chunks rawText)
                    EMBEDDING_MAX_CHARS (randomUUID (uuid_calls w))
                    {| doc_title := docTitle;
                       doc_sourceType :=
                         match header_x_source_type request with
                         | Some h => h
                         | None => sourceType0
                         end;
                       doc_originalFileName := originalFileName |}
                    (snd (crypto_randomUUID w))) as [count Hworld].
      rewrite Hgen in Hworld. cbn [snd] in Hworld. subst w1.
      do 3 eexists. split; [reflexivity|].
      repeat split; eauto; try discriminate; try (cbn; lia).
    + destruct (generateEmbeddingsForChunks_records _ _ _ _ _ _ _ _ Hgen)
        as (response & _ & _ & _ & _ & ->).
      destruct Hupsert as [(e & Hthrow & ->)|[Hok ->]].
      * destruct (upload_failure_run e
                    (snd (vectorize_upsert env records
                            (after_clock_reads (snd (crypto_randomUUID w))
                               (length records))))) as [message ->].
        do 3 eexists. split; [reflexivity|].
        repeat split; eauto; try discriminate; try (cbn; lia).
      * do 3 eexists. split; [reflexivity|].
        repeat split; eauto; try discriminate; try (cbn; lia).
Qed.

Lemma error_payload_inj (a b : jsstring) :
  error_payload a = error_payload b -> a = b.
Proof. unfold error_payload. now intros [= ->]. Qed.

(** X25.  A document whose text is not blank always yields at least one
    chunk, so the upload handler never gives its answer [No textual
    content found to index]. *)
Theorem nonblank_document_has_a_chunk :
  (forall rawText,
     nonempty (trim (crlf_to_lf rawText)) = true -> document_chunks rawText <> []) /\
  (forall request env w,
     fst (handleDocumentUpload request env w)
     <> Ok (jsonResponse (error_payload (lit "No textual content found to index")) 400)).
Proof.
  split; [apply document_chunks_nonempty|].
  intros request env w.
  assert (Hstatus : forall payload code,
    code <> 400 ->
    Ok (jsonResponse payload code)
    <> Ok (jsonResponse (error_payload (lit "No textual content found to index")) 400)).
  { intros payload code Hcode [= H _]. contradiction. }
  assert (Hmessage : forall message,
    message <> lit "No textual content found to index" ->
    Ok (jsonResponse (error_payload message) 400)
    <> Ok (jsonResponse (error_payload (lit "No textual content found to index")) 400)).
  { intros message Hne [= H]. now apply Hne. }
  destruct (handleDocumentUpload_cases request env w)
    as [[e ->]|[->|(docTitle & rawText & sourceType0 & originalFileName & ->)]].
  - destruct (upload_failure_run e w) as [message ->]. cbn [fst].
    apply Hstatus. lia.
  - cbn [fst]. apply Hmessage. discriminate.
  - destruct (indexDocument_outcome request env docTitle rawText sourceType0
                originalFileName w)
      as [->|[(e & w1 & Hgen & ->)|(records & w1 & Hgen & Hupsert)]].
    + cbn [fst]. apply Hmessage. discriminate.
    + destruct (upload_failure_run e w1) as [message ->]. cbn [fst].
      apply Hstatus. lia.
    + destruct Hupsert as [(e & Hthrow & ->)|[Hok ->]].
      * destruct (upload_failure_run e (snd (vectorize_upsert env records w1)))
          as [message ->].
        cbn [fst]. apply Hstatus. lia.
      * cbn [fst]. apply Hstatus. lia.
Qed.

(** X26.  An upload answered with status 200 has indexed a text: the
    answer reports the document id drawn for it, the title, the source
    type and the number of records; the vector index was called once, with
    those records, and accepted them; there are between 1 and
    [MAX_DOC_CHUNKS] = 60 records, each pairing a chunk of the text
    (trimmed, not empty, no longer than [CHUNK_SIZE] = 800 characters and
    never cut for the embedding) with its own embedding; and an
    [x-source-type] header, when present, is the source type reported and
    stored. *)
Theorem successful_upload_reports_its_records (request : Request) (env : Env)
    (w w' : World) (response : Response) :
  handleDocumentUpload request env w = (Ok response, w') ->
  status response = 200 ->
  exists docTitle rawText sourceType originalFileName records embeddings,
    let docId := randomUUID (uuid_calls w) in
    response
    = jsonResponse
        (JObj [(lit "docId", JStr docId);
               (lit "title", JStr docTitle);
               (lit "chunks", JNum (number_of_nat (length records)));
               (lit "sourceType", JStr sourceType)]) 200 /\
    w' = {| sessions := sessions w;
            upsert_calls := upsert_calls w ++ [records];
            clock_reads := clock_reads w + length records;
            uuid_calls := S (uuid_calls w) |} /\
    VECTORIZE_upsert env records = Ok tt /\
    AI_run_embedding env (document_chunks rawText) = Ok embeddings /\
    Forall (record_matches (embedding_data embeddings) (document_chunks rawText)
              docId
              {| doc_title := docTitle; doc_sourceType := sourceType;
                 doc_originalFileName := originalFileName |}) records /\
    0 < length records <= MAX_DOC_CHUNKS /\
    Forall (fun r =>
              0 < length (md_text (metadata r)) <= CHUNK_SIZE /\
              trim (md_text (metadata r)) = md_text (metadata r)) records /\
    (forall h, header_x_source_type request = Some h -> sourceType = h).
Proof.
  intros Hrun Hstatus.
  destruct (handleDocumentUpload_cases request env w)
    as [[e Hcase]|[Hcase|(docTitle & rawText & sourceType0 & originalFileName & Hcase)]];
    rewrite Hcase in Hrun.
  - destruct (upload_failure_run e w) as [message Hfail]. rewrite Hfail in Hrun.
    injection Hrun as <- _. discriminate.
  - injection Hrun as <- _. discriminate.
  - destruct (indexDocument_outcome request env docTitle rawText sourceType0
                originalFileName w)
      as [Hout|[(e & w1 & Hgen & Hout)|(records & w1 & Hgen & Hupsert)]].
    + rewrite Hout in Hrun. injection Hrun as <- _. discriminate.
    + destruct (upload_failure_run e w1) as [message Hfail].
      rewrite Hout, Hfail in Hrun. injection Hrun as <- _. discriminate.
    + destruct Hupsert as [(e & Hthrow & Hout)|[Hok Hout]].
      * destruct (upload_failure_run e (snd (vectorize_upsert env records w1)))
          as [message Hfail].
        rewrite Hout, Hfail in Hrun. injection Hrun as <- _. discriminate.
      * rewrite Hout in Hrun. injection Hrun as <- <-.
        destruct (generateEmbeddingsForChunks_records _ _ _ _ _ _ _ _ Hgen)
          as (embeddings & Hai & Hall & Hne & Hle & ->).
        rewrite document_chunks_not_truncated in Hai, Hall.
        destruct (document_chunks_bounded rawText) as [Hcount Hchunks].
        exists docTitle, rawText,
          match header_x_source_type request with
          | Some h => h
          | None => sourceType0
          end, originalFileName, records, embeddings.
        cbv zeta. split; [reflexivity|]. split.
        { unfold vectorize_upsert, after_clock_reads, crypto_randomUUID.
          cbn. reflexivity. }
        split; [exact Hok|]. split; [exact Hai|]. split; [exact Hall|].
        split; [|split].
        -- split; [destruct records; [congruence|cbn; lia]|lia].
        -- eapply Forall_impl; [exact Hall|]. cbn beta.
           intros r (Htext & _).
           apply list_elem_of_lookup_2 in Htext.
           rewrite Forall_forall in Hchunks. now apply Hchunks.
        -- now intros h ->.
Qed.

End UploadTheorems.

(** The document [notes] (a thousand characters, two chunks) and the
    example deployment. *)
Lemma successful_upload_reports_its_records_witness :
  let run :=
    Worker.handleDocumentUpload Example.notes_upload Example.env Example.empty_world in
  let response :=
    match fst run with Ok r => r | Throw _ => textResponse "none" 0 end in
  exists docTitle rawText sourceType originalFileName records embeddings,
    response
    = jsonResponse
        (JObj [(lit "docId", JStr (@randomUUID Example.platform 0));
               (lit "title", JStr docTitle);
               (lit "chunks", JNum (number_of_nat (length records)));
               (lit "sourceType", JStr sourceType)]) 200 /\
    snd run
    = {| Worker.sessions := ∅;
         Worker.upsert_calls := [records];
         Worker.clock_reads := 0 + length records;
         Worker.uuid_calls := 1 |} /\
    Worker.VECTORIZE_upsert Example.env records = Ok tt /\
    Worker.AI_run_embedding Example.env (Worker.document_chunks rawText)
    = Ok embeddings /\
    Forall (record_matches (Worker.embedding_data embeddings)
              (Worker.document_chunks rawText) (@randomUUID Example.platform 0)
              {| Worker.doc_title := docTitle; Worker.doc_sourceType := sourceType;
                 Worker.doc_originalFileName := originalFileName |}) records /\
    0 < length records <= MAX_DOC_CHUNKS /\
    Forall (fun r =>
              0 < length (Worker.md_text (Worker.metadata r)) <= CHUNK_SIZE /\
              trim (Worker.md_text (Worker.metadata r))
              = Worker.md_text (Worker.metadata r)) records /\
    (forall h,
       header_x_source_type Example.notes_upload = Some h -> sourceType = h).
Proof.
  intros run response.
  refine (successful_upload_reports_its_records (P := Example.platform)
           Example.notes_upload Example.env Example.empty_world (snd run) response
           _ _).
  - reflexivity.
  - reflexivity.
Defined.

(** The document [hello] has a chunk. *)
Lemma nonblank_document_has_a_chunk_witness :
  Worker.document_chunks (lit "hello") <> [].
Proof.
  apply (proj1 (nonblank_document_has_a_chunk (P := Example.platform))).
  reflexivity.
Defined.

(** ** Text extraction *)

Section Extraction.
Context {P : Platform}.
Import Worker.

Lemma extractTextFromPdf_outcome (file : File) (env : Env) :
  (exists t, extractTextFromPdf file env = Ok t /\ t <> [] /\ trim t = t) \/
  extractTextFromPdf file env = Throw (ErrorObject pdf_needs_model_message) \/
  extractTextFromPdf file env = Throw (ErrorObject pdf_failed_message).
Proof.
  unfold extractTextFromPdf, try_catch, rbind.
  destruct (AI_run_pdf env (file_bytes file)) as [result|e].
  - match goal with
    | |- context [nonempty (trim ?joined)] =>
        destruct (trim joined) as [|c t] eqn:Hcombined
    end; cbn [nonempty].
    + destruct (is_no_such_model _); auto.
    + left. eexists. split; [reflexivity|]. split; [discriminate|].
      rewrite <- Hcombined. apply trim_idem.
  - destruct (is_no_such_model e); auto.
Qed.

Lemma extractTextFromImage_outcome (file : File) (env : Env) :
  (exists t, extractTextFromImage file env = Ok t /\ t <> []) \/
  extractTextFromImage file env = Throw (ErrorObject image_needs_model_message) \/
  extractTextFromImage file env = Throw (ErrorObject image_failed_message).
Proof.
  unfold extractTextFromImage, try_catch, rbind.
  destruct (AI_run_ocr env (file_bytes file) _ _) as [result|e].
  - match goal with
    | |- context [if nonempty ?joined then _ else _] =>
        destruct joined as [|c t] eqn:Hcombined
    end; cbn [nonempty].
    + destruct (is_no_such_model _); auto.
    + left. eexists. split; [reflexivity|discriminate].
  - destruct (is_no_such_model e); auto.
Qed.

(** X27.  Text extraction from a PDF returns a text that is trimmed and not
    empty, or throws one of two errors of its own: the request to enable
    the model, when the model call threw an error that names a missing
    model, and [Unable to extract text from the PDF file] otherwise.  What
    the model threw, and the inner error about an empty result, are never
    passed on.  Extraction from an image does the same with its own two
    messages, and asks the model with no prompt and with orientation
    detection switched on. *)
Theorem text_extraction_outcomes (file : File) (env : Env) :
  ((exists t, extractTextFromPdf file env = Ok t /\ t <> [] /\ trim t = t) \/
   extractTextFromPdf file env = Throw (ErrorObject pdf_needs_model_message) \/
   extractTextFromPdf file env = Throw (ErrorObject pdf_failed_message)) /\
  ((exists t, extractTextFromImage file env = Ok t /\ t <> []) \/
   extractTextFromImage file env = Throw (ErrorObject image_needs_model_message) \/
   extractTextFromImage file env = Throw (ErrorObject image_failed_message)) /\
  (forall m,
     AI_run_pdf env (file_bytes file) = Throw (ErrorObject m) ->
     extractTextFromPdf file env
     = Throw (ErrorObject (if no_such_model_test m then pdf_needs_model_message
                           else pdf_failed_message))) /\
  (forall m,
     AI_run_ocr env (file_bytes file) None true = Throw (ErrorObject m) ->
     extractTextFromImage file env
     = Throw (ErrorObject (if no_such_model_test m then image_needs_model_message
                           else image_failed_message))).
Proof.
  split; [apply extractTextFromPdf_outcome|].
  split; [apply extractTextFromImage_outcome|]. split.
  - intros m H. unfold extractTextFromPdf, try_catch, rbind. rewrite H.
    cbn [is_no_such_model]. now destruct (no_such_model_test m).
  - intros m H. unfold extractTextFromImage, try_catch, rbind.
    replace (includes OCR_MODEL_ID (lit "llava")) with false by reflexivity.
    cbn [negb]. rewrite H.
    cbn [is_no_such_model]. now destruct (no_such_model_test m).
Qed.

(** X28.  How an uploaded file is classified.  The tests are made in
    order on the lower-cased name and MIME type: a text-like file is read
    as it is, without any model; otherwise a PDF, otherwise an image, goes
    through its extraction.  A result always carries the file's own name,
    the source type of the branch taken, and for a PDF or an image a text
    that is not empty.  A failure is always an [Error] with one of five
    messages: the two of the PDF branch, the two of the image branch, or
    the one naming the unsupported type. *)
Theorem upload_classification (file : File) (env : Env) :
  let lowerName := toLowerCase (file_name file) in
  let mime := toLowerCase (file_type file) in
  match extractTextFromUpload file env with
  | Ok document =>
      ex_originalName document = Some (file_name file) /\
      (is_text_like lowerName mime = true /\
       ex_sourceType document = lit "text-file" /\
       ex_text document = file_text file \/
       is_text_like lowerName mime = false /\ is_pdf lowerName mime = true /\
       ex_sourceType document = lit "pdf" /\
       extractTextFromPdf file env = Ok (ex_text document) /\
       ex_text document <> [] \/
       is_text_like lowerName mime = false /\ is_pdf lowerName mime = false /\
       is_image mime = true /\
       ex_sourceType document = lit "image" /\
       extractTextFromImage file env = Ok (ex_text document) /\
       ex_text document <> [])
  | Throw e =>
      is_text_like lowerName mime = false /\
      exists message,
        e = ErrorObject message /\
        In message [pdf_needs_model_message; pdf_failed_message;
                    image_needs_model_message; image_failed_message;
                    unsupported_message lowerName mime]
  end.
Proof.
  intros lowerName mime. unfold extractTextFromUpload. fold lowerName mime.
  destruct (is_text_like lowerName mime); [cbn; auto|].
  destruct (is_pdf lowerName mime).
  - destruct (extractTextFromPdf_outcome file env)
      as [(t & -> & Hne & _)|[-> | ->]]; cbn [rbind].
    + cbn. split; [reflexivity|]. right. left. auto.
    + split; [reflexivity|]. eexists. split; [reflexivity|]. cbn. auto.
    + split; [reflexivity|]. eexists. split; [reflexivity|]. cbn. auto.
  - destruct (is_image mime).
    + destruct (extractTextFromImage_outcome file env)
        as [(t & -> & Hne)|[-> | ->]]; cbn [rbind].
      * cbn. split; [reflexivity|]. right. right. auto 10.
      * split; [reflexivity|]. eexists. split; [reflexivity|]. cbn. auto 6.
      * split; [reflexivity|]. eexists. split; [reflexivity|]. cbn. auto 6.
    + split; [reflexivity|]. eexists. split; [reflexivity|]. cbn. auto 6.
Qed.

End Extraction.

(** Without the PDF model, extraction asks for it to be enabled. *)
Lemma text_extraction_outcomes_witness :
  Worker.extractTextFromPdf Scenario.pdf_file Scenario.env_pdf_missing
  = Throw (ErrorObject pdf_needs_model_message).
Proof.
  apply (proj1 (proj2 (proj2 (text_extraction_outcomes (P := Example.platform)
                                Scenario.pdf_file Scenario.env_pdf_missing)))
           (lit "5007: No such model @cf/pdf/extract-text")).
  reflexivity.
Defined.

(** ** The router *)

Section Router.
Context {P : Platform} {J : Worker.JsonParser}.
Import Worker.

Lemma str_eqb_neq (a b : jsstring) : a <> b -> str_eqb a b = false.
Proof.
  intros H. destruct (str_eqb a b) eqn:E; [|reflexivity].
  apply str_eqb_eq in E. contradiction.
Qed.

Lemma handleDocumentUpload_total (request : Request) (env : Env) (w : World) :
  exists response w', handleDocumentUpload request env w = (Ok response, w').
Proof.
  destruct (handleDocumentUpload_cases request env w)
    as [[e ->]|[->|(docTitle & rawText & sourceType0 & originalFileName & ->)]].
  - destruct (upload_failure_run e w) as [message ->]. eauto.
  - eauto.
  - destruct (indexDocument_outcome request env docTitle rawText sourceType0
                originalFileName w)
      as [->|[(e & w1 & _ & ->)|(records & w1 & _ & [(e & _ & ->)|[_ ->]])]].
    + eauto.
    + destruct (upload_failure_run e w1) as [message ->]. eauto.
    + destruct (upload_failure_run e (snd (vectorize_upsert env records w1)))
        as [message ->]. eauto.
    + eauto.
Qed.

(** X30.  The routes of the worker apart from the three handlers.  A path
    that is [/] or does not start with [/api/] goes to the static assets:
    the answer of [env.ASSETS.fetch] is the worker's answer, and its
    rejection the worker's rejection.  Under [/api/], [/api/history]
    accepts only [GET] and [/api/docs] and [/api/chat] only [POST], any
    other method being answered 405; a history request without a session
    id, or with an empty one, is answered 400; any other path is answered
    404.  None of these answers changes the world or registers background
    work. *)
Theorem router_edge_cases (request : Request) (env : Env) (w : World) :
  let path := pathname request in
  (path = lit "/" \/ startsWith path (lit "/api/") = false ->
   fetch request env w
   = (match ASSETS_fetch env request with
      | Ok answer => Ok (answer, [])
      | Throw e => Throw e
      end, w)) /\
  (path = lit "/api/history" -> method request <> lit "GET" ->
   fetch request env w = (Ok (textResponse "Method not allowed" 405, []), w)) /\
  (path = lit "/api/history" -> method request = lit "GET" ->
   query_sessionId request = None \/ query_sessionId request = Some [] ->
   fetch request env w
   = (Ok (jsonResponse (error_payload (lit "Missing sessionId")) 400, []), w)) /\
  (path = lit "/api/docs" \/ path = lit "/api/chat" ->
   method request <> lit "POST" ->
   fetch request env w = (Ok (textResponse "Method not allowed" 405, []), w)) /\
  (startsWith path (lit "/api/") = true ->
   path <> lit "/api/history" -> path <> lit "/api/docs" -> path <> lit "/api/chat" ->
   fetch request env w = (Ok (textResponse "Not found" 404, []), w)).
Proof.
  intros path. unfold fetch. fold path.
  split; [|split; [|split; [|split]]].
  - assert (Hassets :
      (response <- lift (ASSETS_fetch env request) ;; ret (response, [])) w
      = (match ASSETS_fetch env request with
         | Ok answer => Ok (answer, @nil (M World unit))
         | Throw e => Throw e
         end, w)).
    { unfold bind, lift, ret. now destruct (ASSETS_fetch env request). }
    intros [-> | ->]; [exact Hassets|]. rewrite orb_true_r. exact Hassets.
  - intros -> Hmethod.
    replace (str_eqb (lit "/api/history") (lit "/")) with false by reflexivity.
    replace (startsWith (lit "/api/history") (lit "/api/")) with true by reflexivity.
    replace (str_eqb (lit "/api/history") (lit "/api/history")) with true
      by reflexivity.
    cbn [orb negb]. now rewrite (str_eqb_neq _ _ Hmethod).
  - intros -> -> Hid.
    replace (str_eqb (lit "/api/history") (lit "/")) with false by reflexivity.
    replace (startsWith (lit "/api/history") (lit "/api/")) with true by reflexivity.
    replace (str_eqb (lit "/api/history") (lit "/api/history")) with true
      by reflexivity.
    replace (str_eqb (lit "GET") (lit "GET")) with true by reflexivity.
    cbn [orb negb]. now destruct Hid as [-> | ->].
  - intros [-> | ->] Hmethod.
    + replace (str_eqb (lit "/api/docs") (lit "/")) with false by reflexivity.
      replace (startsWith (lit "/api/docs") (lit "/api/")) with true by reflexivity.
      replace (str_eqb (lit "/api/docs") (lit "/api/history")) with false
        by reflexivity.
      replace (str_eqb (lit "/api/docs") (lit "/api/docs")) with true by reflexivity.
      cbn [orb negb]. now rewrite (str_eqb_neq _ _ Hmethod).
    + replace (str_eqb (lit "/api/chat") (lit "/")) with false by reflexivity.
      replace (startsWith (lit "/api/chat") (lit "/api/")) with true by reflexivity.
      replace (str_eqb (lit "/api/chat") (lit "/api/history")) with false
        by reflexivity.
      replace (str_eqb (lit "/api/chat") (lit "/api/docs")) with false
        by reflexivity.
      replace (str_eqb (lit "/api/chat") (lit "/api/chat")) with true by reflexivity.
      cbn [orb negb]. now rewrite (str_eqb_neq _ _ Hmethod).
  - intros Hapi Hhistory Hdocs Hchat.
    assert (Hroot : str_eqb path (lit "/") = false).
    { apply str_eqb_neq. intros Hp. rewrite Hp in Hapi. discriminate. }
    rewrite Hroot, Hapi. cbn [orb negb].
    now rewrite (str_eqb_neq _ _ Hhistory), (str_eqb_neq _ _ Hdocs),
      (str_eqb_neq _ _ Hchat).
Qed.

End Router.

(** [PUT /api/chat] is answered 405. *)
Lemma router_edge_cases_witness :
  Worker.fetch (J := Example.parser) Scenario.put_chat Example.env Example.empty_world
  = (Ok (textResponse "Method not allowed" 405, []), Example.empty_world).
Proof.
  apply (proj1 (proj2 (proj2 (proj2
           (router_edge_cases (P := Example.platform) (J := Example.parser)
              Scenario.put_chat Example.env Example.empty_world))))).
  - now right.
  - discriminate.
Defined.

(** * The session path when the platform rejects a call *)

(** ** Runs under a schedule of rejections *)

Section Follows.
Context {S : Type} (R : S -> S -> Prop).
Hypothesis R_refl : forall s, R s s.
Hypothesis R_trans : forall a b c, R a b -> R b c -> R a c.

Lemma quiet_follows {A} (k : M (S * Schedule) A) (k0 : M S A) :
  quiet k k0 -> follows R k k0.
Proof.
  intros H s pending. left. exists pending. split; [apply H|apply incl_refl].
Qed.

Lemma quiet_locally {A} (step : M S A) : quiet (locally step) step.
Proof. intros s pending. unfold locally. cbn. now destruct (step s). Qed.

Lemma quiet_ret {A} (a : A) : quiet (S := S) (ret a) (ret a).
Proof. intros s pending. reflexivity. Qed.

Lemma quiet_throw {A} (e : exn) : quiet (S := S) (A := A) (throw e) (throw e).
Proof. intros s pending. reflexivity. Qed.

Lemma quiet_lift {A} (r : result A) : quiet (S := S) (lift r) (lift r).
Proof. intros s pending. reflexivity. Qed.

Lemma quiet_bind {A B} (m : M (S * Schedule) A) (m0 : M S A)
    (k : A -> M (S * Schedule) B) (k0 : A -> M S B) :
  quiet m m0 -> (forall a, quiet (k a) (k0 a)) -> quiet (bind m k) (bind m0 k0).
Proof.
  intros Hm Hk s pending. unfold bind. rewrite Hm.
  destruct (m0 s) as [[a|e] s1]; cbn [fst snd]; [apply Hk|reflexivity].
Qed.

Lemma follows_await {A} (call : M (S * Schedule) A) (reliable : M S A) :
  follows R call reliable -> follows R (await call) reliable.
Proof.
  intros H s pending. unfold await. cbn [fst snd].
  destruct pending as [|[e|] rest].
  - apply H.
  - right. exists e, s, rest. split; [reflexivity|]. split; [now left|apply R_refl].
  - destruct (H s rest) as [(rest' & Hrun & Hincl)|(e & s' & rest' & Hrun & Hin & HR)].
    + left. exists rest'. split; [exact Hrun|]. intros x Hx. right. now apply Hincl.
    + right. exists e, s', rest'. split; [exact Hrun|]. split; [now right|exact HR].
Qed.

Lemma follows_attempt {A} (call : M S A) : follows R (attempt call) call.
Proof. apply follows_await, quiet_follows, quiet_locally. Qed.

Lemma follows_bind {A B} (m : M (S * Schedule) A) (m0 : M S A)
    (k : A -> M (S * Schedule) B) (k0 : A -> M S B) :
  follows R m m0 -> (forall s, R s (snd (m0 s))) ->
  (forall a, follows R (k a) (k0 a)) ->
  follows R (bind m k) (bind m0 k0).
Proof.
  intros Hm Hstep Hk s pending. unfold bind.
  destruct (Hm s pending) as [(rest & Hrun & Hincl)|(e & s' & rest & Hrun & Hin & HR)].
  - rewrite Hrun. specialize (Hstep s).
    destruct (m0 s) as [[a|e] s1]; cbn [fst snd] in *.
    + destruct (Hk a s1 rest)
        as [(rest' & Hrun' & Hincl')|(e & s' & rest' & Hrun' & Hin & HR)].
      * left. exists rest'. split; [exact Hrun'|]. eauto using incl_tran.
      * right. exists e, s', rest'. split; [exact Hrun'|].
        split; [now apply Hincl|]. now apply R_trans with s1.
    + left. exists rest. auto.
  - right. rewrite Hrun. exists e, s', rest. auto.
Qed.

(** When what follows the first step makes no call, nothing is asked of
    the state the first step leaves. *)
Lemma follows_bind_quiet {A B} (m : M (S * Schedule) A) (m0 : M S A)
    (k : A -> M (S * Schedule) B) (k0 : A -> M S B) :
  follows R m m0 -> (forall a, quiet (k a) (k0 a)) ->
  follows R (bind m k) (bind m0 k0).
Proof.
  intros Hm Hk s pending. unfold bind.
  destruct (Hm s pending) as [(rest & Hrun & Hincl)|(e & s' & rest & Hrun & Hin & HR)].
  - rewrite Hrun. left. exists rest. split; [|exact Hincl].
    destruct (m0 s) as [[a|e] s1]; cbn [fst snd]; [apply Hk|reflexivity].
  - right. rewrite Hrun. exists e, s', rest. auto.
Qed.

End Follows.

(** ** The session store under rejections *)

Section UnreliableStore.
Context {P : Platform}.
Import SessionDurableObject.

Lemma record_kept_refl (st : State) : UnreliableSession.record_kept st st.
Proof. reflexivity. Qed.

Lemma record_kept_trans (a b c : State) :
  UnreliableSession.record_kept a b -> UnreliableSession.record_kept b c ->
  UnreliableSession.record_kept a c.
Proof. unfold UnreliableSession.record_kept. congruence. Qed.

(** A read leaves the record under the session key as it is. *)
Lemma getSessionRecord_keeps (st : State) :
  UnreliableSession.record_kept st (snd (getSessionRecord st)).
Proof.
  unfold UnreliableSession.record_kept.
  destruct (getSessionRecord_after st) as [->|[-> _]]; [reflexivity|].
  apply lookup_delete_ne. discriminate.
Qed.

Lemma getSessionRecord_follows :
  follows UnreliableSession.record_kept
    UnreliableSession.getSessionRecord getSessionRecord.
Proof.
  unfold UnreliableSession.getSessionRecord, getSessionRecord.
  apply follows_bind;
    [exact record_kept_trans | apply follows_attempt, record_kept_refl
    | reflexivity |].
  intros stored0. cbv zeta.
  apply follows_bind; [exact record_kept_trans | | |].
  - destruct (negb (truthy (or_null stored0)));
      [|apply quiet_follows, quiet_ret].
    apply follows_bind;
      [exact record_kept_trans | apply follows_attempt, record_kept_refl
      | reflexivity |].
    intros legacy. cbv zeta.
    destruct (truthy (or_null legacy)); [|apply quiet_follows, quiet_ret].
    apply follows_bind_quiet; [apply follows_attempt, record_kept_refl|].
    intros _. apply quiet_ret.
  - intros st. destruct (negb (truthy (or_null stored0))); [|reflexivity].
    unfold bind, storage_get, gets. cbn [fst snd].
    destruct (truthy (or_null _)); [|reflexivity].
    unfold storage_delete, modify, ret, UnreliableSession.record_kept. cbn.
    apply lookup_delete_ne. discriminate.
  - intros stored. apply quiet_follows, quiet_locally.
Qed.

Lemma persistMessage_follows (message : jsval) (model : option jsstring) :
  follows UnreliableSession.record_kept
    (UnreliableSession.persistMessage message model) (persistMessage message model).
Proof.
  unfold UnreliableSession.persistMessage, persistMessage.
  apply follows_bind;
    [exact record_kept_trans | apply getSessionRecord_follows
    | apply getSessionRecord_keeps |].
  intros session. cbv zeta.
  apply follows_bind;
    [exact record_kept_trans | apply quiet_follows, quiet_locally
    | reflexivity |].
  intros now. apply follows_attempt, record_kept_refl.
Qed.

Lemma fetch_follows (request : Request) :
  follows UnreliableSession.record_kept (UnreliableSession.fetch request) (fetch request).
Proof.
  unfold UnreliableSession.fetch, fetch.
  destruct (str_eqb (method request) (lit "GET")
            && str_eqb (pathname request) (lit "/messages")).
  - apply follows_bind_quiet; [apply getSessionRecord_follows|].
    intros session. apply quiet_ret.
  - destruct (str_eqb (method request) (lit "POST")
              && str_eqb (pathname request) (lit "/messages"));
      [|apply quiet_follows, quiet_ret].
    cbv zeta.
    destruct (negb (valid_message (get (safeJson request) "message")));
      [apply quiet_follows, quiet_ret|].
    apply follows_bind_quiet; [apply persistMessage_follows|].
    intros _. apply quiet_ret.
Qed.

End UnreliableStore.

Section UnreliableStoreAnswers.
Context {P : Platform}.
Import SessionDurableObject.

(** A request that does not use the storage is answered without a call
    to the platform. *)
Lemma fetch_without_storage (request : Request) (st : State) (pending : Schedule) :
  UnreliableSession.uses_storage request = false ->
  UnreliableSession.fetch request (st, pending)
  = (fst (fetch request st), (st, pending)) /\
  snd (fetch request st) = st.
Proof.
  unfold UnreliableSession.uses_storage, accepted_message,
    UnreliableSession.fetch, fetch.
  destruct (str_eqb (method request) (lit "GET")
            && str_eqb (pathname request) (lit "/messages")); [discriminate|].
  cbn [orb].
  destruct (str_eqb (method request) (lit "POST")
            && str_eqb (pathname request) (lit "/messages")); cbn [andb].
  - cbv zeta.
    destruct (valid_message (get (safeJson request) "message")); cbn [negb].
    + discriminate.
    + intros _. split; reflexivity.
  - intros _. split; reflexivity.
Qed.

Lemma uses_storage_spec (request : Request) :
  UnreliableSession.uses_storage request = true <->
  (str_eqb (method request) (lit "GET")
   && str_eqb (pathname request) (lit "/messages") = true \/
   accepted_message request <> None).
Proof.
  unfold UnreliableSession.uses_storage.
  destruct (str_eqb (method request) (lit "GET")
            && str_eqb (pathname request) (lit "/messages")); cbn [orb].
  - split; [intros _; now left|reflexivity].
  - destruct (accepted_message request) as [message|].
    + split; [intros _; right; discriminate|reflexivity].
    + split; [discriminate|]. intros [H|H]; [discriminate|contradiction].
Qed.

(** X4.  The session store under rejections.  Either the request is
    answered, as it is when every call completes, with one of four
    statuses: 200 for [GET /messages], 204 for a [POST /messages] whose
    message the store accepts, 400 for a [POST /messages] it turns away,
    404 for anything else; a request answered 400 or 404 makes no call to
    the platform and leaves the object as it was, and a read never changes
    what is stored under the session key.  Or one of the storage calls was
    rejected and [fetch], which has no [try], throws that rejection: this
    happens only to a request that uses the storage, and the record under
    the session key is then as it was. *)
Theorem session_store_answers (request : Request) (st : State)
    (pending : Schedule) :
  (exists response st' rest,
     UnreliableSession.fetch request (st, pending) = (Ok response, (st', rest)) /\
     fetch request st = (Ok response, st') /\
     (status response = 200 \/ status response = 204 \/
      status response = 400 \/ status response = 404) /\
     (status response = 200 <->
      str_eqb (method request) (lit "GET")
      && str_eqb (pathname request) (lit "/messages") = true) /\
     (status response = 204 <-> accepted_message request <> None) /\
     (status response = 400 \/ status response = 404 ->
      st' = st /\ rest = pending) /\
     (status response = 200 ->
      storage st' !! SESSION_STORAGE_KEY = storage st !! SESSION_STORAGE_KEY)) \/
  (exists e st' rest,
     UnreliableSession.fetch request (st, pending) = (Throw e, (st', rest)) /\
     In (Some e) pending /\
     UnreliableSession.uses_storage request = true /\
     storage st' !! SESSION_STORAGE_KEY = storage st !! SESSION_STORAGE_KEY).
Proof.
  destruct (fetch_answers request st)
    as (response & st' & Hrun & Hstatus & H200 & H204 & Hsame & Hkey).
  destruct (UnreliableSession.uses_storage request) eqn:Huses.
  - destruct (fetch_follows request st pending)
      as [(rest & Hfaulty & _)|(e & st1 & rest & Hfaulty & Hin & Hkept)].
    + left. exists response, st', rest. rewrite Hfaulty, Hrun. cbn [fst snd].
      split; [reflexivity|]. split; [reflexivity|]. split; [exact Hstatus|].
      split; [exact H200|]. split; [exact H204|]. split; [|exact Hkey].
      intros H4. exfalso. apply uses_storage_spec in Huses.
      destruct Huses as [Hget|Hacc].
      * apply H200 in Hget. destruct H4 as [H4|H4]; congruence.
      * apply H204 in Hacc. destruct H4 as [H4|H4]; congruence.
    + right. exists e, st1, rest. auto.
  - left. destruct (fetch_without_storage request st pending Huses) as [Hfaulty Hst].
    rewrite Hrun in Hfaulty, Hst. cbn [fst snd] in Hfaulty, Hst. subst st'.
    exists response, st, pending.
    split; [exact Hfaulty|]. split; [exact Hrun|]. split; [exact Hstatus|].
    split; [exact H200|]. split; [exact H204|]. split; [auto|exact Hkey].
Qed.

End UnreliableStoreAnswers.

(** ** The worker under rejections *)

Section UnreliableWorkerFacts.
Context {P : Platform} {J : Worker.JsonParser}.
Import Worker.

Lemma session_kept_refl (name : jsstring) (w : World) :
  UnreliableWorker.session_kept name w w.
Proof. unfold UnreliableWorker.session_kept. auto. Qed.

Lemma session_kept_trans (name : jsstring) (a b c : World) :
  UnreliableWorker.session_kept name a b -> UnreliableWorker.session_kept name b c ->
  UnreliableWorker.session_kept name a c.
Proof.
  unfold UnreliableWorker.session_kept.
  intros (H1 & H2 & H3 & H4) (H1' & H2' & H3' & H4').
  split; [congruence|]. split; [congruence|]. split; [congruence|].
  intros other Hother. rewrite H4', H4 by assumption. reflexivity.
Qed.

Lemma session_kept_commit (name : jsstring) (w : World)
    (st : SessionDurableObject.State) :
  UnreliableSession.record_kept (session_state w name) st ->
  UnreliableWorker.session_kept name w (commit w name st).
Proof.
  intros H. unfold UnreliableWorker.session_kept.
  rewrite session_storage_commit. split; [exact H|]. apply commit_other.
Qed.

Lemma stub_fetch_follows (name : jsstring) (request : Request) :
  follows (UnreliableWorker.session_kept name)
    (UnreliableWorker.stub_fetch name request) (stub_fetch name request).
Proof.
  unfold UnreliableWorker.stub_fetch.
  apply follows_await; [apply session_kept_refl|].
  intros w pending. cbn [fst snd]. unfold stub_fetch.
  destruct (fetch_follows request (session_state w name) pending)
    as [(rest & Hrun & Hincl)|(e & st' & rest & Hrun & Hin & HR)]; rewrite Hrun.
  - left. exists rest. split; [|exact Hincl].
    now destruct (SessionDurableObject.fetch request (session_state w name)).
  - right. exists e, (commit w name st'), rest.
    split; [reflexivity|]. split; [exact Hin|]. now apply session_kept_commit.
Qed.

Lemma appendMessage_follows (name : jsstring) (message : jsval) (model : jsstring) :
  follows (UnreliableWorker.session_kept name)
    (UnreliableWorker.appendMessage name message model)
    (appendMessage name message model).
Proof.
  unfold UnreliableWorker.appendMessage, appendMessage.
  apply follows_bind_quiet; [apply stub_fetch_follows|].
  intros response. destruct (negb (ok response)); [apply quiet_throw|apply quiet_ret].
Qed.

Lemma fetchSessionHistory_follows (name : jsstring) :
  follows (UnreliableWorker.session_kept name)
    (UnreliableWorker.fetchSessionHistory name) (fetchSessionHistory name).
Proof.
  unfold UnreliableWorker.fetchSessionHistory, fetchSessionHistory.
  apply follows_bind_quiet; [apply stub_fetch_follows|].
  intros response. destruct (negb (ok response)); [apply quiet_throw|].
  apply quiet_bind; [apply quiet_lift|]. intros data. apply quiet_ret.
Qed.

Lemma captureAssistantResponse_follows (stream : ReadableStream)
    (stub model : jsstring) :
  follows (UnreliableWorker.session_kept stub)
    (UnreliableWorker.captureAssistantResponse stream stub model)
    (captureAssistantResponse stream stub model).
Proof.
  unfold UnreliableWorker.captureAssistantResponse, captureAssistantResponse.
  destruct (capture_loop (chunks stream) [] [] []) as [buffered collected].
  match goal with
  | |- context [negb (nonempty ?full)] => destruct (negb (nonempty full))
  end; [apply quiet_follows, quiet_ret|apply appendMessage_follows].
Qed.

End UnreliableWorkerFacts.

Section UnreliableWorkerTheorems.
Context {P : Platform} {J : Worker.JsonParser}.
Import Worker.

(** X9.  [appendMessage] has three outcomes.  It returns: the message
    passed the test of the session store (role ["assistant"] or ["user"],
    content a string) and is now the last of the session's history, which
    is cut to the last [MAX_HISTORY].  It throws [Failed to store message:
    400]: the message did not pass the test, and the storage of the
    session is as before.  Or it throws the rejection of a call to the
    platform, and the record of the session is as before.  In each case
    nothing else in the world changes, and a rejection of the call to the
    stub itself is thrown on with the world as it was. *)
Theorem appendMessage_outcome (name : jsstring) (message : jsval)
    (model : jsstring) (w : World) (pending : Schedule) :
  let run := UnreliableWorker.appendMessage name message model (w, pending) in
  let w' := fst (snd run) in
  (fst run = Ok tt /\
   SessionDurableObject.valid_message message = true /\
   session_messages w' name
   = slice_last MAX_HISTORY (session_messages w name ++ [message]) \/
   fst run = Throw (ErrorObject (lit "Failed to store message: 400")) /\
   SessionDurableObject.valid_message message = false /\
   session_storage w' name = session_storage w name \/
   exists e,
     fst run = Throw e /\ In (Some e) pending /\
     session_storage w' name !! SessionDurableObject.SESSION_STORAGE_KEY
     = session_storage w name !! SessionDurableObject.SESSION_STORAGE_KEY) /\
  upsert_calls w' = upsert_calls w /\
  uuid_calls w' = uuid_calls w /\
  (forall other, other <> name ->
     session_storage w' other = session_storage w other) /\
  (forall e rest, pending = Some e :: rest -> run = (Throw e, (w, rest))).
Proof.
  intros run w'. subst w'.
  assert (Hfirst : forall e rest, pending = Some e :: rest -> run = (Throw e, (w, rest))).
  { intros e rest ->. reflexivity. }
  split; [|split; [|split; [|split; [|exact Hfirst]]]]; clear Hfirst;
    destruct (appendMessage_reliable name message model w)
      as (Hvalid & Hinvalid & Hups & Huuid & Hother);
    (destruct (appendMessage_follows name message model w pending)
       as [(rest & Hrun & _)
          |(e & w1 & rest & Hrun & Hin & Hkept & Hups1 & Huuid1 & Hother1)]);
    fold run in Hrun; rewrite Hrun; cbn [fst snd]; try assumption.
  - destruct (SessionDurableObject.valid_message message).
    + left. destruct (Hvalid eq_refl) as [Hok Hmsgs].
      split; [exact Hok|]. split; [reflexivity|exact Hmsgs].
    + right. left. destruct (Hinvalid eq_refl) as [Hthrow Hsame].
      split; [exact Hthrow|]. split; [reflexivity|exact Hsame].
  - right. right. exists e. split; [reflexivity|]. split; assumption.
Qed.

Lemma unreliable_history_route (sessionId : jsstring) (env : Env)
    (state : World * Schedule) :
  nonempty sessionId = true ->
  UnreliableWorker.fetch (history_request sessionId) env state =
  catch
    (bind (UnreliableWorker.fetchSessionHistory sessionId)
       (fun history => ret (jsonResponse (history_value history) 200, [])))
    (fun _ => ret (jsonResponse (error_payload (lit "Unable to load history")) 500, []))
    state.
Proof.
  intros H. unfold UnreliableWorker.fetch, history_request.
  cbn [pathname method query_sessionId].
  replace (str_eqb (lit "/api/history") (lit "/")) with false by reflexivity.
  replace (startsWith (lit "/api/history") (lit "/api/")) with true by reflexivity.
  replace (str_eqb (lit "/api/history") (lit "/api/history")) with true by reflexivity.
  replace (str_eqb (lit "GET") (lit "GET")) with true by reflexivity.
  cbn [orb negb]. rewrite H. reflexivity.
Qed.

(** X7.  Reading the history of a session returns the last
    [MAX_HISTORY] = 20 of the messages the session reports, hence never
    more than 20, whatever is stored; or a call to the session store was
    rejected, and the read throws that rejection.  Either way it makes no
    [upsert] call and changes no other session.  [GET /api/history] always
    answers: with status 200 and that list when the read returned, with
    status 500 and [Unable to load history] when it threw; a rejection of
    the call to the stub gives the 500 answer and leaves the world as it
    was. *)
Theorem history_read_is_capped (name : jsstring) (w : World)
    (pending : Schedule) :
  let run := UnreliableWorker.fetchSessionHistory name (w, pending) in
  let w' := fst (snd run) in
  ((exists history,
      fst run = Ok history /\
      h_messages history = slice_last MAX_HISTORY (session_messages w name) /\
      length (h_messages history) <= MAX_HISTORY) \/
   (exists e, fst run = Throw e /\ In (Some e) pending)) /\
  upsert_calls w' = upsert_calls w /\
  (forall other, other <> name ->
     session_storage w' other = session_storage w other) /\
  (forall env,
     nonempty name = true ->
     exists payload code,
       UnreliableWorker.fetch (history_request name) env (w, pending)
       = (Ok (jsonResponse payload code, []), snd run) /\
       (code = 200 /\
        get payload "messages"
        = JArr (slice_last MAX_HISTORY (session_messages w name)) /\
        (exists history, fst run = Ok history) \/
        code = 500 /\
        payload = error_payload (lit "Unable to load history") /\
        (exists e, fst run = Throw e /\ In (Some e) pending))) /\
  (forall env e rest,
     nonempty name = true -> pending = Some e :: rest ->
     UnreliableWorker.fetch (history_request name) env (w, pending)
     = (Ok (jsonResponse (error_payload (lit "Unable to load history")) 500, []),
        (w, rest))).
Proof.
  intros run w'. subst w'.
  destruct (fetchSessionHistory_total name w) as (history & st & Hrel & Hmsgs & _).
  destruct (commit_other w name st) as (Hups & _ & Hother).
  assert (Hroute : forall env, nonempty name = true ->
    UnreliableWorker.fetch (history_request name) env (w, pending)
    = match fst run with
      | Ok h => (Ok (jsonResponse (history_value h) 200, []), snd run)
      | Throw _ =>
          (Ok (jsonResponse (error_payload (lit "Unable to load history")) 500, []),
           snd run)
      end).
  { intros env Hname. rewrite (unreliable_history_route name env _ Hname).
    unfold catch, bind. fold run. now destruct run as [[h|e] s]. }
  assert (Hfirst : forall env e rest,
    nonempty name = true -> pending = Some e :: rest ->
    UnreliableWorker.fetch (history_request name) env (w, pending)
    = (Ok (jsonResponse (error_payload (lit "Unable to load history")) 500, []),
       (w, rest))).
  { intros env e rest Hname Hp. rewrite (Hroute env Hname). subst run pending.
    reflexivity. }
  destruct (fetchSessionHistory_follows name w pending)
    as [(rest & Hrun & _)|(e & w1 & rest & Hrun & Hin & _ & Hups1 & _ & Hother1)];
    fold run in Hrun.
  - rewrite Hrel in Hrun. cbn [fst snd] in Hrun.
    split; [|split; [|split; [|split]]].
    + left. exists history. rewrite Hrun. cbn [fst]. split; [reflexivity|].
      split; [exact Hmsgs|]. rewrite Hmsgs, slice_last_length. lia.
    + rewrite Hrun. exact Hups.
    + rewrite Hrun. exact Hother.
    + intros env Hname. rewrite (Hroute env Hname), Hrun. cbn [fst snd].
      do 2 eexists. split; [reflexivity|]. left.
      split; [reflexivity|]. split; [|eauto].
      cbn. now rewrite Hmsgs.
    + exact Hfirst.
  - split; [|split; [|split; [|split]]].
    + right. exists e. rewrite Hrun. auto.
    + rewrite Hrun. exact Hups1.
    + rewrite Hrun. exact Hother1.
    + intros env Hname. rewrite (Hroute env Hname), Hrun. cbn [fst snd].
      do 2 eexists. split; [reflexivity|]. right.
      split; [reflexivity|]. split; [reflexivity|]. eauto.
    + exact Hfirst.
Qed.

(** X12.  Recording the reply throws nothing but the rejection of a call
    to the platform made by its append, which stands after the [try]; a
    failure of the stream is never thrown.  When it returns, it has
    appended to the session it was given one assistant message holding the
    text it collected from the stream, or, when that text is empty, left
    the world as it was.  Either way it makes no
    [upsert] call, draws no document id and changes no other session, and
    a rejected append leaves the record of the session as it was. *)
Theorem capture_stores_one_nonempty_reply (stream : ReadableStream)
    (stub model : jsstring) (w : World) (pending : Schedule) :
  let run :=
    UnreliableWorker.captureAssistantResponse stream stub model (w, pending) in
  let w' := fst (snd run) in
  (fst run = Ok tt /\
   (if nonempty (recorded_reply stream) then
      session_messages w' stub
      = slice_last MAX_HISTORY
          (session_messages w stub
           ++ [ChatMessage "assistant" (recorded_reply stream)])
    else w' = w) \/
   exists e,
     fst run = Throw e /\ In (Some e) pending /\
     session_storage w' stub !! SessionDurableObject.SESSION_STORAGE_KEY
     = session_storage w stub !! SessionDurableObject.SESSION_STORAGE_KEY) /\
  upsert_calls w' = upsert_calls w /\
  uuid_calls w' = uuid_calls w /\
  (forall other, other <> stub ->
     session_storage w' other = session_storage w other).
Proof.
  intros run w'. subst w'.
  destruct (captureAssistantResponse_follows stream stub model w pending)
    as [(rest & Hrun & _)|(e & w1 & rest & Hrun & Hin & Hkept & Hups1 & Huuid1 & Hother1)];
    fold run in Hrun; rewrite Hrun; cbn [fst snd].
  - destruct (captureAssistantResponse_outcome stream stub model w) as [Hok _].
    rewrite captureAssistantResponse_recorded.
    destruct (nonempty (recorded_reply stream)).
    + destruct (commit_other w stub
        (snd (SessionDurableObject.persistMessage
                (ChatMessage "assistant" (recorded_reply stream))
                (trimmed_string (JStr model)) (session_state w stub))))
        as (Hups & Huuid & Hother).
      split; [|auto]. left. split; [exact Hok|].
      now rewrite session_messages_commit, persistMessage_messages.
    + split; [|auto]. left. split; [exact Hok|reflexivity].
  - split; [|auto]. right. exists e. auto.
Qed.

(** The chat handler always answers.  Background work is registered
    with a streamed answer, or with the answer of the [catch] clause. *)
Lemma unreliable_handleChatRequest_answers (request : Request) (env : Env)
    (state : World * Schedule) :
  exists response ctx state',
    UnreliableWorker.handleChatRequest request env state
    = (Ok (response, ctx), state') /\
    (ctx = [] \/
     exists task,
       ctx = [task] /\
       ((exists stream, body response = StreamBody stream) \/
        response = chat_failure)).
Proof.
  unfold UnreliableWorker.handleChatRequest, catch.
  destruct (negb (truthy (safeJson request))); [cbn; eauto 6|].
  destruct (negb (nonempty (string_field (safeJson request) "sessionId")));
    [cbn; eauto 6|].
  destruct (negb (nonempty (string_field (safeJson request) "message")));
    [cbn; eauto 6|].
  unfold bind at 1.
  destruct (UnreliableWorker.fetchSessionHistory _ state) as [[history|e] s1];
    [|cbn; eauto 6].
  unfold bind at 1.
  destruct (UnreliableWorker.appendMessage _ _ _ s1) as [[[]|e] s2];
    [|cbn; eauto 6].
  unfold bind, lift.
  destruct (buildRetrievalContext env _) as [[promptMessages snippets]|e];
    [|cbn; eauto 6].
  destruct (AI_run_chat env _ _) as [raw|e]; [|cbn; eauto 6].
  destruct (raw_body raw) as [modelStream|]; [|cbn; eauto 6].
  cbn [tee].
  destruct (Response_accepts (raw_status raw) (raw_statusText raw)); cbn.
  - do 3 eexists. split; [reflexivity|]. right. eexists. split; [reflexivity|].
    left. eexists. reflexivity.
  - do 3 eexists. split; [reflexivity|]. right. eexists. split; [reflexivity|].
    now right.
Qed.

(** X29.  The worker answers every request to a path under [/api/],
    whatever the bindings do: no failure of the models, of the vector
    index or of the session store, and no refusal of [new Response],
    leaves [fetch] as an exception.  A request for a static asset is
    answered as [env.ASSETS.fetch] answers it, and rejected when that call
    is rejected.  Background work is registered only by [/api/chat],
    together with a streamed answer or with the 500 answer of its [catch]
    clause. *)
Theorem worker_always_answers (request : Request) (env : Env) (w : World)
    (pending : Schedule) :
  let path := pathname request in
  (path = lit "/" \/ startsWith path (lit "/api/") = false ->
   UnreliableWorker.fetch request env (w, pending)
   = (match ASSETS_fetch env request with
      | Ok answer => Ok (answer, [])
      | Throw e => Throw e
      end, (w, pending))) /\
  (startsWith path (lit "/api/") = true ->
   exists response ctx w' rest,
     UnreliableWorker.fetch request env (w, pending)
     = (Ok (response, ctx), (w', rest)) /\
     (ctx = [] \/
      exists task,
        ctx = [task] /\ path = lit "/api/chat" /\
        ((exists stream, body response = StreamBody stream) \/
         response = chat_failure))).
Proof.
  intros path. unfold UnreliableWorker.fetch. fold path. split.
  - assert (Hassets :
      (response <- lift (ASSETS_fetch env request) ;; ret (response, [])) (w, pending)
      = (match ASSETS_fetch env request with
         | Ok answer => Ok (answer, @nil (M (World * Schedule) unit))
         | Throw e => Throw e
         end, (w, pending))).
    { unfold bind, lift, ret. now destruct (ASSETS_fetch env request). }
    intros [-> | ->]; [exact Hassets|]. rewrite orb_true_r. exact Hassets.
  - intros Hapi.
    assert (Hroot : str_eqb path (lit "/") = false).
    { apply str_eqb_neq. intros Hp. rewrite Hp in Hapi. discriminate. }
    rewrite Hroot, Hapi. cbn [orb negb].
    destruct (str_eqb path (lit "/api/history")).
    { destruct (negb (str_eqb (method request) (lit "GET"))); [cbn; eauto 8|].
      destruct (query_sessionId request) as [sessionId|]; [|cbn; eauto 8].
      destruct (negb (nonempty sessionId)); [cbn; eauto 8|].
      unfold catch, bind.
      destruct (UnreliableWorker.fetchSessionHistory sessionId (w, pending))
        as [[history|e] [w1 rest]]; cbn; eauto 8. }
    destruct (str_eqb path (lit "/api/docs")).
    { destruct (str_eqb (method request) (lit "POST")); [|cbn; eauto 8].
      unfold bind, locally. cbn [fst snd].
      destruct (handleDocumentUpload_total request env w) as (response & w' & ->).
      cbn. eauto 8. }
    destruct (str_eqb path (lit "/api/chat")) eqn:Hchat; [|cbn; eauto 8].
    apply str_eqb_eq in Hchat.
    destruct (str_eqb (method request) (lit "POST")); [|cbn; eauto 8].
    destruct (unreliable_handleChatRequest_answers request env (w, pending))
      as (response & ctx & [w' rest] & -> & [->|(task & -> & Hanswer)]);
      [eauto 8|].
    do 4 eexists. split; [reflexivity|]. right. eauto.
Qed.

End UnreliableWorkerTheorems.

(** The stub of session [s1] out of reach: the history request is
    answered with status 500, and the world is as it was. *)
Lemma history_read_is_capped_witness :
  UnreliableWorker.fetch (J := Example.parser)
    (Worker.history_request (lit "s1")) Example.env
    (Example.legacy_world, [Some Scenario.outage])
  = (Ok (jsonResponse (error_payload (lit "Unable to load history")) 500, []),
     (Example.legacy_world, [])).
Proof.
  apply (proj2 (proj2 (proj2 (proj2
           (history_read_is_capped (P := Example.platform) (J := Example.parser)
              (lit "s1") Example.legacy_world [Some Scenario.outage]))))
           Example.env Scenario.outage []).
  - reflexivity.
  - reflexivity.
Defined.

(** The same for an append: the rejection is thrown on. *)
Lemma appendMessage_outcome_witness :
  UnreliableWorker.appendMessage (P := Example.platform) (lit "s1")
    (ChatMessage "user" (lit "hi")) DEFAULT_MODEL_ID
    (Example.empty_world, [Some Scenario.outage])
  = (Throw Scenario.outage, (Example.empty_world, [])).
Proof.
  apply (proj2 (proj2 (proj2 (proj2
           (appendMessage_outcome (P := Example.platform)
              (lit "s1") (ChatMessage "user" (lit "hi")) DEFAULT_MODEL_ID
              Example.empty_world [Some Scenario.outage]))))
           Scenario.outage []).
  reflexivity.
Defined.
